(** * Catalog comparison of two SQL Server databases

    A shallow embedding of the two comparison scripts

      - [sqlserver/compare-databases.py]           (module [Unfiltered])
      - [sqlserver/compare-databases-filtered.py]  (module [Filtered])

    together with the properties of their diff, row-count reconciliation
    and verdict logic.

    Modelling conventions
      - A Python [str] is a [string]; tuples of strings are nested pairs,
        compared lexicographically as Python compares tuples.
      - A Python [set] is a [gset], a [dict] is a [gmap]; a count is an
        [option Z] whose [None] is Python's [None].
      - A database is seen only through the result of each query issued on
        its cursor; a query that raises is a [None] result.
      - Everything the scripts do to the outside world is recorded, in order,
        in a log of [Event]s: each [cursor.execute] and each printed line
        that carries data.  Banner and separator lines are not recorded.
      - An exception is an outcome of its own ([Raise]); it stops the run and
        keeps the log written so far.
      - [create_connection] is outside the comparison: a run is given what
        it returned for each database, [None] for a failed connection.
        Closing cursors and connections is not recorded. *)

From stdpp Require Import gmap strings list sorting.
From Stdlib Require Import ZArith.

(** ** Python's ordering on strings and tuples *)

Class PyOrd (A : Type) := py_le : relation A.

(** [str <= str]: code-point order, which is byte order on UTF-8. *)
Global Instance str_py_le : PyOrd string := String.le.

(** [tuple <= tuple]: the first differing component decides. *)
Global Instance tuple_py_le `{EqDecision A, PyOrd A, PyOrd B} : PyOrd (A * B) :=
  λ x y, if decide (x.1 = y.1) then py_le x.2 y.2 else py_le x.1 y.1.

Global Instance str_py_le_dec : RelDecision (py_le (A:=string)).
Proof. unfold py_le, str_py_le. apply _. Defined.

Global Instance tuple_py_le_dec `{EqDecision A, PyOrd A, PyOrd B,
  !RelDecision (py_le (A:=A)), !RelDecision (py_le (A:=B))} :
  RelDecision (py_le (A:=A * B)).
Proof.
  intros x y. unfold py_le, tuple_py_le.
  destruct (decide (x.1 = y.1)); apply _.
Defined.

(** Both orders are total orders. *)
Class PyTotalOrder (A : Type) `{PyOrd A} := {
  py_le_po :: PartialOrder (py_le (A:=A));
  py_le_total :: Total (py_le (A:=A))
}.

(** [sorted(s)] for a set [s].  The elements of a set are distinct, so any
    sort gives the list Python's stable sort gives. *)
Definition sorted `{Countable A, PyOrd A, !RelDecision (py_le (A:=A))}
  (s : gset A) : list A :=
  merge_sort py_le (elements s).

(** Truth value of a set: non-empty. *)
Definition truthy `{Countable A} (s : gset A) : bool := bool_decide (s ≠ ∅).

(** ** Catalog data *)

(** The rows the enumeration queries return: [(schema, name)] for tables,
    views, procedures and functions; [(schema, table, index)] followed by the
    index type and the unique and primary-key flags for indexes;
    [(schema, table, constraint, constraint type)] for constraints. *)
Abbreviation Ident := (string * string)%type.
Abbreviation IndexKey := (string * string * string)%type.
Abbreviation IndexRow := (string * string * string * string * bool * bool)%type.
Abbreviation ConstraintKey := (string * string * string * string)%type.

Inductive ObjectCategory :=
  Tables | Views | Procedures | Functions | Indexes | Constraints.

Inductive Side := Source | Target.

Inductive Query :=
| SelectTables
| SelectViews
| SelectProcedures
| SelectFunctions
| SelectIndexes
| SelectConstraints
| SelectCount (schema table : string).

(** What one database answers to each query; [None] is a query that
    raises. *)
Record Catalog := {
  rows_tables : option (list Ident);
  rows_views : option (list Ident);
  rows_procedures : option (list Ident);
  rows_functions : option (list Ident);
  rows_indexes : option (list IndexRow);
  rows_constraints : option (list ConstraintKey);
  count_rows : string → string → option Z
}.

(** A cursor knows which side it was opened on. *)
Abbreviation Cursor := (Side * Catalog)%type.

(** ** Effects: log, exceptions *)

(** [Execute] is a [cursor.execute]; every other event is a printed line:
    the connection error; for a category the count of missing objects and
    one line per missing object (an index with its type and flags, a
    constraint under the line of its constraint type), the count of extra
    objects and one line per extra object, or the line saying that all
    match or that there is none; for the row counts the count of differing
    tables and one line per differing table, the total when all match, or
    the line saying the step is skipped; and the closing summary. *)
Inductive Event :=
| Execute (side : Side) (q : Query)
| ConnectFailed (side : Side)
| MissingHeader (c : ObjectCategory) (n : nat)
| MissingLine (c : ObjectCategory) (key : list string)
| MissingIndexLine (key : list string) (idx_type : string) (flags : list string)
| ConstraintKindLine (kind : string)
| MissingConstraintLine (kind : string) (key : list string)
| ExtraHeader (c : ObjectCategory) (n : nat)
| ExtraLine (c : ObjectCategory) (key : list string)
| MatchLine (c : ObjectCategory) (n : nat)
| NoObjectsLine (c : ObjectCategory)
| RowCountDiffHeader (n : nat)
| RowCountDiffLine (key : Ident) (source_count target_count : option Z)
| RowCountMatchLine (total_rows : Z)
| RowCountSkipLine
| SummaryDifferent (missing : list (ObjectCategory * nat))
| SummaryIdentical.

Inductive PyExn := TypeError | DatabaseError.

Inductive result (A : Type) :=
| Ok (a : A)
| Raise (e : PyExn).
Arguments Ok {A} a.
Arguments Raise {A} e.

(** A computation: the events it logged and how it ended. *)
Definition M (A : Type) : Type := (list Event * result A)%type.

Definition ret {A} (a : A) : M A := ([], Ok a).

Definition bind {A B} (m : M A) (f : A → M B) : M B :=
  match m with
  | (l, Ok a) => let '(l', r) := f a in (l ++ l', r)
  | (l, Raise e) => (l, Raise e)
  end.

Definition emit (e : Event) : M unit := ([e], Ok tt).

Definition raise {A} (e : PyExn) : M A := ([], Raise e).

(** [try: body / except: handler] with a bare [except]. *)
Definition try_except {A} (body handler : M A) : M A :=
  match body with
  | (l, Ok a) => (l, Ok a)
  | (l, Raise _) => let '(l', r) := handler in (l ++ l', r)
  end.

Declare Scope py_scope.
Delimit Scope py_scope with py.
Notation "'let*' x ':=' m 'in' k" := (bind m (λ x, k))
  (at level 10, x name, m at level 200, k at level 200) : py_scope.
Notation "m '>>>' k" := (bind m (λ _, k))
  (at level 100, k at level 200, right associativity) : py_scope.
Open Scope py_scope.

(** [for x in l: body x] *)
Fixpoint for_each {A} (l : list A) (body : A → M unit) : M unit :=
  match l with
  | [] => ret tt
  | x :: l' => body x >>> for_each l' body
  end.

(** [cursor.execute(q)] followed by fetching its rows. *)
Definition execute {A} (side : Side) (q : Query) (rows : option A) : M A :=
  emit (Execute side q) >>>
  match rows with
  | Some r => ret r
  | None => raise DatabaseError
  end.

(** ** Code shared by the two scripts *)

(** [compare_lists(source_list, target_list, item_name)] *)
Definition compare_lists `{Countable A} (source_list target_list : list A)
  (item_name : string) : gset A * gset A :=
  let source_set : gset A := list_to_set source_list in
  let target_set : gset A := list_to_set target_list in
  let missing_in_target := source_set ∖ target_set in
  let extra_in_target := target_set ∖ source_set in
  (missing_in_target, extra_in_target).

(** The components of an identity, as a printed line shows them. *)
Definition ident_key (k : Ident) : list string := [k.1; k.2].
Definition index_key (k : IndexKey) : list string := [k.1.1; k.1.2; k.2].
Definition constraint_key (k : ConstraintKey) : list string :=
  [k.1.1.1; k.1.1.2; k.1.2; k.2].

(** The [if missing or extra: ... else: ...] block that follows every
    category's diff.  It answers whether a difference was found, which the
    scripts record by setting [differences_found = True]. *)
Definition report_section `{Countable A} (missing extra : gset A)
  (print_missing print_extra print_match : M unit) : M bool :=
  if truthy missing || truthy extra then
    (if truthy missing then print_missing else ret tt) >>>
    (if truthy extra then print_extra else ret tt) >>>
    ret true
  else
    print_match >>> ret false.

(** The two loops over [sorted(missing)] and [sorted(extra)] of a category
    keyed by [(schema, name)]. *)
Definition print_missing_idents (c : ObjectCategory) (missing : gset Ident) : M unit :=
  emit (MissingHeader c (size missing)) >>>
  for_each (sorted missing) (λ k, emit (MissingLine c (ident_key k))).

Definition print_extra_idents (c : ObjectCategory) (extra : gset Ident) : M unit :=
  emit (ExtraHeader c (size extra)) >>>
  for_each (sorted extra) (λ k, emit (ExtraLine c (ident_key k))).

(** The summary's one line per category with something missing. *)
Definition summary_missing (counts : list (ObjectCategory * nat)) :
  list (ObjectCategory * nat) :=
  filter (λ cn, cn.2 ≠ 0) counts.

(** [main]: the exit status handed to [sys.exit]. *)
Definition exit_status (success : bool) : Z := if success then 0%Z else 1%Z.

(** A Python [dict] whose values may be [None]: [d.get(k)] is the value
    stored at [k], and [None] when there is none. *)
Definition dict_get `{Countable K} {V} (d : gmap K (option V)) (k : K) : option V :=
  match d !! k with
  | Some v => v
  | None => None
  end.

(** [sum(values)]: starts from [0]; adding [None] to an [int] is a
    [TypeError]. *)
Fixpoint py_sum (values : list (option Z)) (acc : Z) : M Z :=
  match values with
  | [] => ret acc
  | Some n :: values' => py_sum values' (acc + n)%Z
  | None :: _ => raise TypeError
  end.

(** ** [compare-databases.py] *)

Module Unfiltered.

Definition get_tables (cursor : Cursor) : M (list Ident) :=
  execute cursor.1 SelectTables (rows_tables cursor.2).

Definition get_views (cursor : Cursor) : M (list Ident) :=
  execute cursor.1 SelectViews (rows_views cursor.2).

Definition get_procedures (cursor : Cursor) : M (list Ident) :=
  execute cursor.1 SelectProcedures (rows_procedures cursor.2).

Definition get_functions (cursor : Cursor) : M (list Ident) :=
  execute cursor.1 SelectFunctions (rows_functions cursor.2).

Definition get_indexes (cursor : Cursor) : M (list IndexRow) :=
  execute cursor.1 SelectIndexes (rows_indexes cursor.2).

Definition get_constraints (cursor : Cursor) : M (list ConstraintKey) :=
  execute cursor.1 SelectConstraints (rows_constraints cursor.2).

(** [(idx[0], idx[1], idx[2])] *)
Definition idx_key (idx : IndexRow) : IndexKey :=
  let '(schema, table, idx_name, _, _, _) := idx in (schema, table, idx_name).

(** The body of the loop over [sorted(missing_indexes)]: the details are
    looked up in the source rows and nothing is printed when none is
    found. *)
Definition print_missing_index (source_indexes : list IndexRow) (k : IndexKey) : M unit :=
  let details := filter (λ idx, idx_key idx = k) source_indexes in
  match details with
  | (_, _, _, idx_type, is_unique, is_pk) :: _ =>
      let flags := (if is_pk : bool then ["PRIMARY KEY"] else []) ++
                   (if is_unique : bool then ["UNIQUE"] else []) in
      emit (MissingIndexLine (index_key k) idx_type flags)
  | [] => ret tt
  end.

(** [by_type[const_type].append((schema, table, const_name))] on a
    [defaultdict(list)]. *)
Definition by_type_append (by_type : gmap string (list IndexKey)) (c : ConstraintKey) :
  gmap string (list IndexKey) :=
  let '(schema, table, const_name, const_type) := c in
  <[const_type := default [] (by_type !! const_type) ++ [(schema, table, const_name)]]> by_type.

(** [sorted(by_type.items())]: the keys of a dict are distinct, so the
    constraint type alone orders the items. *)
Definition sorted_items (by_type : gmap string (list IndexKey)) :
  list (string * list IndexKey) :=
  merge_sort (λ x y, py_le x.1 y.1) (map_to_list by_type).

Definition print_missing_constraints (missing_constraints : gset ConstraintKey) : M unit :=
  emit (MissingHeader Constraints (size missing_constraints)) >>>
  let by_type := foldl by_type_append ∅ (sorted missing_constraints) in
  for_each (sorted_items by_type) (λ '(const_type, items),
    emit (ConstraintKindLine const_type) >>>
    for_each items (λ k, emit (MissingConstraintLine const_type (index_key k)))).

(** [compare_databases(server, source_db, target_db)], given what
    [create_connection] returns for the two databases.  The flag
    [differences_found] is only ever set to [True]; it is the disjunction of
    what the six steps answer. *)
Definition compare_databases (source_conn target_conn : option Catalog) : M bool :=
  match source_conn with
  | None => emit (ConnectFailed Source) >>> ret false
  | Some source_db =>
  match target_conn with
  | None => emit (ConnectFailed Target) >>> ret false
  | Some target_db =>
    let source_cursor := (Source, source_db) in
    let target_cursor := (Target, target_db) in
    (* [1/6] tables *)
    let* source_tables := get_tables source_cursor in
    let* target_tables := get_tables target_cursor in
    let '(missing_tables, extra_tables) :=
      compare_lists source_tables target_tables "table" in
    let* d_tables := report_section missing_tables extra_tables
      (print_missing_idents Tables missing_tables)
      (print_extra_idents Tables extra_tables)
      (emit (MatchLine Tables (length source_tables))) in
    (* [2/6] views *)
    let* source_views := get_views source_cursor in
    let* target_views := get_views target_cursor in
    let '(missing_views, extra_views) :=
      compare_lists source_views target_views "view" in
    let* d_views := report_section missing_views extra_views
      (print_missing_idents Views missing_views)
      (print_extra_idents Views extra_views)
      (emit (MatchLine Views (length source_views))) in
    (* [3/6] stored procedures *)
    let* source_procs := get_procedures source_cursor in
    let* target_procs := get_procedures target_cursor in
    let '(missing_procs, extra_procs) :=
      compare_lists source_procs target_procs "procedure" in
    let* d_procs := report_section missing_procs extra_procs
      (print_missing_idents Procedures missing_procs)
      (print_extra_idents Procedures extra_procs)
      (emit (MatchLine Procedures (length source_procs))) in
    (* [4/6] functions *)
    let* source_funcs := get_functions source_cursor in
    let* target_funcs := get_functions target_cursor in
    let '(missing_funcs, extra_funcs) :=
      compare_lists source_funcs target_funcs "function" in
    let* d_funcs := report_section missing_funcs extra_funcs
      (print_missing_idents Functions missing_funcs)
      (print_extra_idents Functions extra_funcs)
      (emit (MatchLine Functions (length source_funcs))) in
    (* [5/6] indexes *)
    let* source_indexes := get_indexes source_cursor in
    let* target_indexes := get_indexes target_cursor in
    let source_idx_set : gset IndexKey := list_to_set (idx_key <$> source_indexes) in
    let target_idx_set : gset IndexKey := list_to_set (idx_key <$> target_indexes) in
    let missing_indexes := source_idx_set ∖ target_idx_set in
    let extra_indexes := target_idx_set ∖ source_idx_set in
    let* d_indexes := report_section missing_indexes extra_indexes
      (emit (MissingHeader Indexes (size missing_indexes)) >>>
       for_each (sorted missing_indexes) (print_missing_index source_indexes))
      (emit (ExtraHeader Indexes (size extra_indexes)) >>>
       for_each (sorted extra_indexes) (λ k, emit (ExtraLine Indexes (index_key k))))
      (emit (MatchLine Indexes (length source_indexes))) in
    (* [6/6] constraints *)
    let* source_constraints := get_constraints source_cursor in
    let* target_constraints := get_constraints target_cursor in
    let source_const_set : gset ConstraintKey := list_to_set source_constraints in
    let target_const_set : gset ConstraintKey := list_to_set target_constraints in
    let missing_constraints := source_const_set ∖ target_const_set in
    let extra_constraints := target_const_set ∖ source_const_set in
    let* d_constraints := report_section missing_constraints extra_constraints
      (print_missing_constraints missing_constraints)
      (emit (ExtraHeader Constraints (size extra_constraints)) >>>
       for_each (sorted extra_constraints)
         (λ k, emit (ExtraLine Constraints (constraint_key k))))
      (emit (MatchLine Constraints (length source_constraints))) in
    (* summary *)
    let differences_found :=
      d_tables || d_views || d_procs || d_funcs || d_indexes || d_constraints in
    if differences_found then
      emit (SummaryDifferent (summary_missing
        [(Tables, size missing_tables); (Views, size missing_views);
         (Procedures, size missing_procs); (Functions, size missing_funcs);
         (Indexes, size missing_indexes); (Constraints, size missing_constraints)])) >>>
      ret false
    else
      emit SummaryIdentical >>> ret true
  end
  end.

(** [main]: an uncaught exception stays an exception. *)
Definition main (source_conn target_conn : option Catalog) : M Z :=
  let* success := compare_databases source_conn target_conn in
  ret (exit_status success).

End Unfiltered.

(** ** [compare-databases-filtered.py] *)

Module Filtered.

Definition EXCLUDED_TABLES : gset string := {[ "sysdiagrams" ]}.

Definition EXCLUDED_PROCEDURES : gset string :=
  {[ "sp_alterdiagram"; "sp_creatediagram"; "sp_dropdiagram";
     "sp_helpdiagramdefinition"; "sp_helpdiagrams"; "sp_renamediagram";
     "sp_upgraddiagrams" ]}.

Definition EXCLUDED_FUNCTIONS : gset string := {[ "fn_diagramobjects" ]}.

(** [[(row[0], row[1]) for row in rows if row[1] not in excluded]] *)
Definition keep_rows (excluded : gset string) (rows : list Ident) : list Ident :=
  filter (λ row, row.2 ∉ excluded) rows.

Definition get_tables (cursor : Cursor) : M (list Ident) :=
  let* rows := execute cursor.1 SelectTables (rows_tables cursor.2) in
  ret (keep_rows EXCLUDED_TABLES rows).

Definition get_views (cursor : Cursor) : M (list Ident) :=
  execute cursor.1 SelectViews (rows_views cursor.2).

Definition get_procedures (cursor : Cursor) : M (list Ident) :=
  let* rows := execute cursor.1 SelectProcedures (rows_procedures cursor.2) in
  ret (keep_rows EXCLUDED_PROCEDURES rows).

Definition get_functions (cursor : Cursor) : M (list Ident) :=
  let* rows := execute cursor.1 SelectFunctions (rows_functions cursor.2) in
  ret (keep_rows EXCLUDED_FUNCTIONS rows).

(** One turn of the loop of [get_table_row_counts]: the count query, and the
    bare [except] that stores [None]. *)
Definition count_table (cursor : Cursor) (counts : gmap Ident (option Z))
  (key : Ident) : M (gmap Ident (option Z)) :=
  let '(schema, table) := key in
  try_except
    (let* count := execute cursor.1 (SelectCount schema table)
                     (count_rows cursor.2 schema table) in
     ret (<[(schema, table) := Some count]> counts))
    (ret (<[(schema, table) := None]> counts)).

Fixpoint count_tables (cursor : Cursor) (counts : gmap Ident (option Z))
  (tables : list Ident) : M (gmap Ident (option Z)) :=
  match tables with
  | [] => ret counts
  | key :: tables' =>
      let* counts' := count_table cursor counts key in
      count_tables cursor counts' tables'
  end.

Definition get_table_row_counts (cursor : Cursor) (tables : list Ident) :
  M (gmap Ident (option Z)) :=
  count_tables cursor ∅ tables.

(** The loop that fills [row_count_diffs]. *)
Definition collect_row_count_diffs (source_tables : list Ident)
  (source_counts target_counts : gmap Ident (option Z)) :
  list (Ident * option Z * option Z) :=
  flat_map (λ table_key,
    let source_count := dict_get source_counts table_key in
    let target_count := dict_get target_counts table_key in
    if decide (source_count ≠ target_count)
    then [(table_key, source_count, target_count)]
    else []) source_tables.

(** Step [2/5]: row counts, only when the table sets agree.  The values of
    the dictionary are summed in the order the map lists them; neither the
    total nor the [TypeError] depends on that order. *)
Definition compare_row_counts (source_cursor target_cursor : Cursor)
  (source_tables target_tables : list Ident)
  (missing_tables extra_tables : gset Ident) : M bool :=
  if negb (truthy missing_tables) && negb (truthy extra_tables) then
    let* source_counts := get_table_row_counts source_cursor source_tables in
    let* target_counts := get_table_row_counts target_cursor target_tables in
    let row_count_diffs :=
      collect_row_count_diffs source_tables source_counts target_counts in
    match row_count_diffs with
    | _ :: _ =>
        emit (RowCountDiffHeader (length row_count_diffs)) >>>
        for_each row_count_diffs (λ '(key, source_count, target_count),
          emit (RowCountDiffLine key source_count target_count)) >>>
        ret true
    | [] =>
        let* total_rows := py_sum (map_to_list source_counts).*2 0 in
        emit (RowCountMatchLine total_rows) >>>
        ret false
    end
  else
    emit RowCountSkipLine >>> ret false.

(** The [else] branch of the procedure and function steps. *)
Definition print_match_or_none (c : ObjectCategory) (n : nat) : M unit :=
  if decide (0 < n) then emit (MatchLine c n) else emit (NoObjectsLine c).

(** [compare_databases(server, source_db, target_db)], given what
    [create_connection] returns for the two databases.  The flag
    [differences_found] is only ever set to [True]; it is the disjunction of
    what the five steps answer. *)
Definition compare_databases (source_conn target_conn : option Catalog) : M bool :=
  match source_conn with
  | None => emit (ConnectFailed Source) >>> ret false
  | Some source_db =>
  match target_conn with
  | None => emit (ConnectFailed Target) >>> ret false
  | Some target_db =>
    let source_cursor := (Source, source_db) in
    let target_cursor := (Target, target_db) in
    (* [1/5] tables *)
    let* source_tables := get_tables source_cursor in
    let* target_tables := get_tables target_cursor in
    let '(missing_tables, extra_tables) :=
      compare_lists source_tables target_tables "table" in
    let* d_tables := report_section missing_tables extra_tables
      (print_missing_idents Tables missing_tables)
      (print_extra_idents Tables extra_tables)
      (emit (MatchLine Tables (length source_tables))) in
    (* [2/5] row counts *)
    let* d_counts := compare_row_counts source_cursor target_cursor
      source_tables target_tables missing_tables extra_tables in
    (* [3/5] views *)
    let* source_views := get_views source_cursor in
    let* target_views := get_views target_cursor in
    let '(missing_views, extra_views) :=
      compare_lists source_views target_views "view" in
    let* d_views := report_section missing_views extra_views
      (print_missing_idents Views missing_views)
      (print_extra_idents Views extra_views)
      (emit (MatchLine Views (length source_views))) in
    (* [4/5] stored procedures *)
    let* source_procs := get_procedures source_cursor in
    let* target_procs := get_procedures target_cursor in
    let '(missing_procs, extra_procs) :=
      compare_lists source_procs target_procs "procedure" in
    let* d_procs := report_section missing_procs extra_procs
      (print_missing_idents Procedures missing_procs)
      (print_extra_idents Procedures extra_procs)
      (print_match_or_none Procedures (length source_procs)) in
    (* [5/5] functions *)
    let* source_funcs := get_functions source_cursor in
    let* target_funcs := get_functions target_cursor in
    let '(missing_funcs, extra_funcs) :=
      compare_lists source_funcs target_funcs "function" in
    let* d_funcs := report_section missing_funcs extra_funcs
      (print_missing_idents Functions missing_funcs)
      (print_extra_idents Functions extra_funcs)
      (print_match_or_none Functions (length source_funcs)) in
    (* summary *)
    let differences_found := d_tables || d_counts || d_views || d_procs || d_funcs in
    if differences_found then
      emit (SummaryDifferent (summary_missing
        [(Tables, size missing_tables); (Views, size missing_views);
         (Procedures, size missing_procs); (Functions, size missing_funcs)])) >>>
      ret false
    else
      emit SummaryIdentical >>> ret true
  end
  end.

(** [main]: an uncaught exception stays an exception. *)
Definition main (source_conn target_conn : option Catalog) : M Z :=
  let* success := compare_databases source_conn target_conn in
  ret (exit_status success).

End Filtered.

(** ** Snapshots and what is read off a run *)

(** The catalog inventory of one database: every enumeration answers; a
    table's count is [None] when its count query fails. *)
Record Snapshot := {
  tables : list Ident;
  views : list Ident;
  procedures : list Ident;
  functions : list Ident;
  indexes : list IndexRow;
  constraints : list ConstraintKey;
  row_count : Ident → option Z
}.

(** The database holding a snapshot. *)
Definition database (s : Snapshot) : Catalog := {|
  rows_tables := Some (tables s);
  rows_views := Some (views s);
  rows_procedures := Some (procedures s);
  rows_functions := Some (functions s);
  rows_indexes := Some (indexes s);
  rows_constraints := Some (constraints s);
  count_rows := λ schema table, row_count s (schema, table)
|}.

Inductive Finding :=
| MissingObject (c : ObjectCategory) (key : list string)
| ExtraObject (c : ObjectCategory) (key : list string)
| RowCountMismatch (key : Ident) (source_count target_count : option Z).

Definition finding_of (e : Event) : option Finding :=
  match e with
  | MissingLine c key => Some (MissingObject c key)
  | MissingIndexLine key _ _ => Some (MissingObject Indexes key)
  | MissingConstraintLine kind key => Some (MissingObject Constraints (key ++ [kind]))
  | ExtraLine c key => Some (ExtraObject c key)
  | RowCountDiffLine key sc tc => Some (RowCountMismatch key sc tc)
  | _ => None
  end.

(** The findings of a run, in the order they were reported. *)
Definition findings (log : list Event) : list Finding := omap finding_of log.

Definition mismatch_of (e : Event) : option (Ident * option Z * option Z) :=
  match e with
  | RowCountDiffLine key sc tc => Some (key, sc, tc)
  | _ => None
  end.

Definition row_count_mismatches (log : list Event) :
  list (Ident * option Z * option Z) := omap mismatch_of log.

Definition count_query_of (e : Event) : option (Side * Ident) :=
  match e with
  | Execute side (SelectCount schema table) => Some (side, (schema, table))
  | _ => None
  end.

(** The count queries a run issued, in order. *)
Definition count_queries (log : list Event) : list (Side * Ident) :=
  omap count_query_of log.

Inductive Verdict := Pass | Fail.

(** The verdict a run reached, if it reached one. *)
Definition verdict (run : M bool) : option Verdict :=
  match run.2 with
  | Ok true => Some Pass
  | Ok false => Some Fail
  | Raise _ => None
  end.

(** ** The diffs of two snapshots *)

Definition differs `{Countable K} (d : gset K * gset K) : bool :=
  truthy d.1 || truthy d.2.

Definition filtered_tables (s : Snapshot) : list Ident :=
  Filtered.keep_rows Filtered.EXCLUDED_TABLES (tables s).
Definition filtered_procedures (s : Snapshot) : list Ident :=
  Filtered.keep_rows Filtered.EXCLUDED_PROCEDURES (procedures s).
Definition filtered_functions (s : Snapshot) : list Ident :=
  Filtered.keep_rows Filtered.EXCLUDED_FUNCTIONS (functions s).

Definition filtered_table_diff (A B : Snapshot) :=
  compare_lists (filtered_tables A) (filtered_tables B) "table".
Definition view_diff (A B : Snapshot) :=
  compare_lists (views A) (views B) "view".
Definition filtered_procedure_diff (A B : Snapshot) :=
  compare_lists (filtered_procedures A) (filtered_procedures B) "procedure".
Definition filtered_function_diff (A B : Snapshot) :=
  compare_lists (filtered_functions A) (filtered_functions B) "function".

Definition table_diff (A B : Snapshot) :=
  compare_lists (tables A) (tables B) "table".
Definition procedure_diff (A B : Snapshot) :=
  compare_lists (procedures A) (procedures B) "procedure".
Definition function_diff (A B : Snapshot) :=
  compare_lists (functions A) (functions B) "function".
Definition index_diff (A B : Snapshot) : gset IndexKey * gset IndexKey :=
  let source_idx_set : gset IndexKey :=
    list_to_set (Unfiltered.idx_key <$> indexes A) in
  let target_idx_set : gset IndexKey :=
    list_to_set (Unfiltered.idx_key <$> indexes B) in
  (source_idx_set ∖ target_idx_set, target_idx_set ∖ source_idx_set).
Definition constraint_diff (A B : Snapshot) : gset ConstraintKey * gset ConstraintKey :=
  let source_const_set : gset ConstraintKey := list_to_set (constraints A) in
  let target_const_set : gset ConstraintKey := list_to_set (constraints B) in
  (source_const_set ∖ target_const_set, target_const_set ∖ source_const_set).

(** The names the filtered script drops from each category. *)
Definition excluded_names (c : ObjectCategory) : gset string :=
  match c with
  | Tables => Filtered.EXCLUDED_TABLES
  | Procedures => Filtered.EXCLUDED_PROCEDURES
  | Functions => Filtered.EXCLUDED_FUNCTIONS
  | _ => ∅
  end.

(** The rows of a category as the database lists them, and as the filtered
    script keeps them. *)
Definition listed (c : ObjectCategory) (s : Snapshot) : list Ident :=
  match c with
  | Tables => tables s
  | Views => views s
  | Procedures => procedures s
  | Functions => functions s
  | _ => []
  end.

Definition filtered_rows (c : ObjectCategory) (s : Snapshot) : list Ident :=
  match c with
  | Tables => filtered_tables s
  | Views => views s
  | Procedures => filtered_procedures s
  | Functions => filtered_functions s
  | _ => []
  end.

(** The diff the filtered script computes for a category. *)
Definition filtered_diff (c : ObjectCategory) (A B : Snapshot) :
  gset Ident * gset Ident :=
  match c with
  | Tables => filtered_table_diff A B
  | Views => view_diff A B
  | Procedures => filtered_procedure_diff A B
  | Functions => filtered_function_diff A B
  | _ => (∅, ∅)
  end.

(** The answer of a database to the count query of a table. *)
Definition counted (db : Catalog) (k : Ident) : option Z := count_rows db k.1 k.2.

(** Some table of [ts] has a null count in [A]. *)
Definition has_null_count (A : Snapshot) (ts : list Ident) : Prop :=
  Exists (λ k, row_count A k = None) ts.

(** Some enumeration query the script issues fails on this database. *)
Definition filtered_enumeration_fails (db : Catalog) : Prop :=
  rows_tables db = None ∨ rows_views db = None ∨
  rows_procedures db = None ∨ rows_functions db = None.

Definition unfiltered_enumeration_fails (db : Catalog) : Prop :=
  rows_tables db = None ∨ rows_views db = None ∨
  rows_procedures db = None ∨ rows_functions db = None ∨
  rows_indexes db = None ∨ rows_constraints db = None.

(** ** What a run logs on two snapshots *)

Definition section_log (c : ObjectCategory) (d : gset Ident * gset Ident)
  (on_match : Event) : list Event :=
  if differs d then
    (if truthy d.1
     then MissingHeader c (size d.1) ::
          ((λ k, MissingLine c (ident_key k)) <$> sorted d.1)
     else []) ++
    (if truthy d.2
     then ExtraHeader c (size d.2) ::
          ((λ k, ExtraLine c (ident_key k)) <$> sorted d.2)
     else [])
  else [on_match].

Definition match_or_none (c : ObjectCategory) (n : nat) : Event :=
  if decide (0 < n) then MatchLine c n else NoObjectsLine c.

Definition count_events (side : Side) (ts : list Ident) : list Event :=
  (λ k, Execute side (SelectCount k.1 k.2)) <$> ts.

Definition counts_dict (count : Ident → option Z) (ts : list Ident)
  (counts : gmap Ident (option Z)) : gmap Ident (option Z) :=
  foldl (λ d k, <[k := count k]> d) counts ts.

(** The tables of [ts] whose counts differ, in the order of [ts], each with
    its two counts. *)
Definition row_count_diffs (A B : Snapshot) (ts : list Ident) :
  list (Ident * option Z * option Z) :=
  (λ k, (k, row_count A k, row_count B k)) <$>
  filter (λ k, row_count A k ≠ row_count B k) ts.

Definition sum_values (values : list (option Z)) : Z :=
  foldr (λ v s, default 0 v + s)%Z 0%Z values.

Definition diff_line (d : Ident * option Z * option Z) : Event :=
  RowCountDiffLine d.1.1 d.1.2 d.2.

(** What step [2/5] logs and answers on two snapshots. *)
Definition row_counts_run (A B : Snapshot) (ts tt : list Ident) : M bool :=
  let queries := count_events Source ts ++ count_events Target tt in
  match row_count_diffs A B ts with
  | [] =>
      if decide (Exists (λ k, row_count A k = None) ts)
      then (queries, Raise TypeError)
      else (queries ++
            [RowCountMatchLine
               (sum_values (map_to_list (counts_dict (row_count A) ts ∅)).*2)],
            Ok false)
  | diffs =>
      (queries ++ RowCountDiffHeader (length diffs) :: (diff_line <$> diffs),
       Ok true)
  end.

Definition filtered_head (A B : Snapshot) : list Event :=
  [Execute Source SelectTables; Execute Target SelectTables] ++
  section_log Tables (filtered_table_diff A B)
    (MatchLine Tables (length (filtered_tables A))).

Definition filtered_row_counts (A B : Snapshot) : M bool :=
  if differs (filtered_table_diff A B) then ([RowCountSkipLine], Ok false)
  else row_counts_run A B (filtered_tables A) (filtered_tables B).

Definition filtered_tail (A B : Snapshot) : list Event :=
  [Execute Source SelectViews; Execute Target SelectViews] ++
  section_log Views (view_diff A B) (MatchLine Views (length (views A))) ++
  [Execute Source SelectProcedures; Execute Target SelectProcedures] ++
  section_log Procedures (filtered_procedure_diff A B)
    (match_or_none Procedures (length (filtered_procedures A))) ++
  [Execute Source SelectFunctions; Execute Target SelectFunctions] ++
  section_log Functions (filtered_function_diff A B)
    (match_or_none Functions (length (filtered_functions A))).

Definition filtered_found (A B : Snapshot) (d_counts : bool) : bool :=
  differs (filtered_table_diff A B) || d_counts || differs (view_diff A B) ||
  differs (filtered_procedure_diff A B) || differs (filtered_function_diff A B).

Definition filtered_summary (A B : Snapshot) (found : bool) : Event :=
  if found then
    SummaryDifferent (summary_missing
      [(Tables, size (filtered_table_diff A B).1);
       (Views, size (view_diff A B).1);
       (Procedures, size (filtered_procedure_diff A B).1);
       (Functions, size (filtered_function_diff A B).1)])
  else SummaryIdentical.

Definition missing_index_events (A : Snapshot) (k : IndexKey) : list Event :=
  (Unfiltered.print_missing_index (indexes A) k).1.

Definition index_section_log (A B : Snapshot) : list Event :=
  let d := index_diff A B in
  if differs d then
    (if truthy d.1
     then MissingHeader Indexes (size d.1) ::
          mjoin (missing_index_events A <$> sorted d.1)
     else []) ++
    (if truthy d.2
     then ExtraHeader Indexes (size d.2) ::
          ((λ k, ExtraLine Indexes (index_key k)) <$> sorted d.2)
     else [])
  else [MatchLine Indexes (length (indexes A))].

(** The groups of missing constraints, one per constraint type, in the
    order they are printed. *)
Definition constraint_groups (missing : gset ConstraintKey) :
  list (string * list IndexKey) :=
  Unfiltered.sorted_items (foldl Unfiltered.by_type_append ∅ (sorted missing)).

Definition group_events (g : string * list IndexKey) : list Event :=
  ConstraintKindLine g.1 ::
  ((λ k, MissingConstraintLine g.1 (index_key k)) <$> g.2).

Definition constraint_section_log (A B : Snapshot) : list Event :=
  let d := constraint_diff A B in
  if differs d then
    (if truthy d.1
     then MissingHeader Constraints (size d.1) ::
          mjoin (group_events <$> constraint_groups d.1)
     else []) ++
    (if truthy d.2
     then ExtraHeader Constraints (size d.2) ::
          ((λ k, ExtraLine Constraints (constraint_key k)) <$> sorted d.2)
     else [])
  else [MatchLine Constraints (length (constraints A))].

Definition unfiltered_found (A B : Snapshot) : bool :=
  differs (table_diff A B) || differs (view_diff A B) ||
  differs (procedure_diff A B) || differs (function_diff A B) ||
  differs (index_diff A B) || differs (constraint_diff A B).

Definition unfiltered_summary (A B : Snapshot) : Event :=
  if unfiltered_found A B then
    SummaryDifferent (summary_missing
      [(Tables, size (table_diff A B).1);
       (Views, size (view_diff A B).1);
       (Procedures, size (procedure_diff A B).1);
       (Functions, size (function_diff A B).1);
       (Indexes, size (index_diff A B).1);
       (Constraints, size (constraint_diff A B).1)])
  else SummaryIdentical.

Definition unfiltered_log (A B : Snapshot) : list Event :=
  [Execute Source SelectTables; Execute Target SelectTables] ++
  section_log Tables (table_diff A B) (MatchLine Tables (length (tables A))) ++
  [Execute Source SelectViews; Execute Target SelectViews] ++
  section_log Views (view_diff A B) (MatchLine Views (length (views A))) ++
  [Execute Source SelectProcedures; Execute Target SelectProcedures] ++
  section_log Procedures (procedure_diff A B)
    (MatchLine Procedures (length (procedures A))) ++
  [Execute Source SelectFunctions; Execute Target SelectFunctions] ++
  section_log Functions (function_diff A B)
    (MatchLine Functions (length (functions A))) ++
  [Execute Source SelectIndexes; Execute Target SelectIndexes] ++
  index_section_log A B ++
  [Execute Source SelectConstraints; Execute Target SelectConstraints] ++
  constraint_section_log A B ++
  [unfiltered_summary A B].

(** ** What is read off a log *)

Definition skip_of (e : Event) : option unit :=
  match e with
  | RowCountSkipLine => Some tt
  | _ => None
  end.

(** Whether the run reported that it skipped the row counts. *)
Definition row_counts_skipped (log : list Event) : bool :=
  bool_decide (omap skip_of log ≠ []).

(** The events of the row-count step, as opposed to those of the category
    steps and of the summary. *)
Definition row_count_event (e : Event) : bool :=
  match e with
  | Execute _ (SelectCount _ _) => true
  | RowCountDiffHeader _ | RowCountDiffLine _ _ _
  | RowCountMatchLine _ | RowCountSkipLine => true
  | _ => false
  end.

Definition on_side (side : Side) (ts : list Ident) : list (Side * Ident) :=
  (λ k, (side, k)) <$> ts.

(** The findings of one identity-keyed category: what is missing, sorted,
    then what is extra, sorted. *)
Definition section_findings (c : ObjectCategory) (d : gset Ident * gset Ident) :
  list Finding :=
  ((λ k, MissingObject c (ident_key k)) <$> sorted d.1) ++
  ((λ k, ExtraObject c (ident_key k)) <$> sorted d.2).

Definition mismatch_finding (d : Ident * option Z * option Z) : Finding :=
  RowCountMismatch d.1.1 d.1.2 d.2.

Definition index_findings (d : gset IndexKey * gset IndexKey) : list Finding :=
  ((λ k, MissingObject Indexes (index_key k)) <$> sorted d.1) ++
  ((λ k, ExtraObject Indexes (index_key k)) <$> sorted d.2).

(** The missing constraints in the order they are printed, each under its
    constraint type. *)
Definition grouped_constraints (missing : gset ConstraintKey) :
  list (string * IndexKey) :=
  constraint_groups missing ≫= (λ g, (λ k, (g.1, k)) <$> g.2).

Definition constraint_findings (d : gset ConstraintKey * gset ConstraintKey) :
  list Finding :=
  ((λ g, MissingObject Constraints (index_key g.2 ++ [g.1])) <$>
     grouped_constraints d.1) ++
  ((λ k, ExtraObject Constraints (constraint_key k)) <$> sorted d.2).

(** [x] comes before [y] and is not [y]. *)
Definition strictly {A} (R : relation A) : relation A := λ x y, R x y ∧ x ≠ y.

(** A constraint keyed by its type first. *)
Definition by_kind (c : ConstraintKey) : string * IndexKey := (c.2, c.1).

(** ** Snapshots used as examples *)

Definition users : Ident := ("dbo", "Users").
Definition orders : Ident := ("dbo", "Orders").

Definition audit : Ident := ("dbo", "Audit").

Definition active_users : Ident := ("dbo", "ActiveUsers").

(** A snapshot with tables only. *)
Definition tables_only (ts : list Ident) (count : Ident → option Z) : Snapshot := {|
  tables := ts; views := []; procedures := []; functions := [];
  indexes := []; constraints := []; row_count := count |}.

Definition empty_snapshot : Snapshot := tables_only [] (λ _, None).

Definition scenario_A_source : Snapshot := tables_only [users; orders] (λ _, Some 1%Z).
Definition scenario_A_target : Snapshot := tables_only [users] (λ _, Some 1%Z).

Definition scenario_C_source : Snapshot := tables_only [users] (λ _, Some 100%Z).
Definition scenario_C_target : Snapshot := tables_only [users] (λ _, Some 99%Z).
Definition scenario_E_source : Snapshot := tables_only [users] (λ _, None).
Definition scenario_E_target : Snapshot := tables_only [users] (λ _, Some 0%Z).

Definition scenario_D_source : Snapshot := {|
  tables := []; views := []; procedures := [("dbo", "sp_creatediagram")];
  functions := []; indexes := []; constraints := []; row_count := λ _, None |}.
Definition scenario_D_target : Snapshot := empty_snapshot.

(** One table whose count query fails on both sides. *)
Definition denied_source : Snapshot := tables_only [users] (λ _, None).
Definition denied_target : Snapshot := {|
  tables := [users]; views := []; procedures := []; functions := [];
  indexes := [("dbo", "Users", "PK_Users", "CLUSTERED", true, true)];
  constraints := []; row_count := λ _, None |}.

(** Two tables, the count of one of which cannot be read. *)
Definition partly_counted : Snapshot :=
  tables_only [users; audit]
    (λ k, if decide (k = users) then Some 100%Z else None).

(** Equal catalogs, one of whose tables cannot be counted on either side. *)
Definition unreadable_source : Snapshot := {|
  tables := [audit; orders]; views := [("dbo", "ActiveOrders")];
  procedures := []; functions := []; indexes := []; constraints := [];
  row_count := λ k, if decide (k = orders) then Some 7%Z else None |}.
Definition unreadable_target : Snapshot := {|
  tables := [orders; audit]; views := [("dbo", "ActiveOrders")];
  procedures := []; functions := []; indexes := []; constraints := [];
  row_count := λ k, if decide (k = orders) then Some 7%Z else None |}.

(** Equal table sets whose counts differ, and a view only the source has. *)
Definition counts_and_views_source : Snapshot := {|
  tables := [users]; views := [active_users]; procedures := []; functions := [];
  indexes := []; constraints := []; row_count := λ _, Some 100%Z |}.
Definition counts_and_views_target : Snapshot := tables_only [users] (λ _, Some 99%Z).

(** Two constraints only the source has. *)
Definition two_constraints : Snapshot := {|
  tables := []; views := []; procedures := []; functions := []; indexes := [];
  constraints := [("dbo", "A", "UQ_A", "UNIQUE"); ("dbo", "B", "CK_B", "CHECK")];
  row_count := λ _, None |}.

(** A database whose views cannot be listed. *)
Definition views_unreadable : Catalog := {|
  rows_tables := Some [users]; rows_views := None;
  rows_procedures := Some []; rows_functions := Some [];
  rows_indexes := Some []; rows_constraints := Some [];
  count_rows := λ _ _, Some 3%Z |}.

(** The keys of a category in a snapshot, as a finding shows them. *)
Definition object_keys (c : ObjectCategory) (s : Snapshot) : list (list string) :=
  match c with
  | Tables => ident_key <$> tables s
  | Views => ident_key <$> views s
  | Procedures => ident_key <$> procedures s
  | Functions => ident_key <$> functions s
  | Indexes => (λ idx, index_key (Unfiltered.idx_key idx)) <$> indexes s
  | Constraints => constraint_key <$> constraints s
  end.

(** The category of a finding and whether it reports a missing object. *)
Definition finding_tag (f : Finding) : option (ObjectCategory * bool) :=
  match f with
  | MissingObject c _ => Some (c, true)
  | ExtraObject c _ => Some (c, false)
  | RowCountMismatch _ _ _ => None
  end.

(** Two snapshots hold the same keys in a category. *)
Definition same_keys (c : ObjectCategory) (A B : Snapshot) : Prop :=
  ∀ key, key ∈ object_keys c A ↔ key ∈ object_keys c B.

(** Source has a table and a view the target lacks; the target has an index
    and a constraint the source lacks. *)
Definition drifted_source : Snapshot := {|
  tables := [users; orders]; views := [active_users]; procedures := [];
  functions := []; indexes := []; constraints := [];
  row_count := λ _, Some 5%Z |}.
Definition drifted_target : Snapshot := {|
  tables := [users]; views := []; procedures := []; functions := [];
  indexes := [("dbo", "Users", "IX_Users_Name", "NONCLUSTERED", false, false)];
  constraints := [("dbo", "Users", "PK_Users", "PRIMARY KEY")];
  row_count := λ _, Some 5%Z |}.

(** A database whose index and constraint queries answer something else. *)
Definition with_indexes_and_constraints (db : Catalog)
  (ix : option (list IndexRow)) (cs : option (list ConstraintKey)) : Catalog := {|
  rows_tables := rows_tables db;
  rows_views := rows_views db;
  rows_procedures := rows_procedures db;
  rows_functions := rows_functions db;
  rows_indexes := ix;
  rows_constraints := cs;
  count_rows := count_rows db |}.

(** The enumeration queries of a log, in the order they were issued. *)
Definition enumeration_of (e : Event) : option (Side * Query) :=
  match e with
  | Execute _ (SelectCount _ _) => None
  | Execute side q => Some (side, q)
  | _ => None
  end.

Definition enumerations (log : list Event) : list (Side * Query) :=
  omap enumeration_of log.

(** An event that is a query, as opposed to a printed line. *)
Definition is_query (e : Event) : bool :=
  match e with
  | Execute _ _ => true
  | _ => false
  end.

(** One query on each side. *)
Definition on_both (q : Query) : list (Side * Query) := [(Source, q); (Target, q)].

(** The filtered run reaches the step of a category: the tables always, the
    views, procedures and functions when the row counts do not stop it. *)
Definition filtered_reaches (c : ObjectCategory) (run : M bool) : Prop :=
  c = Tables ∨ ((c = Views ∨ c = Procedures ∨ c = Functions) ∧ verdict run ≠ None).

(** The lines printed for missing indexes: key, index type, flags. *)
Definition index_line_of (e : Event) : option (list string * string * list string) :=
  match e with
  | MissingIndexLine key idx_type flags => Some (key, idx_type, flags)
  | _ => None
  end.

Definition missing_index_lines (log : list Event) :
  list (list string * string * list string) := omap index_line_of log.

(** The line a row of the index query is printed as. *)
Definition index_line (idx : IndexRow) : list string * string * list string :=
  let '(schema, table, idx_name, idx_type, is_unique, is_pk) := idx in
  ([schema; table; idx_name], idx_type,
   (if is_pk : bool then ["PRIMARY KEY"] else []) ++
   (if is_unique : bool then ["UNIQUE"] else [])).

Global Instance ObjectCategory_eq_dec : EqDecision ObjectCategory.
Proof. solve_decision. Defined.

(** The categories in the order of the summary. *)
Definition categories : list ObjectCategory :=
  [Tables; Views; Procedures; Functions; Indexes; Constraints].


(** The number of objects of a category among the findings, missing or
    extra. *)
Definition is_missing (c : ObjectCategory) (f : Finding) : bool :=
  bool_decide (finding_tag f = Some (c, true)).
Definition is_extra (c : ObjectCategory) (f : Finding) : bool :=
  bool_decide (finding_tag f = Some (c, false)).

Definition missing_count (c : ObjectCategory) (fs : list Finding) : nat :=
  length (filter (λ f, is_missing c f) fs).
Definition extra_count (c : ObjectCategory) (fs : list Finding) : nat :=
  length (filter (λ f, is_extra c f) fs).

(** The number of findings with a given category and kind. *)
Definition tagged (t : option (ObjectCategory * bool)) (fs : list Finding) : nat :=
  length (filter (λ f, finding_tag f = t) fs).

(** The headers of a log: category, missing or extra, number announced. *)
Definition header_of (e : Event) : option (ObjectCategory * bool * nat) :=
  match e with
  | MissingHeader c n => Some (c, true, n)
  | ExtraHeader c n => Some (c, false, n)
  | _ => None
  end.

Definition headers (log : list Event) : list (ObjectCategory * bool * nat) :=
  omap header_of log.

(** The headers that go with a list of findings: for each category, the
    number of missing objects if there is one, then the number of extra
    objects if there is one. *)
Definition header_if (c : ObjectCategory) (missing : bool) (n : nat) :
  list (ObjectCategory * bool * nat) :=
  if decide (n = 0) then [] else [(c, missing, n)].

Definition headers_for (cs : list ObjectCategory) (fs : list Finding) :
  list (ObjectCategory * bool * nat) :=
  cs ≫= λ c, header_if c true (missing_count c fs) ++
             header_if c false (extra_count c fs).

(** The totals a log prints for matching row counts. *)
Definition total_of (e : Event) : option Z :=
  match e with
  | RowCountMatchLine total_rows => Some total_rows
  | _ => None
  end.

Definition row_count_totals (log : list Event) : list Z := omap total_of log.

(** The rows of the distinct tables of [ts] in a snapshot, a null count
    counting for nothing. *)
Definition total_rows (A : Snapshot) (ts : list Ident) : Z :=
  sum_values (row_count A <$> elements (list_to_set ts : gset Ident)).

(** Every table of [ts] has a count in both snapshots, and the same. *)
Definition counts_agree (A B : Snapshot) (ts : list Ident) : Prop :=
  ∀ k, k ∈ ts → ∃ n, row_count A k = Some n ∧ row_count B k = Some n.

(** An enumeration query that a database fails to answer.  A failing count
    query is caught where it is issued. *)
Definition failing (db : Catalog) (q : Query) : Prop :=
  match q with
  | SelectTables => rows_tables db = None
  | SelectViews => rows_views db = None
  | SelectProcedures => rows_procedures db = None
  | SelectFunctions => rows_functions db = None
  | SelectIndexes => rows_indexes db = None
  | SelectConstraints => rows_constraints db = None
  | SelectCount _ _ => False
  end.

Definition database_of (side : Side) (source target : Catalog) : Catalog :=
  match side with
  | Source => source
  | Target => target
  end.

(** The log ends with an enumeration query that its database fails to
    answer. *)
Definition stopped_at_query (source target : Catalog) (log : list Event) : Prop :=
  ∃ side q, last log = Some (Execute side q) ∧
            failing (database_of side source target) q.

(** What a computation logs whenever it raises. *)
Definition raises_only {A} (Φ : PyExn → list Event → Prop) (run : M A) : Prop :=
  ∀ e, run.2 = Raise e → Φ e run.1.

(** The constraint types a log prints as headings of the missing
    constraints. *)
Definition kind_of (e : Event) : option string :=
  match e with
  | ConstraintKindLine kind => Some kind
  | _ => None
  end.

Definition constraint_kinds (log : list Event) : list string := omap kind_of log.

(** After exclusion, two snapshots list the same objects in a category. *)
Definition same_filtered_rows (c : ObjectCategory) (A B : Snapshot) : Prop :=
  ∀ k, k ∈ filtered_rows c A ↔ k ∈ filtered_rows c B.

(** * Properties *)

(** ** Ordering and [sorted] *)

Global Instance str_py_total : PyTotalOrder string.
Proof. split; unfold py_le, str_py_le; apply _. Qed.

Global Instance tuple_py_total `{EqDecision A, PyOrd A, PyOrd B,
  !PyTotalOrder A, !PyTotalOrder B} : PyTotalOrder (A * B).
Proof.
  split; [split; [split|]|].
  - intros [a b]. unfold py_le, tuple_py_le. simpl.
    rewrite decide_True by done. reflexivity.
  - intros [a1 b1] [a2 b2] [a3 b3].
    change (tuple_py_le (a1, b1) (a2, b2) → tuple_py_le (a2, b2) (a3, b3) →
            tuple_py_le (a1, b1) (a3, b3)).
    unfold tuple_py_le. simpl.
    destruct (decide (a1 = a2)) as [->|N12], (decide (a2 = a3)) as [->|N23];
      intros L12 L23.
    + by etrans.
    + done.
    + by rewrite decide_False by done.
    + destruct (decide (a1 = a3)) as [->|N13]; [|by etrans].
      destruct N12. by apply (anti_symm py_le).
  - intros [a1 b1] [a2 b2].
    change (tuple_py_le (a1, b1) (a2, b2) → tuple_py_le (a2, b2) (a1, b1) →
            (a1, b1) = (a2, b2)).
    unfold tuple_py_le. simpl.
    destruct (decide (a1 = a2)) as [->|N12]; intros L12.
    + rewrite decide_True by done. intros L21. f_equal. by apply (anti_symm py_le).
    + rewrite decide_False by done. intros L21.
      destruct N12. by apply (anti_symm py_le).
  - intros [a1 b1] [a2 b2].
    change (tuple_py_le (a1, b1) (a2, b2) ∨ tuple_py_le (a2, b2) (a1, b1)).
    unfold tuple_py_le. simpl.
    destruct (decide (a1 = a2)) as [->|N12].
    + rewrite decide_True by done. apply total, _.
    + rewrite decide_False by done. apply total, _.
Qed.

Section sorted.
Context `{Countable A, PyOrd A, !RelDecision (py_le (A:=A)), !PyTotalOrder A}.
Implicit Types s : gset A.

Lemma sorted_Permutation s : sorted s ≡ₚ elements s.
Proof. apply merge_sort_Permutation. Qed.

Lemma sorted_StronglySorted s : StronglySorted py_le (sorted s).
Proof. apply StronglySorted_merge_sort; apply _. Qed.

Lemma elem_of_sorted s x : x ∈ sorted s ↔ x ∈ s.
Proof. by rewrite sorted_Permutation, elem_of_elements. Qed.

Lemma sorted_NoDup s : NoDup (sorted s).
Proof. rewrite sorted_Permutation. apply NoDup_elements. Qed.

Lemma sorted_empty : sorted (∅ : gset A) = [].
Proof. unfold sorted. by rewrite elements_empty. Qed.

Lemma truthy_false s : truthy s = false ↔ s = ∅.
Proof.
  unfold truthy. rewrite bool_decide_eq_false. split; [|by intros ->; auto].
  intros Hn. destruct (decide (s = ∅)); [done | by destruct Hn].
Qed.

End sorted.

(** ** Running the scripts on snapshots *)

Lemma if_pair {A B} (b : bool) (x1 x2 : A) (y1 y2 : B) :
  (if b then (x1, y1) else (x2, y2)) = (if b then x1 else x2, if b then y1 else y2).
Proof. by destruct b. Qed.

Lemma for_each_emit {A} (l : list A) (f : A → Event) :
  for_each l (λ x, emit (f x)) = (f <$> l, Ok tt).
Proof.
  induction l as [|x l IH]; [done|].
  simpl. rewrite IH. reflexivity.
Qed.

Lemma report_section_run `{Countable A} (missing extra : gset A) (lm le lo : list Event) :
  report_section missing extra (lm, Ok tt) (le, Ok tt) (lo, Ok tt) =
  (if truthy missing || truthy extra
   then (if truthy missing then lm else []) ++ (if truthy extra then le else [])
   else lo,
   Ok (truthy missing || truthy extra)).
Proof.
  unfold report_section.
  destruct (truthy missing), (truthy extra); simpl; by rewrite ?app_nil_r.
Qed.

Lemma ident_section_run (c : ObjectCategory) (missing extra : gset Ident) (e : Event) :
  report_section missing extra (print_missing_idents c missing)
    (print_extra_idents c extra) ([e], Ok tt) =
  (section_log c (missing, extra) e, Ok (differs (missing, extra))).
Proof.
  unfold print_missing_idents, print_extra_idents.
  rewrite !for_each_emit. unfold emit. cbn [bind app].
  by rewrite report_section_run.
Qed.

Lemma filtered_get_tables_run (side : Side) (A : Snapshot) :
  Filtered.get_tables (side, database A) =
  ([Execute side SelectTables], Ok (Filtered.keep_rows Filtered.EXCLUDED_TABLES (tables A))).
Proof. reflexivity. Qed.
Lemma filtered_get_views_run (side : Side) (A : Snapshot) :
  Filtered.get_views (side, database A) = ([Execute side SelectViews], Ok (views A)).
Proof. reflexivity. Qed.
Lemma filtered_get_procedures_run (side : Side) (A : Snapshot) :
  Filtered.get_procedures (side, database A) =
  ([Execute side SelectProcedures], Ok (Filtered.keep_rows Filtered.EXCLUDED_PROCEDURES (procedures A))).
Proof. reflexivity. Qed.
Lemma filtered_get_functions_run (side : Side) (A : Snapshot) :
  Filtered.get_functions (side, database A) =
  ([Execute side SelectFunctions], Ok (Filtered.keep_rows Filtered.EXCLUDED_FUNCTIONS (functions A))).
Proof. reflexivity. Qed.

(** ** The row-count step *)

Lemma count_table_run (side : Side) (A : Snapshot) (counts : gmap Ident (option Z)) (k : Ident) :
  Filtered.count_table (side, database A) counts k =
  ([Execute side (SelectCount k.1 k.2)], Ok (<[k := row_count A k]> counts)).
Proof.
  destruct k as [schema table]. unfold Filtered.count_table, execute. simpl.
  destruct (row_count A (schema, table)); reflexivity.
Qed.

Lemma count_tables_run (side : Side) (A : Snapshot) (ts : list Ident)
  (counts : gmap Ident (option Z)) :
  Filtered.count_tables (side, database A) counts ts =
  (count_events side ts, Ok (counts_dict (row_count A) ts counts)).
Proof.
  revert counts. induction ts as [|k ts IH]; intros counts; [done|].
  cbn [Filtered.count_tables]. rewrite count_table_run. cbn [bind].
  rewrite IH. reflexivity.
Qed.

Lemma counts_dict_lookup (count : Ident → option Z) (ts : list Ident)
  (counts : gmap Ident (option Z)) (k : Ident) :
  counts_dict count ts counts !! k =
  if decide (k ∈ ts) then Some (count k) else counts !! k.
Proof.
  unfold counts_dict.
  revert counts. induction ts as [|k' ts IH]; intros counts; cbn [foldl].
  - rewrite decide_False; [done | apply not_elem_of_nil].
  - rewrite IH. destruct (decide (k ∈ ts)) as [Hin|Hin].
    + rewrite decide_True; [done | by right].
    + destruct (decide (k = k')) as [->|Hne].
      * rewrite decide_True by left. by rewrite lookup_insert_eq.
      * rewrite decide_False by (intros [?|?]%elem_of_cons; done).
        by rewrite lookup_insert_ne.
Qed.

Lemma dict_get_counts (count : Ident → option Z) (ts : list Ident) (k : Ident) :
  k ∈ ts → dict_get (counts_dict count ts ∅) k = count k.
Proof.
  intros Hin. unfold dict_get. rewrite counts_dict_lookup.
  by rewrite decide_True.
Qed.

Lemma collect_row_count_diffs_sub (A B : Snapshot) (l ts tt : list Ident) :
  l ⊆ ts → l ⊆ tt →
  Filtered.collect_row_count_diffs l (counts_dict (row_count A) ts ∅)
    (counts_dict (row_count B) tt ∅) = row_count_diffs A B l.
Proof.
  unfold Filtered.collect_row_count_diffs, row_count_diffs.
  induction l as [|k l IH]; intros Hs Ht; [done|].
  cbn [flat_map]. rewrite filter_cons.
  rewrite !dict_get_counts by (by apply Hs || apply Ht; left).
  rewrite IH by (intros x Hx; (apply Hs || apply Ht); by right).
  by destruct (decide (row_count A k ≠ row_count B k)).
Qed.

Lemma collect_row_count_diffs_spec (A B : Snapshot) (ts tt : list Ident) :
  ts ⊆ tt →
  Filtered.collect_row_count_diffs ts (counts_dict (row_count A) ts ∅)
    (counts_dict (row_count B) tt ∅) = row_count_diffs A B ts.
Proof. intros. by apply collect_row_count_diffs_sub. Qed.

Lemma py_sum_run (values : list (option Z)) (acc : Z) :
  py_sum values acc =
  ([], if decide (None ∈ values) then Raise TypeError
       else Ok (acc + sum_values values)%Z).
Proof.
  revert acc. induction values as [|[n|] values IH]; intros acc; cbn [py_sum].
  - rewrite decide_False by apply not_elem_of_nil.
    unfold ret, sum_values. simpl. by rewrite Z.add_0_r.
  - rewrite IH. destruct (decide (None ∈ values)) as [Hin|Hin].
    + rewrite decide_True; [done | by right].
    + rewrite decide_False by (intros [?|?]%elem_of_cons; done).
      unfold sum_values. simpl. by rewrite Z.add_assoc.
  - rewrite decide_True; [done | by left].
Qed.

Lemma null_count_in_dict (count : Ident → option Z) (ts : list Ident) :
  None ∈ (map_to_list (counts_dict count ts ∅)).*2 ↔
  Exists (λ k, count k = None) ts.
Proof.
  rewrite Exists_exists, list_elem_of_fmap. split.
  - intros ([k v] & Hv & Hin). simpl in Hv. subst v.
    apply elem_of_map_to_list in Hin. rewrite counts_dict_lookup in Hin.
    destruct (decide (k ∈ ts)) as [Hk|Hk]; [|by rewrite lookup_empty in Hin].
    exists k. split; [done | congruence].
  - intros (k & Hk & Hnone). exists (k, None). split; [done|].
    apply elem_of_map_to_list. rewrite counts_dict_lookup.
    rewrite decide_True by done. by rewrite Hnone.
Qed.

Lemma tables_match_sub (ts tt : list Ident) :
  truthy ((compare_lists ts tt "table").1) = false → ts ⊆ tt.
Proof.
  rewrite truthy_false. unfold compare_lists. simpl. intros Hm x Hx.
  destruct (decide (x ∈ tt)) as [|Hn]; [done|]. exfalso.
  assert (x ∈ (list_to_set ts ∖ list_to_set tt : gset Ident)) as Hin
    by (apply elem_of_difference; by rewrite !elem_of_list_to_set).
  rewrite Hm in Hin. by apply not_elem_of_empty in Hin.
Qed.

Lemma for_each_diff_lines (diffs : list (Ident * option Z * option Z)) :
  for_each diffs (λ '(key, source_count, target_count),
    emit (RowCountDiffLine key source_count target_count)) =
  (diff_line <$> diffs, Ok tt).
Proof.
  induction diffs as [|[[key sc] tc] diffs IH]; [done|].
  cbn [for_each]. rewrite IH. reflexivity.
Qed.

Lemma compare_row_counts_run (A B : Snapshot) (ts tt : list Ident) :
  let d := compare_lists ts tt "table" in
  Filtered.compare_row_counts (Source, database A) (Target, database B)
    ts tt d.1 d.2 =
  if differs d then ([RowCountSkipLine], Ok false)
  else row_counts_run A B ts tt.
Proof.
  intros d. unfold Filtered.compare_row_counts, differs.
  destruct (truthy d.1) eqn:Hm; [done|].
  destruct (truthy d.2) eqn:He; [done|]. cbn [negb andb orb].
  unfold Filtered.get_table_row_counts.
  rewrite !count_tables_run. cbn [bind].
  rewrite collect_row_count_diffs_spec by (by apply tables_match_sub).
  unfold row_counts_run.
  destruct (row_count_diffs A B ts) as [|x diffs] eqn:Hd.
  - rewrite py_sum_run.
    destruct (decide (Exists _ ts)) as [Hn|Hn].
    + rewrite decide_True by (by apply null_count_in_dict).
      cbn [bind]. rewrite ?app_nil_r, <- ?app_assoc. reflexivity.
    + rewrite decide_False by (by rewrite null_count_in_dict).
      unfold emit, ret. cbn [bind].
      rewrite Z.add_0_l, <- ?app_assoc. reflexivity.
  - rewrite for_each_diff_lines. unfold emit, ret. cbn [bind].
    rewrite ?app_nil_r, <- ?app_assoc. reflexivity.
Qed.

Lemma print_match_or_none_run (c : ObjectCategory) (n : nat) :
  Filtered.print_match_or_none c n = ([match_or_none c n], Ok tt).
Proof. unfold Filtered.print_match_or_none, match_or_none. by destruct (decide _). Qed.

Lemma filtered_run (A B : Snapshot) :
  Filtered.compare_databases (Some (database A)) (Some (database B)) =
  match filtered_row_counts A B with
  | (lc, Ok d_counts) =>
      (filtered_head A B ++ lc ++ filtered_tail A B ++
         [filtered_summary A B (filtered_found A B d_counts)],
       Ok (negb (filtered_found A B d_counts)))
  | (lc, Raise e) => (filtered_head A B ++ lc, Raise e)
  end.
Proof.
  unfold Filtered.compare_databases.
  rewrite !filtered_get_tables_run, !filtered_get_views_run,
    !filtered_get_procedures_run, !filtered_get_functions_run.
  cbn [bind].
  pose proof (compare_row_counts_run A B (filtered_tables A) (filtered_tables B)) as Hrc.
  cbn zeta in Hrc. fold (filtered_table_diff A B) in Hrc.
  fold (filtered_row_counts A B) in Hrc.
  unfold filtered_head, filtered_tail, filtered_found, filtered_summary.
  fold (filtered_tables A) (filtered_tables B) (filtered_procedures A)
    (filtered_procedures B) (filtered_functions A) (filtered_functions B).
  fold (filtered_table_diff A B) (view_diff A B) (filtered_procedure_diff A B)
    (filtered_function_diff A B).
  destruct (filtered_table_diff A B) as [mt et] eqn:Ht.
  destruct (view_diff A B) as [mv ev] eqn:Hv.
  destruct (filtered_procedure_diff A B) as [mp ep] eqn:Hp.
  destruct (filtered_function_diff A B) as [mf ef] eqn:Hf.
  cbn [fst snd] in *.
  unfold emit. rewrite ident_section_run. cbn [bind].
  rewrite Hrc. destruct (filtered_row_counts A B) as [lc [d_counts|e]].
  - cbn [bind]. rewrite ident_section_run. cbn [bind].
    rewrite !print_match_or_none_run.
    rewrite ident_section_run. cbn [bind].
    rewrite ident_section_run. cbn [bind].
    unfold ret. cbn [bind]. rewrite if_pair. cbn iota beta.
    destruct (_ || _ || _ || _ || _); cbn [negb];
      (f_equal; rewrite <- ?app_assoc; reflexivity).
  - reflexivity.
Qed.

(** ** The unfiltered run *)

Lemma for_each_ok {A} (l : list A) (body : A → M unit) :
  (∀ x, (body x).2 = Ok tt) →
  for_each l body = (mjoin ((λ x, (body x).1) <$> l), Ok tt).
Proof.
  intros Hok. induction l as [|x l IH]; [done|].
  cbn [for_each]. rewrite IH, fmap_cons. specialize (Hok x).
  change (mjoin ((body x).1 :: ((λ x, (body x).1) <$> l)))
    with ((body x).1 ++ mjoin ((λ x, (body x).1) <$> l)).
  destruct (body x) as [lx rx]. simpl in Hok. subst rx. reflexivity.
Qed.

Lemma print_missing_index_ok (source_indexes : list IndexRow) (k : IndexKey) :
  (Unfiltered.print_missing_index source_indexes k).2 = Ok tt.
Proof.
  unfold Unfiltered.print_missing_index.
  destruct (filter _ source_indexes) as [|[[[[[? ?] ?] ?] ?] ?] ?]; reflexivity.
Qed.

Lemma print_missing_constraints_run (missing : gset ConstraintKey) :
  Unfiltered.print_missing_constraints missing =
  (MissingHeader Constraints (size missing) ::
   mjoin (group_events <$> constraint_groups missing), Ok tt).
Proof.
  unfold Unfiltered.print_missing_constraints. fold (constraint_groups missing).
  rewrite for_each_ok.
  - unfold emit. cbn [bind app]. do 3 f_equal.
    apply list_fmap_ext. intros _ [ct items] _.
    fold (emit (ConstraintKindLine ct)).
    change (λ k, ([MissingConstraintLine ct (index_key k)], Ok tt))
      with (λ k, emit (MissingConstraintLine ct (index_key k))).
    rewrite for_each_emit. reflexivity.
  - intros [ct items]. cbn beta iota. by rewrite for_each_emit.
Qed.

Lemma for_each_emit_pair {A} (l : list A) (f : A → Event) :
  for_each l (λ x, ([f x], Ok tt)) = (f <$> l, Ok tt).
Proof. apply for_each_emit. Qed.

Lemma unfiltered_get_run (side : Side) (A : Snapshot) :
  Unfiltered.get_tables (side, database A) = ([Execute side SelectTables], Ok (tables A)) ∧
  Unfiltered.get_views (side, database A) = ([Execute side SelectViews], Ok (views A)) ∧
  Unfiltered.get_procedures (side, database A) =
    ([Execute side SelectProcedures], Ok (procedures A)) ∧
  Unfiltered.get_functions (side, database A) =
    ([Execute side SelectFunctions], Ok (functions A)) ∧
  Unfiltered.get_indexes (side, database A) = ([Execute side SelectIndexes], Ok (indexes A)) ∧
  Unfiltered.get_constraints (side, database A) =
    ([Execute side SelectConstraints], Ok (constraints A)).
Proof. repeat split. Qed.

Lemma unfiltered_run (A B : Snapshot) :
  Unfiltered.compare_databases (Some (database A)) (Some (database B)) =
  (unfiltered_log A B, Ok (negb (unfiltered_found A B))).
Proof.
  unfold Unfiltered.compare_databases.
  destruct (unfiltered_get_run Source A) as (-> & -> & -> & -> & -> & ->).
  destruct (unfiltered_get_run Target B) as (-> & -> & -> & -> & -> & ->).
  cbn [bind].
  unfold unfiltered_log, unfiltered_summary, unfiltered_found,
    index_section_log, constraint_section_log.
  fold (table_diff A B) (view_diff A B) (procedure_diff A B) (function_diff A B).
  change (list_to_set (Unfiltered.idx_key <$> indexes A)
          ∖ list_to_set (Unfiltered.idx_key <$> indexes B)) with (index_diff A B).1.
  change (list_to_set (Unfiltered.idx_key <$> indexes B)
          ∖ list_to_set (Unfiltered.idx_key <$> indexes A)) with (index_diff A B).2.
  change (list_to_set (constraints A) ∖ list_to_set (constraints B))
    with (constraint_diff A B).1.
  change (list_to_set (constraints B) ∖ list_to_set (constraints A))
    with (constraint_diff A B).2.
  destruct (table_diff A B) as [mt et].
  destruct (view_diff A B) as [mv ev].
  destruct (procedure_diff A B) as [mp ep].
  destruct (function_diff A B) as [mf ef].
  destruct (index_diff A B) as [mi ei].
  destruct (constraint_diff A B) as [mc ec].
  cbn [fst snd]. unfold emit, ret. cbn [bind].
  do 4 (rewrite ident_section_run; cbn [bind]).
  rewrite (for_each_ok _ _ (print_missing_index_ok _)), for_each_emit_pair.
  cbn [bind app]. rewrite report_section_run. cbn [bind].
  rewrite print_missing_constraints_run, for_each_emit_pair.
  cbn [bind app]. rewrite report_section_run. cbn [bind].
  rewrite if_pair. cbn iota beta.
  unfold differs, missing_index_events. cbn [fst snd].
  destruct (_ || _ || _ || _ || _ || _); reflexivity.
Qed.

(** ** Projections of a log *)

Lemma omap_fmap_None {A B C} (f : B → option C) (g : A → B) (l : list A) :
  (∀ x, f (g x) = None) → omap f (g <$> l) = [].
Proof.
  intros Hf. induction l as [|x l IH]; [done|].
  cbn [fmap list_fmap omap list_omap]. by rewrite Hf.
Qed.

Lemma omap_fmap_Some {A B C} (f : B → option C) (g : A → B) (h : A → C) (l : list A) :
  (∀ x, f (g x) = Some (h x)) → omap f (g <$> l) = h <$> l.
Proof.
  intros Hf. induction l as [|x l IH]; [done|].
  cbn [fmap list_fmap omap list_omap]. rewrite Hf. by f_equal.
Qed.

Lemma findings_section_log (c : ObjectCategory) (d : gset Ident * gset Ident)
  (e : Event) :
  finding_of e = None →
  findings (section_log c d e) =
  ((λ k, MissingObject c (ident_key k)) <$> sorted d.1) ++
  ((λ k, ExtraObject c (ident_key k)) <$> sorted d.2).
Proof.
  intros He. unfold section_log, differs, findings.
  destruct (truthy d.1) eqn:H1, (truthy d.2) eqn:H2; cbn [orb];
    rewrite ?omap_app; cbn [omap list_omap finding_of];
    rewrite ?He;
    try (apply truthy_false in H1; rewrite H1, sorted_empty);
    try (apply truthy_false in H2; rewrite H2, sorted_empty);
    cbn [fmap list_fmap app];
    rewrite ?(omap_fmap_Some finding_of _ (λ k, MissingObject c (ident_key k))) by done;
    rewrite ?(omap_fmap_Some finding_of _ (λ k, ExtraObject c (ident_key k))) by done;
    rewrite ?app_nil_r; done.
Qed.

Section projections.
Context {C : Type} (f : Event → option C).
Hypothesis row_counts_only : ∀ e, row_count_event e = false → f e = None.

Lemma omap_no_row_count_event (l : list Event) :
  Forall (λ e, row_count_event e = false) l → omap f l = [].
Proof.
  induction 1 as [|e l He _ IH]; [done|].
  cbn [omap list_omap]. by rewrite (row_counts_only e He).
Qed.

Lemma section_log_no_row_count_event (c : ObjectCategory)
  (d : gset Ident * gset Ident) (e : Event) :
  row_count_event e = false →
  Forall (λ e, row_count_event e = false) (section_log c d e).
Proof.
  intros He. unfold section_log.
  destruct (differs d); [|by repeat constructor].
  apply Forall_app. split.
  - destruct (truthy d.1); [|constructor].
    constructor; [done|]. by apply Forall_fmap, Forall_true.
  - destruct (truthy d.2); [|constructor].
    constructor; [done|]. by apply Forall_fmap, Forall_true.
Qed.

Lemma match_or_none_no_row_count_event (c : ObjectCategory) (n : nat) :
  row_count_event (match_or_none c n) = false.
Proof. unfold match_or_none. by destruct (decide _). Qed.

Lemma filtered_head_projection (A B : Snapshot) : omap f (filtered_head A B) = [].
Proof.
  apply omap_no_row_count_event. unfold filtered_head.
  repeat first
    [ apply Forall_app_2 | apply List.Forall_cons | apply List.Forall_nil
    | apply section_log_no_row_count_event
    | apply match_or_none_no_row_count_event | reflexivity ].
Qed.

Lemma filtered_tail_projection (A B : Snapshot) (found : bool) :
  omap f (filtered_tail A B ++ [filtered_summary A B found]) = [].
Proof.
  apply omap_no_row_count_event. unfold filtered_tail, filtered_summary.
  repeat first
    [ apply Forall_app_2 | apply List.Forall_cons | apply List.Forall_nil
    | apply section_log_no_row_count_event
    | apply match_or_none_no_row_count_event | reflexivity ].
  by destruct found.
Qed.

(** Only the row-count step matters to such a projection of a filtered
    run. *)
Lemma filtered_run_projection (A B : Snapshot) :
  omap f (Filtered.compare_databases (Some (database A)) (Some (database B))).1 =
  omap f (filtered_row_counts A B).1.
Proof.
  rewrite filtered_run.
  destruct (filtered_row_counts A B) as [lc [d_counts|e]]; cbn [fst].
  - rewrite !omap_app, filtered_head_projection.
    rewrite <- omap_app, filtered_tail_projection. by rewrite app_nil_r.
  - by rewrite omap_app, filtered_head_projection.
Qed.

Lemma unfiltered_run_projection (A B : Snapshot) :
  omap f (Unfiltered.compare_databases (Some (database A)) (Some (database B))).1 = [].
Proof.
  rewrite unfiltered_run. cbn [fst].
  apply omap_no_row_count_event. unfold unfiltered_log.
  repeat first
    [ apply Forall_app_2 | apply List.Forall_cons | apply List.Forall_nil
    | apply section_log_no_row_count_event | reflexivity ].
  - unfold index_section_log. destruct (differs _); [|by repeat constructor].
    apply Forall_app. split.
    + destruct (truthy _); [|constructor]. constructor; [done|].
      apply Forall_forall. intros e (l & Hl & He)%list_elem_of_join.
      apply list_elem_of_fmap in He as (k & -> & _).
      unfold missing_index_events, Unfiltered.print_missing_index in Hl.
      destruct (filter _ _) as [|[[[[[? ?] ?] ?] ?] ?] ?]; simpl in Hl.
      * by apply elem_of_nil in Hl.
      * by apply list_elem_of_singleton in Hl as ->.
    + destruct (truthy _); [|constructor].
      constructor; [done|]. by apply Forall_fmap, Forall_true.
  - unfold constraint_section_log. destruct (differs _); [|by repeat constructor].
    apply Forall_app. split.
    + destruct (truthy _); [|constructor]. constructor; [done|].
      apply Forall_forall. intros e (l & Hl & He)%list_elem_of_join.
      apply list_elem_of_fmap in He as (g & -> & _).
      unfold group_events in Hl. apply elem_of_cons in Hl as [->|Hl]; [done|].
      by apply list_elem_of_fmap in Hl as (k & -> & _).
    + destruct (truthy _); [|constructor].
      constructor; [done|]. by apply Forall_fmap, Forall_true.
  - unfold unfiltered_summary. by destruct (unfiltered_found A B).
Qed.
End projections.

(** ** Row-count reconciliation (C1, C2, C5) *)

Lemma count_queries_count_events (side : Side) (ts : list Ident) :
  count_queries (count_events side ts) = on_side side ts.
Proof.
  unfold count_queries, count_events, on_side.
  apply omap_fmap_Some. by intros [schema table].
Qed.

Lemma omap_count_events {C} (f : Event → option C) (side : Side) (ts : list Ident) :
  (∀ s q, f (Execute s q) = None) → omap f (count_events side ts) = [].
Proof. intros Hf. by apply omap_fmap_None. Qed.

Lemma row_count_mismatches_diff_lines (diffs : list (Ident * option Z * option Z)) :
  row_count_mismatches (diff_line <$> diffs) = diffs.
Proof.
  unfold row_count_mismatches.
  rewrite (omap_fmap_Some mismatch_of diff_line id) by (by intros [[k sc] tc]).
  apply list_fmap_id.
Qed.

Lemma count_queries_row_counts_run (A B : Snapshot) (ts tt : list Ident) :
  count_queries (row_counts_run A B ts tt).1 = on_side Source ts ++ on_side Target tt.
Proof.
  unfold row_counts_run, count_queries.
  destruct (row_count_diffs A B ts) as [|d diffs];
    [destruct (decide _)|]; cbn [fst]; rewrite !omap_app;
    fold (count_queries (count_events Source ts));
    fold (count_queries (count_events Target tt));
    rewrite !count_queries_count_events; cbn [omap list_omap count_query_of].
  - by rewrite ?app_nil_r.
  - by rewrite ?app_nil_r.
  - rewrite (omap_fmap_None count_query_of diff_line) by done.
    by rewrite ?app_nil_r.
Qed.

Lemma row_count_mismatches_row_counts_run (A B : Snapshot) (ts tt : list Ident) :
  row_count_mismatches (row_counts_run A B ts tt).1 = row_count_diffs A B ts.
Proof.
  unfold row_counts_run.
  destruct (row_count_diffs A B ts) as [|d diffs] eqn:Hd;
    [destruct (decide _)|]; cbn [fst]; unfold row_count_mismatches;
    rewrite !omap_app, !omap_count_events by done; cbn [omap list_omap mismatch_of app];
    try done.
  fold (row_count_mismatches (diff_line <$> diffs)).
  rewrite row_count_mismatches_diff_lines. by destruct d as [[k sc] tc].
Qed.

Lemma skipped_row_counts_run (A B : Snapshot) (ts tt : list Ident) :
  omap skip_of (row_counts_run A B ts tt).1 = [].
Proof.
  unfold row_counts_run.
  destruct (row_count_diffs A B ts) as [|d diffs] eqn:Hd;
    [destruct (decide _)|]; cbn [fst];
    rewrite !omap_app, !omap_count_events by done; cbn [omap list_omap skip_of app];
    try done.
  by rewrite (omap_fmap_None skip_of diff_line).
Qed.

Lemma differs_false `{Countable K} (d : gset K * gset K) :
  differs d = false ↔ d.1 = ∅ ∧ d.2 = ∅.
Proof.
  unfold differs. rewrite orb_false_iff. by rewrite !truthy_false.
Qed.

(** C1. Row counts are reconciled exactly when the table category shows no
    difference: when the filtered table sets agree, the run queries the count
    of every table on both sides, records the tables whose counts differ and
    does not report a skip; when some table is missing or extra, it issues no
    count query, records no row-count mismatch, and reports the skip. *)
Theorem row_counts_iff_tables_match (A B : Snapshot) :
  let run := Filtered.compare_databases (Some (database A)) (Some (database B)) in
  let d := filtered_table_diff A B in
  if decide (d.1 = ∅ ∧ d.2 = ∅) then
    count_queries run.1 =
      on_side Source (filtered_tables A) ++ on_side Target (filtered_tables B) ∧
    row_count_mismatches run.1 = row_count_diffs A B (filtered_tables A) ∧
    row_counts_skipped run.1 = false
  else
    count_queries run.1 = [] ∧
    row_count_mismatches run.1 = [] ∧
    row_counts_skipped run.1 = true.
Proof.
  intros run d. unfold row_counts_skipped, count_queries, row_count_mismatches.
  subst run. rewrite !filtered_run_projection by (by intros [? []| | | | | | | | | | | | | | | |]).
  unfold filtered_row_counts. fold d.
  destruct (decide (d.1 = ∅ ∧ d.2 = ∅)) as [Hd|Hd].
  - apply differs_false in Hd. rewrite Hd.
    fold (count_queries (row_counts_run A B (filtered_tables A) (filtered_tables B)).1).
    fold (row_count_mismatches
            (row_counts_run A B (filtered_tables A) (filtered_tables B)).1).
    rewrite count_queries_row_counts_run, skipped_row_counts_run,
      row_count_mismatches_row_counts_run.
    split_and!; [done..|]. by apply bool_decide_eq_false; intros [].
  - rewrite <- differs_false in Hd. apply not_false_is_true in Hd. rewrite Hd.
    by cbn.
Qed.

Lemma filtered_row_count_mismatches (A B : Snapshot) :
  differs (filtered_table_diff A B) = false →
  row_count_mismatches
    (Filtered.compare_databases (Some (database A)) (Some (database B))).1 =
  row_count_diffs A B (filtered_tables A).
Proof.
  intros Hd. unfold row_count_mismatches.
  rewrite filtered_run_projection by (by intros [? []| | | | | | | | | | | | | | | |]).
  unfold filtered_row_counts. rewrite Hd.
  apply row_count_mismatches_row_counts_run.
Qed.

(** C5. When the row counts are reconciled, the recorded mismatches are the
    source's tables whose two counts are unequal, in the order of the source's
    table list, each carrying both counts; a count that is null on one side
    and a number on the other is such an inequality. *)
Theorem row_count_mismatches_in_source_order (A B : Snapshot) :
  differs (filtered_table_diff A B) = false →
  let run := Filtered.compare_databases (Some (database A)) (Some (database B)) in
  row_count_mismatches run.1 =
    ((λ k, (k, row_count A k, row_count B k)) <$>
     filter (λ k, row_count A k ≠ row_count B k) (filtered_tables A)) ∧
  Forall (λ k,
    match row_count A k, row_count B k with
    | None, Some n => (k, None, Some n) ∈ row_count_mismatches run.1
    | Some n, None => (k, Some n, None) ∈ row_count_mismatches run.1
    | _, _ => True
    end) (filtered_tables A).
Proof.
  intros Hd run. subst run. rewrite filtered_row_count_mismatches by done.
  split; [done|]. apply Forall_forall. intros k Hk.
  unfold row_count_diffs.
  destruct (row_count A k) as [n|] eqn:HA, (row_count B k) as [m|] eqn:HB; try done.
  - apply list_elem_of_fmap. exists k. rewrite HA, HB. split; [done|].
    apply list_elem_of_filter. split; [|done]. by rewrite HA, HB.
  - apply list_elem_of_fmap. exists k. rewrite HA, HB. split; [done|].
    apply list_elem_of_filter. split; [|done]. by rewrite HA, HB.
Qed.

Lemma row_count_mismatches_in_source_order_witness :
  differs (filtered_table_diff scenario_E_source scenario_E_target) = false ∧
  row_count_mismatches
    (Filtered.compare_databases (Some (database scenario_E_source))
       (Some (database scenario_E_target))).1 = [(users, None, Some 0%Z)].
Proof.
  split; [reflexivity|].
  apply (row_count_mismatches_in_source_order scenario_E_source scenario_E_target).
  reflexivity.
Defined.

Lemma elem_of_row_count_diffs (A B : Snapshot) (ts : list Ident) (k : Ident) :
  (k, row_count A k, row_count B k) ∈ row_count_diffs A B ts ↔
  k ∈ ts ∧ row_count A k ≠ row_count B k.
Proof.
  unfold row_count_diffs. rewrite list_elem_of_fmap. split.
  - intros (k' & Heq & Hin). injection Heq as -> _ _.
    apply list_elem_of_filter in Hin. tauto.
  - intros [Hin Hne]. exists k. split; [done|]. by apply list_elem_of_filter.
Qed.

(** C2, as it fails: in the unfiltered mode the table sets of scenario C
    agree and the counts of [dbo.Users] differ, yet no count is queried, no
    mismatch is recorded and the verdict is Pass. *)
Lemma unfiltered_reconciles_row_counts_counterexample :
  differs (table_diff scenario_C_source scenario_C_target) = false ∧
  row_count scenario_C_source users ≠ row_count scenario_C_target users ∧
  let run := Unfiltered.compare_databases (Some (database scenario_C_source))
               (Some (database scenario_C_target)) in
  count_queries run.1 = [] ∧ row_count_mismatches run.1 = [] ∧
  verdict run = Some Pass.
Proof.
  split; [reflexivity|]. split; [by intros [=]|].
  cbv zeta. split_and!; reflexivity.
Qed.

(** C2, amended. In the filtered mode, whenever the filtered table sets
    agree, the run queries the count of every table on both sides and records
    a mismatch for exactly the tables whose counts differ: the recorded
    mismatches are those tables of the source's list, in its order, each with
    its two counts, and nothing else.  The unfiltered mode never reconciles
    row counts, whatever the table sets: it queries no count and records no
    mismatch. *)
Theorem row_counts_reconciled_in_filtered_mode_only (A B : Snapshot) :
  (differs (filtered_table_diff A B) = false →
   let run := Filtered.compare_databases (Some (database A)) (Some (database B)) in
   count_queries run.1 =
     on_side Source (filtered_tables A) ++ on_side Target (filtered_tables B) ∧
   row_count_mismatches run.1 =
     ((λ k, (k, row_count A k, row_count B k)) <$>
      filter (λ k, row_count A k ≠ row_count B k) (filtered_tables A)) ∧
   (∀ k sc tc, (k, sc, tc) ∈ row_count_mismatches run.1 ↔
      k ∈ filtered_tables A ∧ sc = row_count A k ∧ tc = row_count B k ∧ sc ≠ tc)) ∧
  (let run := Unfiltered.compare_databases (Some (database A)) (Some (database B)) in
   count_queries run.1 = [] ∧ row_count_mismatches run.1 = []).
Proof.
  split.
  - intros Hd run. subst run. rewrite filtered_row_count_mismatches by done.
    split_and!.
    + unfold count_queries.
      rewrite filtered_run_projection by (by intros [? []| | | | | | | | | | | | | | | |]).
      unfold filtered_row_counts. rewrite Hd.
      apply count_queries_row_counts_run.
    + reflexivity.
    + intros k sc tc. unfold row_count_diffs. rewrite list_elem_of_fmap. split.
      * intros (k' & [= -> -> ->] & [Hne Hin]%list_elem_of_filter). done.
      * intros (Hin & -> & -> & Hne). exists k. split; [done|].
        by apply list_elem_of_filter.
  - intros run. subst run. unfold count_queries, row_count_mismatches.
    by rewrite !unfiltered_run_projection
      by (by intros [? []| | | | | | | | | | | | | | | |]).
Qed.

Lemma row_counts_reconciled_in_filtered_mode_only_witness :
  differs (filtered_table_diff scenario_C_source scenario_C_target) = false ∧
  count_queries
    (Filtered.compare_databases (Some (database scenario_C_source))
       (Some (database scenario_C_target))).1 = [(Source, users); (Target, users)] ∧
  row_count_mismatches
    (Filtered.compare_databases (Some (database scenario_C_source))
       (Some (database scenario_C_target))).1 =
    [(users, Some 100%Z, Some 99%Z)].
Proof.
  split; [reflexivity|].
  destruct (row_counts_reconciled_in_filtered_mode_only scenario_C_source
              scenario_C_target) as [Hfiltered _].
  destruct (Hfiltered eq_refl) as (Hqueries & Hmismatches & _).
  split; [exact Hqueries | exact Hmismatches].
Defined.

(** ** Reading the row counts (C8) *)

Lemma count_table_catalog (side : Side) (db : Catalog)
  (counts : gmap Ident (option Z)) (k : Ident) :
  Filtered.count_table (side, db) counts k =
  ([Execute side (SelectCount k.1 k.2)], Ok (<[k := counted db k]> counts)).
Proof.
  destruct k as [schema table]. unfold Filtered.count_table, execute, counted.
  cbn [fst snd]. destruct (count_rows db schema table); reflexivity.
Qed.

Lemma count_tables_catalog (side : Side) (db : Catalog) (ts : list Ident)
  (counts : gmap Ident (option Z)) :
  Filtered.count_tables (side, db) counts ts =
  (count_events side ts, Ok (counts_dict (counted db) ts counts)).
Proof.
  revert counts. induction ts as [|k ts IH]; intros counts; [done|].
  cbn [Filtered.count_tables]. rewrite count_table_catalog. cbn [bind].
  rewrite IH. reflexivity.
Qed.

Lemma counts_dict_dom (count : Ident → option Z) (ts : list Ident) :
  dom (counts_dict count ts ∅) = list_to_set ts.
Proof.
  apply set_eq. intros k. rewrite elem_of_dom, counts_dict_lookup.
  rewrite elem_of_list_to_set. destruct (decide (k ∈ ts)) as [Hk|Hk].
  - split; [done | by eexists].
  - rewrite lookup_empty. split; [by intros [? [=]] | done].
Qed.

(** C8. Reading the row counts never aborts: whatever count queries fail,
    the read issues the count query of every table in turn and returns a
    dictionary that holds, for each table, the count its own query gave, or
    null when that query failed; it has no other entry. *)
Theorem row_count_failure_degrades_one_entry (cursor : Cursor) (ts : list Ident) :
  ∃ counts : gmap Ident (option Z),
    Filtered.get_table_row_counts cursor ts =
      (count_events cursor.1 ts, Ok counts) ∧
    Forall (λ k, counts !! k = Some (counted cursor.2 k)) ts ∧
    dom counts = list_to_set ts.
Proof.
  destruct cursor as [side db]. unfold Filtered.get_table_row_counts.
  rewrite count_tables_catalog. eexists. split; [reflexivity|]. split.
  - apply Forall_forall. intros k Hk. rewrite counts_dict_lookup.
    by rewrite decide_True.
  - apply counts_dict_dom.
Qed.

(** One failing count query among two: the other entry keeps its count. *)
Example one_count_query_fails :
  Filtered.get_table_row_counts (Source, database partly_counted) [users; audit] =
  ([Execute Source (SelectCount "dbo" "Users");
    Execute Source (SelectCount "dbo" "Audit")],
   Ok (<[audit := None]> (<[users := Some 100%Z]> ∅))).
Proof. reflexivity. Qed.

(** ** The findings of the filtered run *)

Lemma findings_app (l1 l2 : list Event) :
  findings (l1 ++ l2) = findings l1 ++ findings l2.
Proof. apply omap_app. Qed.

Lemma findings_section (c : ObjectCategory) (d : gset Ident * gset Ident) (e : Event) :
  finding_of e = None → findings (section_log c d e) = section_findings c d.
Proof. apply findings_section_log. Qed.

Lemma finding_of_match_or_none (c : ObjectCategory) (n : nat) :
  finding_of (match_or_none c n) = None.
Proof. unfold match_or_none. by destruct (decide _). Qed.

Lemma findings_row_counts_run (A B : Snapshot) (ts tt : list Ident) :
  findings (row_counts_run A B ts tt).1 = mismatch_finding <$> row_count_diffs A B ts.
Proof.
  unfold row_counts_run, findings.
  destruct (row_count_diffs A B ts) as [|d diffs] eqn:Hd;
    [destruct (decide _)|]; cbn [fst];
    rewrite !omap_app, !omap_count_events by done;
    cbn [omap list_omap finding_of app fmap list_fmap]; try done.
  rewrite (omap_fmap_Some finding_of diff_line mismatch_finding)
    by (by intros [[k sc] tc]).
  by destruct d as [[k sc] tc].
Qed.

Lemma findings_filtered_row_counts (A B : Snapshot) :
  findings (filtered_row_counts A B).1 =
  mismatch_finding <$>
    (if differs (filtered_table_diff A B) then []
     else row_count_diffs A B (filtered_tables A)).
Proof.
  unfold filtered_row_counts. destruct (differs _); [done|].
  apply findings_row_counts_run.
Qed.

Lemma filtered_findings (A B : Snapshot) :
  let run := Filtered.compare_databases (Some (database A)) (Some (database B)) in
  findings run.1 =
  section_findings Tables (filtered_table_diff A B) ++
  (mismatch_finding <$>
    (if differs (filtered_table_diff A B) then []
     else row_count_diffs A B (filtered_tables A))) ++
  match run.2 with
  | Ok _ =>
      section_findings Views (view_diff A B) ++
      section_findings Procedures (filtered_procedure_diff A B) ++
      section_findings Functions (filtered_function_diff A B)
  | Raise _ => []
  end.
Proof.
  intros run. subst run. rewrite filtered_run.
  pose proof (findings_filtered_row_counts A B) as Hrc.
  destruct (filtered_row_counts A B) as [lc [d_counts|e]]; cbn [fst snd] in *.
  - unfold filtered_head, filtered_tail.
    rewrite !findings_app, !findings_section, Hrc
      by (done || apply finding_of_match_or_none).
    cbn [findings omap list_omap finding_of app].
    assert (finding_of (filtered_summary A B (filtered_found A B d_counts)) = None)
      as -> by (unfold filtered_summary; by destruct (filtered_found _ _ _)).
    by rewrite !app_nil_r.
  - unfold filtered_head.
    rewrite !findings_app, !findings_section, Hrc by done.
    cbn [findings omap list_omap finding_of app]. by rewrite app_nil_r.
Qed.

Lemma elem_of_keep_rows (excluded : gset string) (rows : list Ident)
  (schema name : string) :
  (schema, name) ∈ Filtered.keep_rows excluded rows ↔
  (schema, name) ∈ rows ∧ name ∉ excluded.
Proof. unfold Filtered.keep_rows. rewrite list_elem_of_filter. simpl. tauto. Qed.

Lemma elem_of_filtered_rows (c : ObjectCategory) (s : Snapshot) (schema name : string) :
  (schema, name) ∈ filtered_rows c s ↔
  (schema, name) ∈ listed c s ∧ name ∉ excluded_names c.
Proof.
  destruct c; cbn [filtered_rows listed excluded_names];
    try apply elem_of_keep_rows;
    rewrite ?elem_of_nil, ?elem_of_empty; tauto.
Qed.

Lemma filtered_diff_compare_lists (c : ObjectCategory) (A B : Snapshot) :
  filtered_diff c A B = compare_lists (filtered_rows c A) (filtered_rows c B) "".
Proof.
  destruct c; try reflexivity;
    unfold compare_lists; cbn [filtered_diff filtered_rows list_to_set];
    by rewrite difference_diag_L.
Qed.

Lemma elem_of_filtered_diff (c : ObjectCategory) (A B : Snapshot) (k : Ident) :
  (k ∈ (filtered_diff c A B).1 ↔ k ∈ filtered_rows c A ∧ k ∉ filtered_rows c B) ∧
  (k ∈ (filtered_diff c A B).2 ↔ k ∈ filtered_rows c B ∧ k ∉ filtered_rows c A).
Proof.
  rewrite filtered_diff_compare_lists. unfold compare_lists. cbn [fst snd].
  rewrite !elem_of_difference, !elem_of_list_to_set. tauto.
Qed.

Lemma elem_of_section_findings (c c' : ObjectCategory) (d : gset Ident * gset Ident)
  (schema name : string) :
  (MissingObject c [schema; name] ∈ section_findings c' d ↔
     c = c' ∧ (schema, name) ∈ d.1) ∧
  (ExtraObject c [schema; name] ∈ section_findings c' d ↔
     c = c' ∧ (schema, name) ∈ d.2).
Proof.
  unfold section_findings. rewrite !elem_of_app, !list_elem_of_fmap. split; split.
  - intros [([s n] & [= -> -> ->] & Hk) | (k & [=] & _)].
    by apply elem_of_sorted in Hk.
  - intros [-> Hk]. left. exists (schema, name). by rewrite elem_of_sorted.
  - intros [(k & [=] & _) | ([s n] & [= -> -> ->] & Hk)].
    by apply elem_of_sorted in Hk.
  - intros [-> Hk]. right. exists (schema, name). by rewrite elem_of_sorted.
Qed.

Lemma reported_in_filtered_diff (A B : Snapshot) (c : ObjectCategory)
  (schema name : string) :
  let run := Filtered.compare_databases (Some (database A)) (Some (database B)) in
  (MissingObject c [schema; name] ∈ findings run.1 →
     (schema, name) ∈ (filtered_diff c A B).1) ∧
  (ExtraObject c [schema; name] ∈ findings run.1 →
     (schema, name) ∈ (filtered_diff c A B).2).
Proof.
  intros run. subst run. rewrite filtered_findings.
  assert (Hm : ∀ f (l : list (Ident * option Z * option Z)),
                 f ∈ mismatch_finding <$> l →
                 ∃ k sc tc, f = RowCountMismatch k sc tc).
  { intros f l ([[k sc] tc] & -> & _)%list_elem_of_fmap. by eexists _, _, _. }
  split; rewrite !elem_of_app.
  - intros [H | [H | H]].
    + by apply elem_of_section_findings in H as [-> H].
    + by apply Hm in H as (? & ? & ? & [=]).
    + destruct (_.2); [|by apply elem_of_nil in H].
      rewrite !elem_of_app in H.
      destruct H as [H | [H | H]];
        by apply elem_of_section_findings in H as [-> H].
  - intros [H | [H | H]].
    + by apply elem_of_section_findings in H as [-> H].
    + by apply Hm in H as (? & ? & ? & [=]).
    + destruct (_.2); [|by apply elem_of_nil in H].
      rewrite !elem_of_app in H.
      destruct H as [H | [H | H]];
        by apply elem_of_section_findings in H as [-> H].
Qed.

(** ** Fatal errors (C6) *)

Lemma filtered_enumeration_failure_raises (source target : Catalog) :
  filtered_enumeration_fails source ∨ filtered_enumeration_fails target →
  ∃ e, (Filtered.compare_databases (Some source) (Some target)).2 = Raise e.
Proof.
  intros H. unfold filtered_enumeration_fails in H.
  destruct source as [st sv sp sf si sc scount], target as [tt tv tp tf ti tc tcount].
  cbn [rows_tables rows_views rows_procedures rows_functions] in H.
  unfold Filtered.compare_databases, Filtered.get_tables, Filtered.get_views,
    Filtered.get_procedures, Filtered.get_functions, execute.
  cbn [fst snd rows_tables rows_views rows_procedures rows_functions].
  unfold emit, ret, raise.
  destruct st as [st|]; [|by eexists].
  destruct tt as [tt|]; [|by eexists].
  cbn [bind compare_lists]. rewrite ident_section_run. cbn [bind].
  destruct (Filtered.compare_row_counts _ _ _ _ _ _) as [lc [d_counts|e]];
    [|by eexists].
  cbn [bind].
  destruct sv as [sv|]; [|by eexists].
  destruct tv as [tv|]; [|by eexists].
  cbn [bind]. rewrite ident_section_run. cbn [bind].
  destruct sp as [sp|]; [|by eexists].
  destruct tp as [tp|]; [|by eexists].
  cbn [bind]. rewrite print_match_or_none_run, ident_section_run. cbn [bind].
  destruct sf as [sf|]; [|by eexists].
  destruct tf as [tf|]; [|by eexists].
  exfalso. intuition discriminate.
Qed.

Lemma unfiltered_enumeration_failure_raises (source target : Catalog) :
  unfiltered_enumeration_fails source ∨ unfiltered_enumeration_fails target →
  (Unfiltered.compare_databases (Some source) (Some target)).2 = Raise DatabaseError.
Proof.
  intros H. unfold unfiltered_enumeration_fails in H.
  destruct source as [st sv sp sf si sc scount], target as [tt tv tp tf ti tc tcount].
  cbn [rows_tables rows_views rows_procedures rows_functions rows_indexes
       rows_constraints] in H.
  unfold Unfiltered.compare_databases, Unfiltered.get_tables, Unfiltered.get_views,
    Unfiltered.get_procedures, Unfiltered.get_functions, Unfiltered.get_indexes,
    Unfiltered.get_constraints, execute.
  cbn [fst snd rows_tables rows_views rows_procedures rows_functions rows_indexes
       rows_constraints].
  unfold emit, ret, raise.
  destruct st as [st|]; [|done].
  destruct tt as [tt|]; [|done].
  cbn [bind compare_lists]. rewrite ident_section_run. cbn [bind].
  destruct sv as [sv|]; [|done].
  destruct tv as [tv|]; [|done].
  cbn [bind]. rewrite ident_section_run. cbn [bind].
  destruct sp as [sp|]; [|done].
  destruct tp as [tp|]; [|done].
  cbn [bind]. rewrite ident_section_run. cbn [bind].
  destruct sf as [sf|]; [|done].
  destruct tf as [tf|]; [|done].
  cbn [bind]. rewrite ident_section_run. cbn [bind].
  destruct si as [si|]; [|done].
  destruct ti as [ti|]; [|done].
  cbn [bind].
  rewrite (for_each_ok _ _ (print_missing_index_ok _)), for_each_emit_pair.
  cbn [bind app]. rewrite report_section_run. cbn [bind].
  destruct sc as [sc|]; [|done].
  destruct tc as [tc|]; [|done].
  exfalso. intuition discriminate.
Qed.

(** C6, as it fails: a failed connection to the source gives the very result
    that two differing databases give (scenario A), and so does the exit
    status of [main]. *)
Lemma connection_failure_reported_as_fail_counterexample :
  (Filtered.compare_databases None (Some (database scenario_A_target))).2 = Ok false ∧
  (Filtered.compare_databases (Some (database scenario_A_source))
     (Some (database scenario_A_target))).2 = Ok false ∧
  findings (Filtered.compare_databases (Some (database scenario_A_source))
              (Some (database scenario_A_target))).1 =
    [MissingObject Tables ["dbo"; "Orders"]] ∧
  (Filtered.main None (Some (database scenario_A_target))).2 = Ok 1%Z ∧
  (Filtered.main (Some (database scenario_A_source))
     (Some (database scenario_A_target))).2 = Ok 1%Z ∧
  (Unfiltered.compare_databases None (Some (database scenario_A_target))).2 =
  (Unfiltered.compare_databases (Some (database scenario_A_source))
     (Some (database scenario_A_target))).2.
Proof. split_and!; reflexivity. Qed.

(** C6, amended.  A failed connection on either side ends the comparison at
    once, before any query, with the result [False] (exit status 1) that a
    structural Fail also gives; only the logged line tells them apart, and no
    finding is reported.  A failed enumeration query on either side is not
    caught: the comparison ends with an exception, which is neither Pass nor
    Fail. *)
Theorem fatal_error_outcomes (source target : Catalog) (conn : option Catalog) :
  Filtered.compare_databases None conn = ([ConnectFailed Source], Ok false) ∧
  Filtered.compare_databases (Some source) None = ([ConnectFailed Target], Ok false) ∧
  Unfiltered.compare_databases None conn = ([ConnectFailed Source], Ok false) ∧
  Unfiltered.compare_databases (Some source) None = ([ConnectFailed Target], Ok false) ∧
  Filtered.main None conn = ([ConnectFailed Source], Ok 1%Z) ∧
  Filtered.main (Some source) None = ([ConnectFailed Target], Ok 1%Z) ∧
  Unfiltered.main None conn = ([ConnectFailed Source], Ok 1%Z) ∧
  Unfiltered.main (Some source) None = ([ConnectFailed Target], Ok 1%Z) ∧
  (filtered_enumeration_fails source ∨ filtered_enumeration_fails target →
   verdict (Filtered.compare_databases (Some source) (Some target)) = None ∧
   ∃ e, (Filtered.main (Some source) (Some target)).2 = Raise e) ∧
  (unfiltered_enumeration_fails source ∨ unfiltered_enumeration_fails target →
   verdict (Unfiltered.compare_databases (Some source) (Some target)) = None ∧
   (Unfiltered.main (Some source) (Some target)).2 = Raise DatabaseError).
Proof.
  split_and!; try reflexivity.
  - intros H. apply filtered_enumeration_failure_raises in H as [e He].
    unfold verdict, Filtered.main. rewrite He. split; [done|]. exists e.
    destruct (Filtered.compare_databases _ _) as [l r]. simpl in He. by subst r.
  - intros H. apply unfiltered_enumeration_failure_raises in H as He.
    unfold verdict, Unfiltered.main. rewrite He. split; [done|].
    destruct (Unfiltered.compare_databases _ _) as [l r]. simpl in He. by subst r.
Qed.

(** The enumeration part at work: the views of the target cannot be
    listed. *)
Example views_unreadable_raises :
  Filtered.compare_databases (Some (database scenario_A_source))
    (Some views_unreadable) =
  ([Execute Source SelectTables; Execute Target SelectTables;
    MissingHeader Tables 1; MissingLine Tables ["dbo"; "Orders"];
    RowCountSkipLine; Execute Source SelectViews; Execute Target SelectViews],
   Raise DatabaseError) ∧
  (Unfiltered.main (Some views_unreadable) (Some views_unreadable)).2 =
    Raise DatabaseError.
Proof. split; reflexivity. Qed.

(** ** The findings of the unfiltered run *)

Lemma findings_join (ls : list (list Event)) :
  findings (mjoin ls) = mjoin (findings <$> ls).
Proof.
  induction ls as [|l ls IH]; [done|].
  change (mjoin (l :: ls)) with (l ++ mjoin ls).
  rewrite findings_app, IH. reflexivity.
Qed.

Lemma index_details_found (source_indexes : list IndexRow) (k : IndexKey) :
  k ∈ Unfiltered.idx_key <$> source_indexes →
  findings (Unfiltered.print_missing_index source_indexes k).1 =
  [MissingObject Indexes (index_key k)].
Proof.
  intros (idx & -> & Hin)%list_elem_of_fmap.
  unfold Unfiltered.print_missing_index.
  destruct (filter _ source_indexes) as [|[[[[[? ?] ?] ?] ?] ?] ?] eqn:Hf.
  - assert (idx ∈ filter (λ idx', Unfiltered.idx_key idx' = Unfiltered.idx_key idx)
                     source_indexes) as Hin'
      by by apply list_elem_of_filter.
    rewrite Hf in Hin'. by apply elem_of_nil in Hin'.
  - reflexivity.
Qed.

Lemma findings_index_section (A B : Snapshot) :
  findings (index_section_log A B) = index_findings (index_diff A B).
Proof.
  unfold index_section_log, index_findings, differs. cbv zeta.
  assert (Hmiss : findings (mjoin (missing_index_events A <$> sorted (index_diff A B).1)) =
                  (λ k, MissingObject Indexes (index_key k)) <$> sorted (index_diff A B).1).
  { rewrite findings_join, <- list_fmap_compose.
    assert (Hall : Forall (λ k, k ∈ Unfiltered.idx_key <$> indexes A)
                     (sorted (index_diff A B).1)).
    { apply Forall_forall. intros k Hk%elem_of_sorted.
      unfold index_diff in Hk. cbn [fst] in Hk.
      apply elem_of_difference in Hk as [Hk _]. by apply elem_of_list_to_set in Hk. }
    induction Hall as [|k l Hk _ IH]; [done|].
    rewrite !fmap_cons.
    change (mjoin (?x :: ?xs)) with (x ++ mjoin xs).
    rewrite IH. unfold compose at 1, missing_index_events.
    by rewrite index_details_found. }
  destruct (truthy (index_diff A B).1) eqn:H1, (truthy (index_diff A B).2) eqn:H2;
    cbn [orb]; rewrite ?findings_app;
    try (apply truthy_false in H1; rewrite H1, sorted_empty);
    try (apply truthy_false in H2; rewrite H2, sorted_empty);
    cbn [fmap list_fmap app findings omap list_omap finding_of];
    fold (findings (mjoin (missing_index_events A <$> sorted (index_diff A B).1)));
    rewrite ?Hmiss;
    rewrite ?(omap_fmap_Some finding_of _ (λ k, ExtraObject Indexes (index_key k))) by done;
    rewrite ?app_nil_r; done.
Qed.

Lemma constraint_groups_empty : constraint_groups ∅ = [].
Proof.
  unfold constraint_groups, Unfiltered.sorted_items.
  rewrite sorted_empty. cbn [foldl]. by rewrite map_to_list_empty.
Qed.

Lemma findings_group_events (gs : list (string * list IndexKey)) :
  findings (mjoin (group_events <$> gs)) =
  (λ g, MissingObject Constraints (index_key g.2 ++ [g.1])) <$>
    (gs ≫= (λ g, (λ k, (g.1, k)) <$> g.2)).
Proof.
  induction gs as [|[ct items] gs IH]; [done|].
  rewrite fmap_cons, bind_cons, fmap_app.
  change (mjoin (?x :: ?xs)) with (x ++ mjoin xs).
  rewrite findings_app, IH. f_equal.
  unfold group_events. cbn [fst snd findings omap list_omap finding_of].
  fold (findings ((λ k, MissingConstraintLine ct (index_key k)) <$> items)).
  unfold findings.
  rewrite (omap_fmap_Some finding_of _
             (λ k, MissingObject Constraints (index_key k ++ [ct]))) by done.
  by rewrite <- list_fmap_compose.
Qed.

Lemma findings_constraint_section (A B : Snapshot) :
  findings (constraint_section_log A B) = constraint_findings (constraint_diff A B).
Proof.
  unfold constraint_section_log, constraint_findings, grouped_constraints, differs.
  cbv zeta.
  destruct (truthy (constraint_diff A B).1) eqn:H1,
           (truthy (constraint_diff A B).2) eqn:H2;
    cbn [orb]; rewrite ?findings_app;
    try (apply truthy_false in H1; rewrite H1, constraint_groups_empty);
    try (apply truthy_false in H2; rewrite H2, sorted_empty);
    cbn [fmap list_fmap app findings omap list_omap finding_of mbind list_bind];
    fold (findings (mjoin (group_events <$> constraint_groups (constraint_diff A B).1)));
    rewrite ?findings_group_events;
    rewrite ?(omap_fmap_Some finding_of _
                (λ k, ExtraObject Constraints (constraint_key k))) by done;
    rewrite ?app_nil_r; done.
Qed.

Lemma unfiltered_findings (A B : Snapshot) :
  findings (Unfiltered.compare_databases (Some (database A)) (Some (database B))).1 =
  section_findings Tables (table_diff A B) ++
  section_findings Views (view_diff A B) ++
  section_findings Procedures (procedure_diff A B) ++
  section_findings Functions (function_diff A B) ++
  index_findings (index_diff A B) ++
  constraint_findings (constraint_diff A B).
Proof.
  rewrite unfiltered_run. cbn [fst]. unfold unfiltered_log.
  rewrite !findings_app, !findings_section, findings_index_section,
    findings_constraint_section by done.
  cbn [findings omap list_omap finding_of app].
  assert (finding_of (unfiltered_summary A B) = None) as ->
    by (unfold unfiltered_summary; by destruct (unfiltered_found A B)).
  by rewrite app_nil_r.
Qed.

(** ** The order of the missing constraints *)

Section strictly.
Context {A : Type} (R : relation A).

Lemma StronglySorted_strictly (l : list A) :
  StronglySorted R l → NoDup l → StronglySorted (strictly R) l.
Proof.
  induction 1 as [|x l Hl IH Hx]; intros Hnd; [constructor|].
  apply NoDup_cons in Hnd as [Hnin Hnd]. constructor; [by apply IH|].
  apply Forall_forall. intros y Hy. split.
  - by eapply Forall_forall in Hx.
  - by intros ->.
Qed.

Lemma strictly_StronglySorted (l : list A) :
  StronglySorted (strictly R) l → StronglySorted R l ∧ NoDup l.
Proof.
  induction 1 as [|x l Hl [IH1 IH2] Hx]; [split; constructor|].
  split.
  - constructor; [done|]. eapply Forall_impl; [done|]. by intros y [].
  - apply NoDup_cons. split; [|done]. intros Hin.
    eapply Forall_forall in Hx; [|done]. by destruct Hx.
Qed.
End strictly.

Lemma by_type_lookup (L : list ConstraintKey) (m : gmap string (list IndexKey))
  (ct : string) :
  foldl Unfiltered.by_type_append m L !! ct =
  match filter (λ c, c.2 = ct) L with
  | [] => m !! ct
  | items => Some (default [] (m !! ct) ++ (fst <$> items))
  end.
Proof.
  revert m. induction L as [|[[[s t] n] kind] L IH]; intros m; [done|].
  cbn [foldl]. rewrite IH, filter_cons. cbn [snd].
  change (Unfiltered.by_type_append m (s, t, n, kind))
    with (<[kind := default [] (m !! kind) ++ [(s, t, n)]]> m).
  destruct (decide (kind = ct)) as [->|Hne].
  - rewrite lookup_insert_eq. cbn [default].
    destruct (filter _ L) as [|c items]; [done|].
    unfold id. by rewrite <- app_assoc.
  - rewrite lookup_insert_ne by done. done.
Qed.

Lemma strictly_sorted_of_kind (L : list ConstraintKey) (ct : string) :
  StronglySorted (strictly py_le) L →
  StronglySorted (strictly py_le) (fst <$> filter (λ c, c.2 = ct) L).
Proof.
  induction 1 as [|c L HL IH Hc]; [constructor|].
  rewrite filter_cons. destruct (decide (c.2 = ct)) as [Hk|Hk]; [|done].
  rewrite fmap_cons. constructor; [done|].
  apply Forall_fmap, Forall_forall. intros c' [Hk' Hin]%list_elem_of_filter.
  eapply Forall_forall in Hc; [|done]. destruct Hc as [Hle Hne].
  destruct c as [k kind], c' as [k' kind']. cbn [fst snd] in *. subst kind kind'.
  change (tuple_py_le (k, ct) (k', ct)) in Hle. unfold tuple_py_le in Hle.
  cbn [fst snd] in Hle.
  destruct (decide (k = k')) as [->|Hkk]; [done|]. by split.
Qed.

Global Instance sorted_items_order_total :
  Total (λ x y : string * list IndexKey, py_le x.1 y.1).
Proof. intros x y. apply (total py_le). Qed.

Global Instance sorted_items_order_trans :
  Transitive (λ x y : string * list IndexKey, py_le x.1 y.1).
Proof. intros x y z. apply (transitivity (R:=py_le)). Qed.

Lemma flatten_strictly_sorted (gs : list (string * list IndexKey)) :
  StronglySorted (λ x y, py_le x.1 y.1) gs → NoDup gs.*1 →
  Forall (λ g, StronglySorted (strictly py_le) g.2) gs →
  StronglySorted (strictly py_le) (gs ≫= (λ g, (λ k, (g.1, k)) <$> g.2)).
Proof.
  induction 1 as [|[ct items] gs Hgs IH Hg]; intros Hnd Hall; [constructor|].
  rewrite fmap_cons in Hnd. apply NoDup_cons in Hnd as [Hnin Hnd].
  apply Forall_cons in Hall as [Hitems Hall].
  rewrite bind_cons. apply StronglySorted_app_2; [| |by apply IH].
  - intros x1 x2 (k1 & -> & _)%list_elem_of_fmap
      ([ct' items'] & (k2 & -> & _)%list_elem_of_fmap & Hin)%list_elem_of_bind.
    cbn [fst snd] in *.
    assert (ct ≠ ct') as Hne.
    { intros ->. apply Hnin. apply list_elem_of_fmap. by exists (ct', items'). }
    eapply Forall_forall in Hg; [|done]. cbn [fst] in Hg.
    split; [|by intros [=]].
    change (tuple_py_le (ct, k1) (ct', k2)). unfold tuple_py_le. cbn [fst snd].
    by rewrite decide_False.
  - cbn [fst snd] in *. clear -Hitems.
    induction Hitems as [|k items Hi IHi Hk]; [constructor|].
    rewrite fmap_cons. constructor; [done|].
    apply Forall_fmap. eapply Forall_impl; [done|]. intros k' [Hle Hne].
    split; [|by intros [=]].
    change (tuple_py_le (ct, k) (ct, k')). unfold tuple_py_le. cbn [fst snd].
    by rewrite decide_True.
Qed.

Global Instance by_kind_inj : Inj (=) (=) by_kind.
Proof. intros [k1 c1] [k2 c2] [=]. by subst. Qed.

Lemma by_type_lookup_sorted (L : list ConstraintKey) (ct : string)
  (items : list IndexKey) :
  foldl Unfiltered.by_type_append ∅ L !! ct = Some items ↔
  items = fst <$> filter (λ c, c.2 = ct) L ∧ items ≠ [].
Proof.
  rewrite by_type_lookup, lookup_empty. cbn [default app].
  destruct (filter _ L) as [|c cs]; cbn [fmap list_fmap].
  - split; [done | by intros [-> ?]].
  - split; [by intros [= <-] | by intros [-> _]].
Qed.

(** The missing constraints are printed sorted by constraint type first,
    then by schema, table and name; each is printed once. *)
Lemma grouped_constraints_sorted (missing : gset ConstraintKey) :
  StronglySorted py_le (grouped_constraints missing) ∧
  grouped_constraints missing ≡ₚ by_kind <$> elements missing.
Proof.
  unfold grouped_constraints, constraint_groups, Unfiltered.sorted_items.
  set (L := sorted missing).
  set (bt := foldl Unfiltered.by_type_append ∅ L).
  set (R := λ x y : string * list IndexKey, py_le x.1 y.1).
  set (groups := merge_sort R (map_to_list bt)).
  assert (HL : StronglySorted (strictly py_le) L).
  { apply StronglySorted_strictly; [apply sorted_StronglySorted | apply sorted_NoDup]. }
  assert (Hperm : groups ≡ₚ map_to_list bt) by apply merge_sort_Permutation.
  assert (Hsorted : StronglySorted R groups)
    by (apply StronglySorted_merge_sort; apply _).
  assert (Hnd : NoDup groups.*1).
  { rewrite Hperm. apply NoDup_fst_map_to_list. }
  assert (Hgroup : ∀ g, g ∈ groups ↔
            g.2 = fst <$> filter (λ c, c.2 = g.1) L ∧ g.2 ≠ []).
  { intros [ct items]. rewrite Hperm, elem_of_map_to_list.
    apply by_type_lookup_sorted. }
  assert (Hall : Forall (λ g, StronglySorted (strictly py_le) g.2) groups).
  { apply Forall_forall. intros g [-> _]%Hgroup.
    by apply strictly_sorted_of_kind. }
  destruct (strictly_StronglySorted _ _
              (flatten_strictly_sorted groups Hsorted Hnd Hall)) as [HF HFnd].
  split; [done|]. apply NoDup_Permutation; [done | |].
  { apply NoDup_fmap_2; [apply _ | apply NoDup_elements]. }
  intros [ct k]. rewrite list_elem_of_bind, list_elem_of_fmap. split.
  - intros (g & (k' & [= -> ->] & Hk)%list_elem_of_fmap & [Hg _]%Hgroup).
    rewrite Hg in Hk.
    apply list_elem_of_fmap in Hk as ([k2 kind] & -> & [Hkind Hin]%list_elem_of_filter).
    cbn [fst snd] in *. subst kind. exists (k2, g.1). split; [done|].
    apply elem_of_elements. by apply elem_of_sorted in Hin.
  - intros ([k' kind] & [= -> ->] & Hin%elem_of_elements).
    exists (kind, fst <$> filter (λ c, c.2 = kind) L).
    assert (Hk : (k', kind) ∈ filter (λ c : ConstraintKey, c.2 = kind) L).
    { apply list_elem_of_filter. split; [done | by apply elem_of_sorted]. }
    split.
    + apply list_elem_of_fmap. exists k'. split; [done|].
      cbn [snd]. apply list_elem_of_fmap. by exists (k', kind).
    + apply Hgroup. cbn [fst snd]. split; [done|].
      intros Hnil. apply fmap_nil_inv in Hnil. rewrite Hnil in Hk.
      by apply elem_of_nil in Hk.
Qed.

(** ** The order of the findings (C7) *)

(** C7, as it fails: the filtered mode reports the row-count mismatch before
    the missing view, not after all categories; and the unfiltered mode
    reports the missing constraint of table [dbo.B] before that of table
    [dbo.A], because it groups them by constraint type. *)
Lemma findings_order_counterexample :
  findings (Filtered.compare_databases (Some (database counts_and_views_source))
              (Some (database counts_and_views_target))).1 =
    [RowCountMismatch users (Some 100%Z) (Some 99%Z);
     MissingObject Views ["dbo"; "ActiveUsers"]] ∧
  findings (Unfiltered.compare_databases (Some (database two_constraints))
              (Some (database empty_snapshot))).1 =
    [MissingObject Constraints ["dbo"; "B"; "CK_B"; "CHECK"];
     MissingObject Constraints ["dbo"; "A"; "UQ_A"; "UNIQUE"]].
Proof. split; reflexivity. Qed.

(** C7, amended.  The findings follow the order in which each script runs its
    steps.  A filtered comparison reports tables, then row counts, and, when
    it reaches its verdict, views, procedures, functions; an unfiltered
    comparison, whatever the filtered one does, reports tables, views,
    procedures, functions, indexes, constraints, and no row counts.  Within a
    category the missing identities come first and the extra ones after, each
    list sorted lexicographically by identity and free of repeats; except that
    the missing constraints are sorted by constraint type first, and that the
    row-count mismatches are in the order of the source's table list. *)
Theorem findings_follow_step_order (A B : Snapshot) :
  (let run := Filtered.compare_databases (Some (database A)) (Some (database B)) in
   findings run.1 =
     section_findings Tables (filtered_table_diff A B) ++
     (mismatch_finding <$>
        (if differs (filtered_table_diff A B) then []
         else row_count_diffs A B (filtered_tables A))) ++
     match run.2 with
     | Ok _ =>
         section_findings Views (view_diff A B) ++
         section_findings Procedures (filtered_procedure_diff A B) ++
         section_findings Functions (filtered_function_diff A B)
     | Raise _ => []
     end) ∧
  (∀ b : bool,
   (Filtered.compare_databases (Some (database A)) (Some (database B))).2 = Ok b →
   findings (Filtered.compare_databases (Some (database A)) (Some (database B))).1 =
     section_findings Tables (filtered_table_diff A B) ++
     (mismatch_finding <$>
        (if differs (filtered_table_diff A B) then []
         else row_count_diffs A B (filtered_tables A))) ++
     section_findings Views (view_diff A B) ++
     section_findings Procedures (filtered_procedure_diff A B) ++
     section_findings Functions (filtered_function_diff A B)) ∧
  findings (Unfiltered.compare_databases (Some (database A)) (Some (database B))).1 =
    section_findings Tables (table_diff A B) ++
    section_findings Views (view_diff A B) ++
    section_findings Procedures (procedure_diff A B) ++
    section_findings Functions (function_diff A B) ++
    index_findings (index_diff A B) ++
    constraint_findings (constraint_diff A B) ∧
  (∀ s : gset Ident, StronglySorted py_le (sorted s) ∧ sorted s ≡ₚ elements s) ∧
  (∀ s : gset IndexKey, StronglySorted py_le (sorted s) ∧ sorted s ≡ₚ elements s) ∧
  (∀ s : gset ConstraintKey,
     StronglySorted py_le (sorted s) ∧ sorted s ≡ₚ elements s ∧
     StronglySorted py_le (grouped_constraints s) ∧
     grouped_constraints s ≡ₚ by_kind <$> elements s).
Proof.
  split_and!.
  - apply filtered_findings.
  - intros b Hok. pose proof (filtered_findings A B) as H. cbv zeta in H.
    by rewrite Hok in H.
  - apply unfiltered_findings.
  - intros s. split; [apply sorted_StronglySorted | apply sorted_Permutation].
  - intros s. split; [apply sorted_StronglySorted | apply sorted_Permutation].
  - intros s. destruct (grouped_constraints_sorted s).
    split_and!; [apply sorted_StronglySorted | apply sorted_Permutation | done..].
Qed.

Lemma findings_follow_step_order_witness :
  (Filtered.compare_databases (Some (database counts_and_views_source))
     (Some (database counts_and_views_target))).2 = Ok false ∧
  findings (Filtered.compare_databases (Some (database counts_and_views_source))
              (Some (database counts_and_views_target))).1 =
    [RowCountMismatch users (Some 100%Z) (Some 99%Z);
     MissingObject Views ["dbo"; "ActiveUsers"]] ∧
  findings (Unfiltered.compare_databases (Some (database denied_source))
              (Some (database denied_target))).1 =
    [ExtraObject Indexes ["dbo"; "Users"; "PK_Users"]].
Proof.
  split; [reflexivity|]. split.
  - apply (proj1 (proj2 (findings_follow_step_order counts_and_views_source
                           counts_and_views_target)) false).
    reflexivity.
  - apply (proj1 (proj2 (proj2 (findings_follow_step_order denied_source
                                  denied_target)))).
Defined.

(** ** Verdicts *)

(** The outcome of a filtered comparison of two snapshots: Fail when some
    category or some row count differs, a [TypeError] when nothing differs in
    the tables and their counts but some count is null, Pass or Fail by the
    remaining categories otherwise. *)
Lemma filtered_outcome (A B : Snapshot) :
  (Filtered.compare_databases (Some (database A)) (Some (database B))).2 =
  if differs (filtered_table_diff A B) then Ok false
  else match row_count_diffs A B (filtered_tables A) with
       | _ :: _ => Ok false
       | [] =>
           if decide (has_null_count A (filtered_tables A)) then Raise TypeError
           else Ok (negb (differs (view_diff A B) ||
                          differs (filtered_procedure_diff A B) ||
                          differs (filtered_function_diff A B)))
       end.
Proof.
  rewrite filtered_run. unfold filtered_row_counts, filtered_found, has_null_count.
  destruct (differs (filtered_table_diff A B)); [done|].
  unfold row_counts_run.
  destruct (row_count_diffs A B (filtered_tables A)); [|done].
  destruct (decide _); [done|]. cbn [snd orb].
  by rewrite <- !orb_assoc.
Qed.

(** Without null counts, the filtered verdict is Fail exactly when some
    compared category or some row count differs, and Pass otherwise. *)
Lemma filtered_verdict_without_null_counts (A B : Snapshot) :
  ¬ has_null_count A (filtered_tables A) →
  verdict (Filtered.compare_databases (Some (database A)) (Some (database B))) =
  Some (if differs (filtered_table_diff A B) ||
           bool_decide (differs (filtered_table_diff A B) = false ∧
                        row_count_diffs A B (filtered_tables A) ≠ []) ||
           differs (view_diff A B) || differs (filtered_procedure_diff A B) ||
           differs (filtered_function_diff A B)
        then Fail else Pass).
Proof.
  intros Hnull. unfold verdict. rewrite filtered_outcome.
  destruct (differs (filtered_table_diff A B)); [done|]. cbn [orb].
  destruct (row_count_diffs A B (filtered_tables A)) as [|d l].
  - rewrite decide_False by done.
    rewrite bool_decide_eq_false_2 by (by intros [_ ?]). cbn [orb].
    by destruct (_ || _ || _).
  - by rewrite bool_decide_eq_true_2.
Qed.

(** The unfiltered verdict is Fail exactly when some category differs. *)
Lemma unfiltered_verdict (A B : Snapshot) :
  verdict (Unfiltered.compare_databases (Some (database A)) (Some (database B))) =
  Some (if unfiltered_found A B then Fail else Pass).
Proof.
  unfold verdict. rewrite unfiltered_run. cbn [snd].
  by destruct (unfiltered_found A B).
Qed.

Lemma differs_self `{Countable K} (l : list K) (item_name : string) :
  differs (compare_lists l l item_name) = false.
Proof.
  apply differs_false. unfold compare_lists. cbn [fst snd].
  by rewrite difference_diag_L.
Qed.

Lemma section_findings_self (c : ObjectCategory) (l : list Ident)
  (item_name : string) :
  section_findings c (compare_lists l l item_name) = [].
Proof.
  unfold section_findings, compare_lists. cbn [fst snd].
  by rewrite difference_diag_L, sorted_empty.
Qed.

Lemma row_count_diffs_self (A : Snapshot) (ts : list Ident) :
  row_count_diffs A A ts = [].
Proof.
  unfold row_count_diffs. induction ts as [|k ts IH]; [done|].
  rewrite filter_cons. by destruct (decide _).
Qed.

Lemma index_diff_self (A : Snapshot) :
  differs (index_diff A A) = false ∧ index_findings (index_diff A A) = [].
Proof.
  unfold index_findings, index_diff. cbv zeta. cbn [fst snd].
  rewrite (difference_diag_L (list_to_set (Unfiltered.idx_key <$> indexes A))).
  split; [by apply differs_false | by rewrite sorted_empty].
Qed.

Lemma constraint_diff_self (A : Snapshot) :
  differs (constraint_diff A A) = false ∧
  constraint_findings (constraint_diff A A) = [].
Proof.
  unfold constraint_findings, constraint_diff. cbv zeta. cbn [fst snd].
  rewrite (difference_diag_L (list_to_set (constraints A))).
  split; [by apply differs_false|].
  unfold grouped_constraints. by rewrite constraint_groups_empty, sorted_empty.
Qed.

(** Comparing a snapshot with itself in the unfiltered mode reports nothing
    and passes. *)
Lemma unfiltered_self_comparison (A : Snapshot) :
  let run := Unfiltered.compare_databases (Some (database A)) (Some (database A)) in
  findings run.1 = [] ∧ verdict run = Some Pass.
Proof.
  intros run. subst run. rewrite unfiltered_findings, unfiltered_verdict.
  destruct (index_diff_self A) as [Hi1 Hi2], (constraint_diff_self A) as [Hc1 Hc2].
  unfold unfiltered_found, table_diff, view_diff, procedure_diff, function_diff.
  by rewrite !differs_self, !section_findings_self, Hi1, Hi2, Hc1, Hc2.
Qed.

(** So does the filtered mode, provided no table of the snapshot has a null
    count. *)
Lemma filtered_self_comparison (A : Snapshot) :
  ¬ has_null_count A (filtered_tables A) →
  let run := Filtered.compare_databases (Some (database A)) (Some (database A)) in
  findings run.1 = [] ∧ row_count_mismatches run.1 = [] ∧ verdict run = Some Pass.
Proof.
  intros Hnull run. subst run.
  assert (Hd : differs (filtered_table_diff A A) = false).
  { apply differs_self. }
  rewrite filtered_row_count_mismatches by done.
  rewrite filtered_verdict_without_null_counts by done.
  rewrite filtered_findings, filtered_outcome.
  rewrite Hd, row_count_diffs_self. rewrite decide_False by done.
  unfold filtered_table_diff, view_diff, filtered_procedure_diff,
    filtered_function_diff.
  rewrite !differs_self, !section_findings_self.
  split_and!; [done | done |].
  by rewrite bool_decide_eq_false_2 by (by intros [_ ?]).
Qed.

(** ** Null counts stop the filtered comparison (C3, C9, C10) *)

(** C10, on the failing input: the table sets are equal and the counts of
    [dbo.Users] are null on both sides, hence equal, yet the filtered
    comparison stops with a [TypeError] right after the count queries and
    reaches no verdict. *)
Theorem filtered_comparison_raises_on_null_counts :
  let run := Filtered.compare_databases (Some (database denied_source))
               (Some (database denied_target)) in
  differs (filtered_table_diff denied_source denied_target) = false ∧
  row_count_diffs denied_source denied_target (filtered_tables denied_source) = [] ∧
  run = ([Execute Source SelectTables; Execute Target SelectTables;
          MatchLine Tables 1;
          Execute Source (SelectCount "dbo" "Users");
          Execute Target (SelectCount "dbo" "Users")],
         Raise TypeError) ∧
  verdict run = None.
Proof. cbv zeta. split_and!; reflexivity. Qed.

(** C9, on the failing input: a snapshot one of whose tables has a null
    count, compared against itself in the filtered mode, yields no finding
    but no verdict either: the run stops with a [TypeError]. *)
Theorem filtered_self_comparison_raises_on_null_count :
  let run := Filtered.compare_databases (Some (database partly_counted))
               (Some (database partly_counted)) in
  findings run.1 = [] ∧ run.2 = Raise TypeError ∧ verdict run = None.
Proof. cbv zeta. split_and!; reflexivity. Qed.

(** C3, on the failing input: no category differs and no row count differs,
    yet the filtered comparison gives neither Pass nor Fail. *)
Theorem filtered_verdict_missing_on_null_count :
  let run := Filtered.compare_databases (Some (database unreadable_source))
               (Some (database unreadable_target)) in
  filtered_found unreadable_source unreadable_target false = false ∧
  row_count_mismatches run.1 = [] ∧
  findings run.1 = [] ∧
  verdict run = None ∧ run.2 = Raise TypeError.
Proof. cbv zeta. split_and!; reflexivity. Qed.

(** ** What the unfiltered run reports, by key *)

Global Instance ident_key_inj : Inj (=) (=) ident_key.
Proof. intros [s1 n1] [s2 n2] [=]. by subst. Qed.

Global Instance index_key_inj : Inj (=) (=) index_key.
Proof. intros [[s1 t1] n1] [[s2 t2] n2] [=]. by subst. Qed.

Global Instance constraint_key_inj : Inj (=) (=) constraint_key.
Proof. intros [[[s1 t1] n1] k1] [[[s2 t2] n2] k2] [=]. by subst. Qed.

(** The keys of a sorted set difference. *)
Lemma elem_of_fmap_sorted_difference `{Countable K, PyOrd K,
  !RelDecision (py_le (A:=K)), !PyTotalOrder K}
  (f : K → list string) `{!Inj (=) (=) f} (l1 l2 : list K) (key : list string) :
  key ∈ f <$> sorted (list_to_set l1 ∖ list_to_set l2 : gset K) ↔
  key ∈ f <$> l1 ∧ key ∉ f <$> l2.
Proof.
  rewrite !list_elem_of_fmap. split.
  - intros (k & -> & Hk). apply elem_of_sorted, elem_of_difference in Hk as [H1 H2].
    rewrite elem_of_list_to_set in H1, H2. split; [by exists k|].
    intros (k' & ->%(inj f) & Hk'). done.
  - intros [(k & -> & Hk) Hn]. exists k. split; [done|].
    apply elem_of_sorted, elem_of_difference. rewrite !elem_of_list_to_set.
    split; [done|]. intros Hk2. apply Hn. by exists k.
Qed.

Lemma elem_of_fmap_missing {K} (f : K → list string) (c c' : ObjectCategory)
  (l : list K) (key : list string) :
  MissingObject c key ∈ (λ k, MissingObject c' (f k)) <$> l ↔ c = c' ∧ key ∈ f <$> l.
Proof.
  rewrite !list_elem_of_fmap. split.
  - intros (k & [= -> ->] & Hk). split; [done | by exists k].
  - intros [-> (k & -> & Hk)]. by exists k.
Qed.

Lemma elem_of_fmap_extra {K} (f : K → list string) (c c' : ObjectCategory)
  (l : list K) (key : list string) :
  ExtraObject c key ∈ (λ k, ExtraObject c' (f k)) <$> l ↔ c = c' ∧ key ∈ f <$> l.
Proof.
  rewrite !list_elem_of_fmap. split.
  - intros (k & [= -> ->] & Hk). split; [done | by exists k].
  - intros [-> (k & -> & Hk)]. by exists k.
Qed.

Lemma missing_not_in_extras {K} (f : K → list string) (c c' : ObjectCategory)
  (l : list K) (key : list string) :
  MissingObject c key ∈ (λ k, ExtraObject c' (f k)) <$> l ↔ False.
Proof. rewrite list_elem_of_fmap. split; [by intros (k & [=] & _) | done]. Qed.

Lemma extra_not_in_missings {K} (f : K → list string) (c c' : ObjectCategory)
  (l : list K) (key : list string) :
  ExtraObject c key ∈ (λ k, MissingObject c' (f k)) <$> l ↔ False.
Proof. rewrite list_elem_of_fmap. split; [by intros (k & [=] & _) | done]. Qed.

Lemma elem_of_section_findings_keys (c c' : ObjectCategory) (l1 l2 : list Ident)
  (item_name : string) (key : list string) :
  (MissingObject c key ∈ section_findings c' (compare_lists l1 l2 item_name) ↔
     c = c' ∧ key ∈ ident_key <$> l1 ∧ key ∉ ident_key <$> l2) ∧
  (ExtraObject c key ∈ section_findings c' (compare_lists l1 l2 item_name) ↔
     c = c' ∧ key ∈ ident_key <$> l2 ∧ key ∉ ident_key <$> l1).
Proof.
  unfold section_findings, compare_lists. cbn [fst snd].
  rewrite !elem_of_app, !elem_of_fmap_missing, !elem_of_fmap_extra,
    missing_not_in_extras, extra_not_in_missings,
    !(elem_of_fmap_sorted_difference ident_key).
  tauto.
Qed.

Lemma elem_of_index_findings (c : ObjectCategory) (A B : Snapshot) (key : list string) :
  (MissingObject c key ∈ index_findings (index_diff A B) ↔
     c = Indexes ∧ key ∈ object_keys Indexes A ∧ key ∉ object_keys Indexes B) ∧
  (ExtraObject c key ∈ index_findings (index_diff A B) ↔
     c = Indexes ∧ key ∈ object_keys Indexes B ∧ key ∉ object_keys Indexes A).
Proof.
  unfold index_findings, index_diff, object_keys. cbn [fst snd].
  rewrite !elem_of_app, !elem_of_fmap_missing, !elem_of_fmap_extra,
    missing_not_in_extras, extra_not_in_missings,
    !(elem_of_fmap_sorted_difference index_key).
  rewrite !(list_fmap_compose Unfiltered.idx_key index_key). tauto.
Qed.

Lemma elem_of_grouped_constraints (missing : gset ConstraintKey) (key : list string) :
  key ∈ (λ g : string * IndexKey, index_key g.2 ++ [g.1]) <$> grouped_constraints missing ↔
  key ∈ constraint_key <$> sorted missing.
Proof.
  destruct (grouped_constraints_sorted missing) as [_ Hperm].
  rewrite Hperm, sorted_Permutation, <- list_fmap_compose.
  rewrite !list_elem_of_fmap. split.
  - intros ([[[s t] n] kind] & -> & Hk). by exists (s, t, n, kind).
  - intros ([[[s t] n] kind] & -> & Hk). by exists (s, t, n, kind).
Qed.

Lemma elem_of_constraint_findings (c : ObjectCategory) (A B : Snapshot)
  (key : list string) :
  (MissingObject c key ∈ constraint_findings (constraint_diff A B) ↔
     c = Constraints ∧ key ∈ object_keys Constraints A ∧
     key ∉ object_keys Constraints B) ∧
  (ExtraObject c key ∈ constraint_findings (constraint_diff A B) ↔
     c = Constraints ∧ key ∈ object_keys Constraints B ∧
     key ∉ object_keys Constraints A).
Proof.
  unfold constraint_findings, constraint_diff, object_keys. cbn [fst snd].
  rewrite !elem_of_app.
  rewrite (elem_of_fmap_missing (λ g : string * IndexKey, index_key g.2 ++ [g.1])).
  rewrite elem_of_grouped_constraints.
  rewrite !elem_of_fmap_extra, missing_not_in_extras.
  assert (ExtraObject c key ∈
            (λ g : string * IndexKey, MissingObject Constraints (index_key g.2 ++ [g.1]))
            <$> grouped_constraints
                  (list_to_set (constraints A) ∖ list_to_set (constraints B)) ↔ False)
    as -> by apply (extra_not_in_missings (λ g : string * IndexKey, index_key g.2 ++ [g.1])).
  rewrite !(elem_of_fmap_sorted_difference constraint_key). tauto.
Qed.

(** What an unfiltered comparison reports, read off the two snapshots. *)
Lemma unfiltered_reported (A B : Snapshot) (c : ObjectCategory) (key : list string) :
  let log := (Unfiltered.compare_databases (Some (database A)) (Some (database B))).1 in
  (MissingObject c key ∈ findings log ↔
     key ∈ object_keys c A ∧ key ∉ object_keys c B) ∧
  (ExtraObject c key ∈ findings log ↔
     key ∈ object_keys c B ∧ key ∉ object_keys c A).
Proof.
  intros log. subst log. rewrite unfiltered_findings.
  unfold table_diff, view_diff, procedure_diff, function_diff.
  rewrite !elem_of_app.
  destruct (elem_of_section_findings_keys c Tables (tables A) (tables B) "table" key)
    as [-> ->].
  destruct (elem_of_section_findings_keys c Views (views A) (views B) "view" key)
    as [-> ->].
  destruct (elem_of_section_findings_keys c Procedures (procedures A) (procedures B)
              "procedure" key) as [-> ->].
  destruct (elem_of_section_findings_keys c Functions (functions A) (functions B)
              "function" key) as [-> ->].
  destruct (elem_of_index_findings c A B key) as [-> ->].
  destruct (elem_of_constraint_findings c A B key) as [-> ->].
  destruct c; cbn [object_keys]; split; intuition congruence.
Qed.

Lemma NoDup_bind_tagged {A T} (tag : A → T) (ls : list (T * list A)) :
  NoDup ls.*1 →
  Forall (λ p, NoDup p.2 ∧ Forall (λ x, tag x = p.1) p.2) ls →
  NoDup (ls ≫= snd).
Proof.
  induction ls as [|[t l] ls IH]; intros Hnd Hall; [constructor|].
  rewrite fmap_cons in Hnd. apply NoDup_cons in Hnd as [Hnin Hnd].
  apply Forall_cons in Hall as [[Hl Ht] Hall]. cbn [fst snd] in *.
  rewrite bind_cons. cbn [snd]. apply NoDup_app. split_and!; [done | | by apply IH].
  intros x Hx ([t' l'] & Hx' & Hin)%list_elem_of_bind. cbn [snd] in Hx'.
  eapply Forall_forall in Ht; [|done].
  eapply Forall_forall in Hall; [|done]. destruct Hall as [_ Ht'].
  eapply Forall_forall in Ht'; [|done]. cbn [fst snd] in Ht'.
  apply Hnin. apply list_elem_of_fmap. exists (t', l'). split; [|done].
  cbn [fst]. congruence.
Qed.

Lemma tagged_fmap_NoDup {K} (f : K → Finding) (t : option (ObjectCategory * bool))
  (l : list K) :
  Inj (=) (=) f → (∀ k, finding_tag (f k) = t) → NoDup l →
  NoDup (f <$> l) ∧ Forall (λ x, finding_tag x = t) (f <$> l).
Proof.
  intros Hinj Htag Hl. split; [by apply (NoDup_fmap_2 f)|].
  apply Forall_fmap, Forall_forall. intros k _. apply Htag.
Qed.

Lemma grouped_constraints_NoDup (missing : gset ConstraintKey) :
  NoDup (grouped_constraints missing).
Proof.
  destruct (grouped_constraints_sorted missing) as [_ ->].
  apply (NoDup_fmap_2 by_kind), NoDup_elements.
Qed.

(** No finding of an unfiltered comparison is reported twice. *)
Lemma unfiltered_findings_NoDup (A B : Snapshot) :
  NoDup (findings (Unfiltered.compare_databases (Some (database A))
                     (Some (database B))).1).
Proof.
  rewrite unfiltered_findings.
  unfold section_findings, index_findings, constraint_findings.
  set (m c (d : gset Ident * gset Ident) :=
         (Some (c, true), (λ k, MissingObject c (ident_key k)) <$> sorted d.1)).
  set (e c (d : gset Ident * gset Ident) :=
         (Some (c, false), (λ k, ExtraObject c (ident_key k)) <$> sorted d.2)).
  pose (sections :=
    [m Tables (table_diff A B); e Tables (table_diff A B);
     m Views (view_diff A B); e Views (view_diff A B);
     m Procedures (procedure_diff A B); e Procedures (procedure_diff A B);
     m Functions (function_diff A B); e Functions (function_diff A B);
     (Some (Indexes, true),
      (λ k, MissingObject Indexes (index_key k)) <$> sorted (index_diff A B).1);
     (Some (Indexes, false),
      (λ k, ExtraObject Indexes (index_key k)) <$> sorted (index_diff A B).2);
     (Some (Constraints, true),
      (λ g : string * IndexKey, MissingObject Constraints (index_key g.2 ++ [g.1]))
        <$> grouped_constraints (constraint_diff A B).1);
     (Some (Constraints, false),
      (λ k, ExtraObject Constraints (constraint_key k))
        <$> sorted (constraint_diff A B).2)]).
  assert (Heq : ∀ l : list Finding, l = sections ≫= snd → NoDup l).
  { intros l ->. apply (NoDup_bind_tagged finding_tag).
    - subst sections m e. cbn [fmap list_fmap fst].
      repeat (apply NoDup_cons; split;
              [rewrite ?elem_of_cons, elem_of_nil; intuition congruence|]).
      constructor.
    - subst sections m e.
      repeat (apply Forall_cons; split; [cbn [fst snd]|]); [..|constructor].
      all: try (apply tagged_fmap_NoDup;
                [intros k1 k2 Hk;
                 first [ apply (inj ident_key) | apply (inj index_key)
                       | apply (inj constraint_key) ]; congruence
                | done | apply sorted_NoDup]).
      apply tagged_fmap_NoDup; [| done | apply grouped_constraints_NoDup].
      intros [ct1 [[s1 t1] n1]] [ct2 [[s2 t2] n2]] [=]. by subst. }
  apply Heq. subst sections m e. cbn [mbind list_bind snd].
  rewrite <- !app_assoc, app_nil_r. reflexivity.
Qed.

(** X1. In the unfiltered mode an object is reported missing exactly when its
    key is among the source's keys of its category and not among the
    target's, and extra exactly in the converse case; no finding is reported
    twice. *)
Theorem unfiltered_reports_each_difference_once (A B : Snapshot)
  (c : ObjectCategory) (key : list string) :
  let log := (Unfiltered.compare_databases (Some (database A)) (Some (database B))).1 in
  (MissingObject c key ∈ findings log ↔
     key ∈ object_keys c A ∧ key ∉ object_keys c B) ∧
  (ExtraObject c key ∈ findings log ↔
     key ∈ object_keys c B ∧ key ∉ object_keys c A) ∧
  NoDup (findings log).
Proof.
  intros log. subst log.
  destruct (unfiltered_reported A B c key) as [Hm He].
  split_and!; [done | done | apply unfiltered_findings_NoDup].
Qed.

Lemma unfiltered_found_swap (A B : Snapshot) :
  unfiltered_found A B = unfiltered_found B A.
Proof.
  unfold unfiltered_found. f_equal; [f_equal; [f_equal; [f_equal; [f_equal|]|]|]|];
    unfold differs, table_diff, view_diff, procedure_diff, function_diff,
      index_diff, constraint_diff, compare_lists; cbn [fst snd];
    apply orb_comm.
Qed.

(** X2. Swapping source and target in the unfiltered mode turns every
    missing object into an extra one and every extra object into a missing
    one, and leaves the verdict unchanged. *)
Theorem unfiltered_swap_sides (A B : Snapshot) (c : ObjectCategory)
  (key : list string) :
  let forth := Unfiltered.compare_databases (Some (database A)) (Some (database B)) in
  let back := Unfiltered.compare_databases (Some (database B)) (Some (database A)) in
  (MissingObject c key ∈ findings forth.1 ↔ ExtraObject c key ∈ findings back.1) ∧
  (ExtraObject c key ∈ findings forth.1 ↔ MissingObject c key ∈ findings back.1) ∧
  verdict forth = verdict back.
Proof.
  intros forth back. subst forth back.
  destruct (unfiltered_reported A B c key) as [-> ->].
  destruct (unfiltered_reported B A c key) as [-> ->].
  split_and!; [done | done |].
  by rewrite !unfiltered_verdict, unfiltered_found_swap.
Qed.

Lemma unfiltered_findings_tagged (A B : Snapshot) (f : Finding) :
  f ∈ findings (Unfiltered.compare_databases (Some (database A))
                  (Some (database B))).1 →
  ∃ c key, f = MissingObject c key ∨ f = ExtraObject c key.
Proof.
  rewrite unfiltered_findings.
  unfold section_findings, index_findings, constraint_findings.
  rewrite !elem_of_app, !list_elem_of_fmap.
  intros H. repeat (destruct H as [H|H]); destruct H as (k & -> & _); eauto.
Qed.

Lemma unfiltered_no_findings_iff (A B : Snapshot) :
  findings (Unfiltered.compare_databases (Some (database A))
              (Some (database B))).1 = [] ↔
  ∀ c, same_keys c A B.
Proof.
  split.
  - intros Hnil c key.
    destruct (unfiltered_reported A B c key) as [Hm He]. cbv zeta in Hm, He.
    rewrite Hnil in Hm, He. rewrite elem_of_nil in Hm, He.
    destruct (decide (key ∈ object_keys c A)), (decide (key ∈ object_keys c B));
      tauto.
  - intros Hsame.
    destruct (findings _) as [|f l] eqn:Hf; [done|]. exfalso.
    assert (Hin : f ∈ findings (Unfiltered.compare_databases (Some (database A))
                                  (Some (database B))).1)
      by (rewrite Hf; left).
    destruct (unfiltered_findings_tagged A B f Hin) as (c & key & [->| ->]).
    + apply unfiltered_reported in Hin as [H1 H2]. by apply H2, Hsame.
    + apply unfiltered_reported in Hin as [H1 H2]. by apply H2, Hsame.
Qed.

Lemma sorted_nil `{Countable K, PyOrd K, !RelDecision (py_le (A:=K)),
  !PyTotalOrder K} (s : gset K) : sorted s = [] ↔ s = ∅.
Proof.
  split; [|intros ->; apply sorted_empty].
  intros Hnil. apply leibniz_equiv, elements_empty_inv.
  pose proof (sorted_Permutation s) as Hp. rewrite Hnil in Hp.
  symmetry. by apply Permutation_nil_l.
Qed.

Lemma section_findings_nil (c : ObjectCategory) (d : gset Ident * gset Ident) :
  section_findings c d = [] ↔ differs d = false.
Proof.
  unfold section_findings. rewrite differs_false.
  rewrite <- !sorted_nil. split.
  - intros [H1 H2]%app_eq_nil. split; by eapply fmap_nil_inv.
  - by intros [-> ->].
Qed.

Lemma index_findings_nil (d : gset IndexKey * gset IndexKey) :
  index_findings d = [] ↔ differs d = false.
Proof.
  unfold index_findings. rewrite differs_false.
  rewrite <- !sorted_nil. split.
  - intros [H1 H2]%app_eq_nil. split; by eapply fmap_nil_inv.
  - by intros [-> ->].
Qed.

Lemma grouped_constraints_nil (s : gset ConstraintKey) :
  grouped_constraints s = [] ↔ s = ∅.
Proof.
  destruct (grouped_constraints_sorted s) as [_ Hp]. split.
  - intros Hnil. rewrite Hnil in Hp. apply leibniz_equiv, elements_empty_inv.
    apply Permutation_nil_l in Hp. symmetry in Hp. by eapply fmap_nil_inv.
  - intros ->. unfold grouped_constraints. by rewrite constraint_groups_empty.
Qed.

Lemma constraint_findings_nil (d : gset ConstraintKey * gset ConstraintKey) :
  constraint_findings d = [] ↔ differs d = false.
Proof.
  unfold constraint_findings. rewrite differs_false.
  rewrite <- grouped_constraints_nil, <- sorted_nil. split.
  - intros [H1 H2]%app_eq_nil. split; by eapply fmap_nil_inv.
  - by intros [-> ->].
Qed.

Lemma unfiltered_found_iff_findings (A B : Snapshot) :
  unfiltered_found A B = false ↔
  findings (Unfiltered.compare_databases (Some (database A))
              (Some (database B))).1 = [].
Proof.
  rewrite unfiltered_findings. unfold unfiltered_found.
  rewrite !orb_false_iff.
  rewrite <- (section_findings_nil Tables), <- (section_findings_nil Views),
    <- (section_findings_nil Procedures), <- (section_findings_nil Functions),
    <- index_findings_nil, <- constraint_findings_nil.
  rewrite !app_nil. tauto.
Qed.

(** X3. The unfiltered comparison always reaches a verdict.  It passes
    exactly when the two databases hold the same keys in each of the six
    categories, whatever the order and repetition of their rows and whatever
    the attributes of their indexes; and it fails exactly when it reports at
    least one finding. *)
Theorem unfiltered_passes_iff_same_keys (A B : Snapshot) :
  let run := Unfiltered.compare_databases (Some (database A)) (Some (database B)) in
  (verdict run = Some Pass ∨ verdict run = Some Fail) ∧
  (verdict run = Some Pass ↔ ∀ c, same_keys c A B) ∧
  (verdict run = Some Pass ↔ findings run.1 = []).
Proof.
  intros run. subst run. rewrite unfiltered_verdict.
  rewrite <- unfiltered_no_findings_iff, <- unfiltered_found_iff_findings.
  destruct (unfiltered_found A B); split_and!; (by auto) || (split; by intros [=]) .
Qed.

(** ** [compare_lists] *)

(** X4. [compare_lists] answers the elements of the source list that are not
    in the target list and the elements of the target list that are not in
    the source list, whatever the order and the repetitions of the two lists
    and whatever the item name; the two answers are disjoint, and both are
    empty exactly when the two lists hold the same elements. *)
Theorem compare_lists_partition `{Countable A} (source_list target_list : list A)
  (item_name : string) :
  let d := compare_lists source_list target_list item_name in
  (∀ x, x ∈ d.1 ↔ x ∈ source_list ∧ x ∉ target_list) ∧
  (∀ x, x ∈ d.2 ↔ x ∈ target_list ∧ x ∉ source_list) ∧
  d.1 ## d.2 ∧
  (differs d = false ↔ ∀ x, x ∈ source_list ↔ x ∈ target_list).
Proof.
  intros d. subst d. unfold compare_lists. cbv zeta. cbn [fst snd].
  rewrite differs_false. cbn [fst snd].
  split_and!.
  - intros x. rewrite elem_of_difference, !elem_of_list_to_set. tauto.
  - intros x. rewrite elem_of_difference, !elem_of_list_to_set. tauto.
  - intros x. rewrite !elem_of_difference. tauto.
  - split.
    + intros [H1 H2] x.
      assert (Hx1 : x ∉ (list_to_set source_list : gset A) ∖ list_to_set target_list)
        by (rewrite H1; apply not_elem_of_empty).
      assert (Hx2 : x ∉ (list_to_set target_list : gset A) ∖ list_to_set source_list)
        by (rewrite H2; apply not_elem_of_empty).
      rewrite elem_of_difference, !elem_of_list_to_set in Hx1, Hx2.
      destruct (decide (x ∈ source_list)), (decide (x ∈ target_list)); tauto.
    + intros Hx. split; apply leibniz_equiv, elem_of_equiv_empty; intros x;
        rewrite elem_of_difference, !elem_of_list_to_set, (Hx x); tauto.
Qed.

(** ** What the filtered script never reads *)

Lemma bind_ext {A B} (m : M A) (f g : A → M B) :
  (∀ a, f a = g a) → bind m f = bind m g.
Proof. intros Hfg. destruct m as [l [a|e]]; [|done]. cbn [bind]. by rewrite Hfg. Qed.

Lemma count_tables_ignores_indexes (side : Side) (db : Catalog)
  (ix : option (list IndexRow)) (cs : option (list ConstraintKey))
  (counts : gmap Ident (option Z)) (ts : list Ident) :
  Filtered.count_tables (side, with_indexes_and_constraints db ix cs) counts ts =
  Filtered.count_tables (side, db) counts ts.
Proof.
  revert counts. induction ts as [|[schema table] ts IH]; intros counts; [done|].
  cbn [Filtered.count_tables]. apply bind_ext. intros counts'. apply IH.
Qed.

Lemma compare_row_counts_ignores_indexes (source target : Catalog)
  (ix ix' : option (list IndexRow)) (cs cs' : option (list ConstraintKey))
  (source_tables target_tables : list Ident) (missing extra : gset Ident) :
  Filtered.compare_row_counts
    (Source, with_indexes_and_constraints source ix cs)
    (Target, with_indexes_and_constraints target ix' cs')
    source_tables target_tables missing extra =
  Filtered.compare_row_counts (Source, source) (Target, target)
    source_tables target_tables missing extra.
Proof.
  unfold Filtered.compare_row_counts, Filtered.get_table_row_counts.
  destruct (negb _ && negb _); [|reflexivity].
  rewrite count_tables_ignores_indexes. apply bind_ext. intros source_counts.
  by rewrite count_tables_ignores_indexes.
Qed.

(** X5. The filtered script never queries indexes or constraints: whatever
    the two databases answer to those queries, even an error, the run logs
    the same events and ends the same way. *)
Theorem filtered_ignores_indexes_and_constraints (source target : Catalog)
  (ix ix' : option (list IndexRow)) (cs cs' : option (list ConstraintKey)) :
  Filtered.compare_databases
    (Some (with_indexes_and_constraints source ix cs))
    (Some (with_indexes_and_constraints target ix' cs')) =
  Filtered.compare_databases (Some source) (Some target) ∧
  Filtered.main
    (Some (with_indexes_and_constraints source ix cs))
    (Some (with_indexes_and_constraints target ix' cs')) =
  Filtered.main (Some source) (Some target).
Proof.
  assert (H : Filtered.compare_databases
                (Some (with_indexes_and_constraints source ix cs))
                (Some (with_indexes_and_constraints target ix' cs')) =
              Filtered.compare_databases (Some source) (Some target)).
  { unfold Filtered.compare_databases. cbv zeta.
    apply bind_ext. intros source_tables. apply bind_ext. intros target_tables.
    destruct (compare_lists source_tables target_tables _) as [missing extra].
    apply bind_ext. intros d_tables.
    by rewrite compare_row_counts_ignores_indexes. }
  split; [exact H|]. unfold Filtered.main. by rewrite H.
Qed.

(** ** The enumeration queries of a run *)

Section printed.
Context {C : Type} (f : Event → option C).
Hypothesis queries_only : ∀ e, is_query e = false → f e = None.

Lemma omap_printed (l : list Event) :
  Forall (λ e, is_query e = false) l → omap f l = [].
Proof.
  induction 1 as [|e l He _ IH]; [done|].
  cbn [omap list_omap]. by rewrite (queries_only e He).
Qed.

Lemma section_log_printed (c : ObjectCategory) (d : gset Ident * gset Ident)
  (e : Event) :
  is_query e = false → omap f (section_log c d e) = [].
Proof.
  intros He. apply omap_printed. unfold section_log.
  destruct (differs d); [|by repeat constructor].
  apply Forall_app. split.
  - destruct (truthy d.1); [|constructor].
    constructor; [done|]. by apply Forall_fmap, Forall_true.
  - destruct (truthy d.2); [|constructor].
    constructor; [done|]. by apply Forall_fmap, Forall_true.
Qed.

Lemma index_section_log_printed (A B : Snapshot) :
  omap f (index_section_log A B) = [].
Proof.
  apply omap_printed.
  unfold index_section_log. destruct (differs _); [|by repeat constructor].
  apply Forall_app. split.
  - destruct (truthy _); [|constructor]. constructor; [done|].
    apply Forall_forall. intros e (l & Hl & He)%list_elem_of_join.
    apply list_elem_of_fmap in He as (k & -> & _).
    unfold missing_index_events, Unfiltered.print_missing_index in Hl.
    destruct (filter _ _) as [|[[[[[? ?] ?] ?] ?] ?] ?]; simpl in Hl.
    + by apply elem_of_nil in Hl.
    + by apply list_elem_of_singleton in Hl as ->.
  - destruct (truthy _); [|constructor].
    constructor; [done|]. by apply Forall_fmap, Forall_true.
Qed.

Lemma constraint_section_log_printed (A B : Snapshot) :
  omap f (constraint_section_log A B) = [].
Proof.
  apply omap_printed.
  unfold constraint_section_log. destruct (differs _); [|by repeat constructor].
  apply Forall_app. split.
  - destruct (truthy _); [|constructor]. constructor; [done|].
    apply Forall_forall. intros e (l & Hl & He)%list_elem_of_join.
    apply list_elem_of_fmap in He as (g & -> & _).
    unfold group_events in Hl. apply elem_of_cons in Hl as [->|Hl]; [done|].
    by apply list_elem_of_fmap in Hl as (k & -> & _).
  - destruct (truthy _); [|constructor].
    constructor; [done|]. by apply Forall_fmap, Forall_true.
Qed.

Lemma match_or_none_printed (c : ObjectCategory) (n : nat) :
  is_query (match_or_none c n) = false.
Proof. unfold match_or_none. by destruct (decide _). Qed.

Lemma unfiltered_summary_printed (A B : Snapshot) :
  f (unfiltered_summary A B) = None.
Proof.
  apply queries_only. unfold unfiltered_summary. by destruct (unfiltered_found A B).
Qed.

Lemma filtered_summary_printed (A B : Snapshot) (found : bool) :
  f (filtered_summary A B found) = None.
Proof. apply queries_only. unfold filtered_summary. by destruct found. Qed.

End printed.

Lemma enumerations_row_counts_run (A B : Snapshot) (ts tt : list Ident) :
  enumerations (row_counts_run A B ts tt).1 = [].
Proof.
  assert (Hc : ∀ side l, omap enumeration_of (count_events side l) = []).
  { intros side l. apply omap_fmap_None. by intros [schema table]. }
  unfold row_counts_run, enumerations.
  destruct (row_count_diffs A B ts) as [|d diffs];
    [destruct (decide _)|]; cbn [fst]; rewrite !omap_app, !Hc;
    cbn [omap list_omap enumeration_of app]; try done.
  by rewrite (omap_fmap_None enumeration_of diff_line).
Qed.

(** X6. A comparison never stops at a difference: on two databases whose
    enumeration queries answer, the unfiltered run issues its six queries on
    the source and then the target, category by category, whatever it
    finds; the filtered run issues the table queries and, unless the row
    counts stop it, the view, procedure and function queries. *)
Theorem enumeration_queries_issued (A B : Snapshot) :
  enumerations (Unfiltered.compare_databases (Some (database A))
                  (Some (database B))).1 =
    on_both SelectTables ++ on_both SelectViews ++ on_both SelectProcedures ++
    on_both SelectFunctions ++ on_both SelectIndexes ++ on_both SelectConstraints ∧
  (let run := Filtered.compare_databases (Some (database A)) (Some (database B)) in
   enumerations run.1 =
     on_both SelectTables ++
     match run.2 with
     | Ok _ => on_both SelectViews ++ on_both SelectProcedures ++
               on_both SelectFunctions
     | Raise _ => []
     end).
Proof.
  assert (Hq : ∀ e, is_query e = false → enumeration_of e = None)
    by (by intros []).
  split.
  - rewrite unfiltered_run. cbn [fst]. unfold unfiltered_log, enumerations.
    rewrite !omap_app, !(section_log_printed _ Hq) by done.
    rewrite (index_section_log_printed _ Hq), (constraint_section_log_printed _ Hq).
    cbn [omap list_omap]. by rewrite (unfiltered_summary_printed _ Hq).
  - cbv zeta. rewrite filtered_run.
    pose proof (enumerations_row_counts_run A B (filtered_tables A) (filtered_tables B))
      as Hrc.
    unfold filtered_row_counts.
    destruct (differs (filtered_table_diff A B)).
    + cbn [fst snd]. unfold filtered_head, filtered_tail, enumerations.
      rewrite !omap_app, !(section_log_printed _ Hq)
        by (done || apply match_or_none_printed).
      cbn [omap list_omap]. by rewrite (filtered_summary_printed _ Hq).
    + destruct (row_counts_run A B _ _) as [lc [d_counts|e]]; cbn [fst snd] in *.
      * unfold filtered_head, filtered_tail, enumerations.
        rewrite !omap_app, !(section_log_printed _ Hq)
          by (done || apply match_or_none_printed).
        fold (enumerations lc). rewrite Hrc.
        cbn [omap list_omap]. by rewrite (filtered_summary_printed _ Hq).
      * unfold filtered_head, enumerations.
        rewrite !omap_app, !(section_log_printed _ Hq) by done.
        fold (enumerations lc). by rewrite Hrc.
Qed.

(** ** What the filtered run reports, by key; the exclusion policy (C4) *)

Lemma mismatch_not_object (l : list (Ident * option Z * option Z)) (f : Finding) :
  f ∈ mismatch_finding <$> l → finding_tag f = None.
Proof. by intros (d & -> & _)%list_elem_of_fmap. Qed.

Lemma elem_of_filtered_findings (A B : Snapshot) (c : ObjectCategory)
  (key : list string) :
  let run := Filtered.compare_databases (Some (database A)) (Some (database B)) in
  (MissingObject c key ∈ findings run.1 ↔
     filtered_reaches c run ∧
     key ∈ ident_key <$> filtered_rows c A ∧ key ∉ ident_key <$> filtered_rows c B) ∧
  (ExtraObject c key ∈ findings run.1 ↔
     filtered_reaches c run ∧
     key ∈ ident_key <$> filtered_rows c B ∧ key ∉ ident_key <$> filtered_rows c A).
Proof.
  intros run. unfold filtered_reaches, verdict. subst run. rewrite filtered_findings.
  cbv zeta.
  destruct (elem_of_section_findings_keys c Tables (filtered_tables A)
              (filtered_tables B) "table" key) as [Ht1 Ht2].
  destruct (elem_of_section_findings_keys c Views (views A) (views B) "view" key)
    as [Hv1 Hv2].
  destruct (elem_of_section_findings_keys c Procedures (filtered_procedures A)
              (filtered_procedures B) "procedure" key) as [Hp1 Hp2].
  destruct (elem_of_section_findings_keys c Functions (filtered_functions A)
              (filtered_functions B) "function" key) as [Hf1 Hf2].
  fold (filtered_table_diff A B) in Ht1, Ht2. fold (view_diff A B) in Hv1, Hv2.
  fold (filtered_procedure_diff A B) in Hp1, Hp2.
  fold (filtered_function_diff A B) in Hf1, Hf2.
  assert (Hm1 : ∀ l : list (Ident * option Z * option Z),
            MissingObject c key ∈ mismatch_finding <$> l ↔ False)
    by (intros l; split; [by intros ?%mismatch_not_object | done]).
  assert (Hm2 : ∀ l : list (Ident * option Z * option Z),
            ExtraObject c key ∈ mismatch_finding <$> l ↔ False)
    by (intros l; split; [by intros ?%mismatch_not_object | done]).
  destruct ((Filtered.compare_databases _ _).2) as [[]|e];
    rewrite !elem_of_app, ?elem_of_nil, Ht1, Ht2, ?Hv1, ?Hv2, ?Hp1, ?Hp2, ?Hf1, ?Hf2,
      Hm1, Hm2;
    clear; destruct c; cbn [filtered_rows]; rewrite ?fmap_nil, ?elem_of_nil;
    split; (split; intros H); intuition congruence.
Qed.

Lemma filtered_keys_listed (c : ObjectCategory) (A B : Snapshot) (key : list string) :
  key ∈ ident_key <$> filtered_rows c A ∧ key ∉ ident_key <$> filtered_rows c B ↔
  ∃ schema name, key = [schema; name] ∧ (name ∉ excluded_names c) ∧
    (schema, name) ∈ listed c A ∧ (schema, name) ∉ listed c B.
Proof.
  rewrite !list_elem_of_fmap. split.
  - intros [([schema name] & -> & Hin) Hn]. exists schema, name.
    apply elem_of_filtered_rows in Hin as [Hin Hex]. split_and!; [done..|].
    intros HB. apply Hn. exists (schema, name). split; [done|].
    by apply elem_of_filtered_rows.
  - intros (schema & name & -> & Hex & Hin & Hn). split.
    + exists (schema, name). split; [done|]. by apply elem_of_filtered_rows.
    + intros ([s n] & [= -> ->] & HB). by apply elem_of_filtered_rows in HB as [HB _].
Qed.

Lemma object_keys_listed (c : ObjectCategory) (s : Snapshot) :
  c ≠ Indexes → c ≠ Constraints → object_keys c s = ident_key <$> listed c s.
Proof. by destruct c. Qed.

(** C4. In the filtered mode an object of a category is dropped exactly when
    its name is on that category's list (one table name, seven procedure
    names, one function name), compared as is and whatever its schema: the
    four readers of the filtered script return the rows the database lists
    less the rows with such a name.  The rows are dropped before they are
    diffed, so an excluded object is in neither side of its category's diff
    and is never reported missing or extra; and an object whose name is not
    excluded is reported, when the run reaches its category, exactly when one
    side lists it and the other does not.  In scenario D the filtered mode
    passes, and the unfiltered mode fails and reports the procedure
    missing. *)
Theorem excluded_objects_invisible (A B : Snapshot) (c : ObjectCategory)
  (schema name : string) :
  let run := Filtered.compare_databases (Some (database A)) (Some (database B)) in
  (∀ side : Side,
     (Filtered.get_tables (side, database A)).2 = Ok (filtered_rows Tables A) ∧
     (Filtered.get_views (side, database A)).2 = Ok (filtered_rows Views A) ∧
     (Filtered.get_procedures (side, database A)).2 = Ok (filtered_rows Procedures A) ∧
     (Filtered.get_functions (side, database A)).2 = Ok (filtered_rows Functions A)) ∧
  ((schema, name) ∈ filtered_rows c A ↔
     (schema, name) ∈ listed c A ∧ (name ∉ excluded_names c)) ∧
  (name ∈ excluded_names c ↔
     (c = Tables ∧ name = "sysdiagrams") ∨
     (c = Procedures ∧
       name ∈ ["sp_alterdiagram"; "sp_creatediagram"; "sp_dropdiagram";
               "sp_helpdiagramdefinition"; "sp_helpdiagrams";
               "sp_renamediagram"; "sp_upgraddiagrams"]) ∨
     (c = Functions ∧ name = "fn_diagramobjects")) ∧
  (name ∈ excluded_names c →
     ((schema, name) ∉ (filtered_diff c A B).1) ∧
     ((schema, name) ∉ (filtered_diff c A B).2) ∧
     (MissingObject c [schema; name] ∉ findings run.1) ∧
     (ExtraObject c [schema; name] ∉ findings run.1)) ∧
  (filtered_reaches c run →
     (MissingObject c [schema; name] ∈ findings run.1 ↔
        (schema, name) ∈ listed c A ∧ ((schema, name) ∉ listed c B) ∧
        (name ∉ excluded_names c)) ∧
     (ExtraObject c [schema; name] ∈ findings run.1 ↔
        (schema, name) ∈ listed c B ∧ ((schema, name) ∉ listed c A) ∧
        (name ∉ excluded_names c))) ∧
  ("Sysdiagrams" ∉ excluded_names Tables) ∧
  verdict (Filtered.compare_databases (Some (database scenario_D_source))
             (Some (database scenario_D_target))) = Some Pass ∧
  (let unfiltered := Unfiltered.compare_databases (Some (database scenario_D_source))
                       (Some (database scenario_D_target)) in
   verdict unfiltered = Some Fail ∧
   findings unfiltered.1 = [MissingObject Procedures ["dbo"; "sp_creatediagram"]]).
Proof.
  intros run.
  assert (Hex : name ∈ excluded_names c →
    ((schema, name) ∉ (filtered_diff c A B).1) ∧
    ((schema, name) ∉ (filtered_diff c A B).2)).
  { intros Hn.
    destruct (elem_of_filtered_diff c A B (schema, name)) as [-> ->].
    rewrite !elem_of_filtered_rows. tauto. }
  split_and!.
  - intros side. split_and!; reflexivity.
  - apply elem_of_filtered_rows.
  - destruct c; cbn [excluded_names]; unfold Filtered.EXCLUDED_TABLES,
      Filtered.EXCLUDED_PROCEDURES, Filtered.EXCLUDED_FUNCTIONS;
      rewrite ?elem_of_union, ?elem_of_singleton, ?elem_of_cons, ?elem_of_nil,
        ?elem_of_empty;
      intuition congruence.
  - intros Hn. destruct (Hex Hn) as [H1 H2].
    destruct (reported_in_filtered_diff A B c schema name) as [H3 H4].
    split_and!; [done | done | |]; intros H; [by apply H1, H3 | by apply H2, H4].
  - intros Hreach. subst run.
    destruct (elem_of_filtered_findings A B c [schema; name]) as [-> ->].
    rewrite !filtered_keys_listed. split; split.
    + intros (_ & s & n & [= <- <-] & ?). tauto.
    + intros (? & ? & ?). split; [done|]. by exists schema, name.
    + intros (_ & s & n & [= <- <-] & ?). tauto.
    + intros (? & ? & ?). split; [done|]. by exists schema, name.
  - by vm_compute.
  - reflexivity.
  - cbv zeta. split; reflexivity.
Qed.

(** X7. When the filtered run reaches the step of a category, it reports an
    object of that category missing exactly when the source lists it, the
    target does not, and its name is not excluded; and extra in the converse
    case.  The table step is always reached, the later steps when the run
    gives a verdict. *)
Theorem filtered_reports_exactly (A B : Snapshot) (c : ObjectCategory)
  (schema name : string) :
  let run := Filtered.compare_databases (Some (database A)) (Some (database B)) in
  filtered_reaches c run →
  (MissingObject c [schema; name] ∈ findings run.1 ↔
     (schema, name) ∈ listed c A ∧ ((schema, name) ∉ listed c B) ∧
     (name ∉ excluded_names c)) ∧
  (ExtraObject c [schema; name] ∈ findings run.1 ↔
     (schema, name) ∈ listed c B ∧ ((schema, name) ∉ listed c A) ∧
     (name ∉ excluded_names c)).
Proof.
  intros run Hreach. subst run.
  destruct (elem_of_filtered_findings A B c [schema; name]) as [-> ->].
  rewrite !filtered_keys_listed. split; split.
  - intros (_ & s & n & [= <- <-] & ?). tauto.
  - intros (? & ? & ?). split; [done|]. by exists schema, name.
  - intros (_ & s & n & [= <- <-] & ?). tauto.
  - intros (? & ? & ?). split; [done|]. by exists schema, name.
Qed.

Lemma filtered_reports_exactly_witness :
  filtered_reaches Tables
    (Filtered.compare_databases (Some (database scenario_A_source))
       (Some (database scenario_A_target))) ∧
  (MissingObject Tables ["dbo"; "Orders"] ∈
     findings (Filtered.compare_databases (Some (database scenario_A_source))
                 (Some (database scenario_A_target))).1 ↔
   orders ∈ listed Tables scenario_A_source ∧
   (orders ∉ listed Tables scenario_A_target) ∧
   ("Orders" ∉ excluded_names Tables)).
Proof.
  split; [by left|].
  apply (filtered_reports_exactly scenario_A_source scenario_A_target Tables
           "dbo" "Orders"). by left.
Defined.

(** X8. Every object the filtered run reports missing or extra is reported
    the same way by the unfiltered run on the same two databases, which then
    fails. *)
Theorem filtered_findings_in_unfiltered (A B : Snapshot) (c : ObjectCategory)
  (key : list string) :
  let filtered := Filtered.compare_databases (Some (database A)) (Some (database B)) in
  let unfiltered :=
    Unfiltered.compare_databases (Some (database A)) (Some (database B)) in
  (MissingObject c key ∈ findings filtered.1 →
   MissingObject c key ∈ findings unfiltered.1) ∧
  (ExtraObject c key ∈ findings filtered.1 →
   ExtraObject c key ∈ findings unfiltered.1) ∧
  (MissingObject c key ∈ findings filtered.1 ∨
   ExtraObject c key ∈ findings filtered.1 →
   verdict unfiltered = Some Fail).
Proof.
  intros filtered unfiltered. subst filtered unfiltered.
  destruct (elem_of_filtered_findings A B c key) as [Hm He].
  destruct (unfiltered_reported A B c key) as [Hum Hue].
  cbv zeta in *.
  assert (Hc : ∀ run, filtered_reaches c run → c ≠ Indexes ∧ c ≠ Constraints).
  { intros run [->|[[->|[->| ->]] _]]; done. }
  assert (H1 : MissingObject c key ∈
                 findings (Filtered.compare_databases (Some (database A))
                             (Some (database B))).1 →
               MissingObject c key ∈
                 findings (Unfiltered.compare_databases (Some (database A))
                             (Some (database B))).1).
  { rewrite Hm, Hum. intros (Hr & Hk). apply Hc in Hr as [? ?].
    rewrite !object_keys_listed by done.
    apply filtered_keys_listed in Hk as (s & n & -> & Hex & HA & HB).
    rewrite !list_elem_of_fmap. split; [by exists (s, n)|].
    by intros ([s' n'] & [= -> ->] & ?). }
  assert (H2 : ExtraObject c key ∈
                 findings (Filtered.compare_databases (Some (database A))
                             (Some (database B))).1 →
               ExtraObject c key ∈
                 findings (Unfiltered.compare_databases (Some (database A))
                             (Some (database B))).1).
  { rewrite He, Hue. intros (Hr & Hk). apply Hc in Hr as [? ?].
    rewrite !object_keys_listed by done.
    apply filtered_keys_listed in Hk as (s & n & -> & Hex & HA & HB).
    rewrite !list_elem_of_fmap. split; [by exists (s, n)|].
    by intros ([s' n'] & [= -> ->] & ?). }
  split_and!; [done | done |].
  intros H.
  assert (Hne : findings (Unfiltered.compare_databases (Some (database A))
                            (Some (database B))).1 ≠ []).
  { intros Hnil. destruct H as [H|H]; [apply H1 in H | apply H2 in H];
      rewrite Hnil in H; by apply elem_of_nil in H. }
  rewrite unfiltered_verdict.
  destruct (unfiltered_found A B) eqn:Hf; [done|].
  by apply unfiltered_found_iff_findings in Hf.
Qed.

(** ** Verdict, findings and exit status *)

(** X9. The verdict of a filtered run agrees with what it reports: the run
    fails exactly when it reports a finding; when it reports none it passes,
    unless some compared table has a null count, in which case it gives no
    verdict and ends with a [TypeError]. *)
Theorem filtered_verdict_agrees_with_findings (A B : Snapshot) :
  let run := Filtered.compare_databases (Some (database A)) (Some (database B)) in
  (verdict run = Some Fail ↔ findings run.1 ≠ []) ∧
  (verdict run = Some Pass ↔
     findings run.1 = [] ∧ ¬ has_null_count A (filtered_tables A)) ∧
  (verdict run = None ↔
     findings run.1 = [] ∧ has_null_count A (filtered_tables A)) ∧
  (verdict run = None ↔ run.2 = Raise TypeError).
Proof.
  intros run. subst run. rewrite filtered_findings. cbv zeta.
  unfold verdict. rewrite filtered_outcome.
  pose proof (section_findings_nil Tables (filtered_table_diff A B)) as Ht.
  pose proof (section_findings_nil Views (view_diff A B)) as Hv.
  pose proof (section_findings_nil Procedures (filtered_procedure_diff A B)) as Hp.
  pose proof (section_findings_nil Functions (filtered_function_diff A B)) as Hf.
  destruct (differs (filtered_table_diff A B)).
  - assert (Hne : section_findings Tables (filtered_table_diff A B) ≠ [])
      by (intros H; by apply Ht in H).
    destruct (section_findings Tables _); [done|].
    split_and!; split; try done; by intros [? ?].
  - rewrite (proj2 Ht eq_refl). cbn [app].
    destruct (row_count_diffs A B (filtered_tables A)) as [|d diffs].
    + cbn [fmap list_fmap app].
      destruct (decide (has_null_count A (filtered_tables A))) as [Hn|Hn].
      * split_and!; split; try done; by intros [? ?].
      * destruct (differs (view_diff A B)).
        { assert (Hne : section_findings Views (view_diff A B) ≠ [])
            by (intros H; by apply Hv in H).
          destruct (section_findings Views _); [done|].
          split_and!; split; try done; by intros [? ?]. }
        rewrite (proj2 Hv eq_refl). cbn [app orb].
        destruct (differs (filtered_procedure_diff A B)).
        { assert (Hne : section_findings Procedures (filtered_procedure_diff A B) ≠ [])
            by (intros H; by apply Hp in H).
          destruct (section_findings Procedures _); [done|].
          split_and!; split; try done; by intros [? ?]. }
        rewrite (proj2 Hp eq_refl). cbn [app orb].
        destruct (differs (filtered_function_diff A B)).
        { assert (Hne : section_findings Functions (filtered_function_diff A B) ≠ [])
            by (intros H; by apply Hf in H).
          destruct (section_findings Functions _); [done|].
          split_and!; split; try done; by intros [? ?]. }
        rewrite (proj2 Hf eq_refl). cbn [negb].
        split_and!; split; try done; by intros [? ?].
    + split_and!; split; try done; by intros [? ?].
Qed.

(** X11. Comparing a database with itself reports nothing in either mode.
    The unfiltered mode passes; the filtered mode passes exactly when none of
    the compared tables has a null count, and ends with a [TypeError]
    otherwise. *)
Theorem self_comparison (A : Snapshot) :
  let unfiltered :=
    Unfiltered.compare_databases (Some (database A)) (Some (database A)) in
  let filtered :=
    Filtered.compare_databases (Some (database A)) (Some (database A)) in
  findings unfiltered.1 = [] ∧ verdict unfiltered = Some Pass ∧
  findings filtered.1 = [] ∧
  (verdict filtered = Some Pass ↔ ¬ has_null_count A (filtered_tables A)) ∧
  (filtered.2 = Raise TypeError ↔ has_null_count A (filtered_tables A)).
Proof.
  intros unfiltered filtered. subst unfiltered filtered.
  destruct (unfiltered_self_comparison A) as [Hu1 Hu2]. cbv zeta in Hu1, Hu2.
  split; [done|]. split; [done|].
  rewrite filtered_findings. cbv zeta. unfold verdict. rewrite filtered_outcome.
  unfold filtered_table_diff, view_diff, filtered_procedure_diff,
    filtered_function_diff.
  rewrite !differs_self, !section_findings_self, row_count_diffs_self.
  cbn [fmap list_fmap app orb negb].
  destruct (decide (has_null_count A (filtered_tables A))) as [Hn|Hn];
    split_and!; try done; split; done.
Qed.

(** ** The lines of the missing indexes *)

(** A projection of the log that sees none of the lines of an
    identity-keyed category. *)
Lemma omap_section_log {C} (f : Event → option C) (c : ObjectCategory)
  (d : gset Ident * gset Ident) (e : Event) :
  (∀ n, f (MissingHeader c n) = None) → (∀ key, f (MissingLine c key) = None) →
  (∀ n, f (ExtraHeader c n) = None) → (∀ key, f (ExtraLine c key) = None) →
  f e = None →
  omap f (section_log c d e) = [].
Proof.
  intros Hmh Hml Heh Hel He. unfold section_log.
  destruct (differs d); [|cbn [omap list_omap]; by rewrite He].
  rewrite omap_app.
  destruct (truthy d.1), (truthy d.2); cbn [omap list_omap app];
    rewrite ?Hmh, ?Heh,
      ?(omap_fmap_None f (λ k, MissingLine c (ident_key k))),
      ?(omap_fmap_None f (λ k, ExtraLine c (ident_key k))); done.
Qed.

Lemma missing_index_events_line (A : Snapshot) (k : IndexKey) :
  k ∈ Unfiltered.idx_key <$> indexes A →
  ∃ idx, idx ∈ indexes A ∧ Unfiltered.idx_key idx = k ∧
         missing_index_events A k = [MissingIndexLine (index_key k)
                                       (index_line idx).1.2 (index_line idx).2].
Proof.
  intros (idx & -> & Hin)%list_elem_of_fmap.
  unfold missing_index_events, Unfiltered.print_missing_index.
  destruct (filter _ (indexes A)) as [|idx' l] eqn:Hf.
  - assert (idx ∈ filter (λ idx', Unfiltered.idx_key idx' = Unfiltered.idx_key idx)
                     (indexes A)) as Hin'
      by by apply list_elem_of_filter.
    rewrite Hf in Hin'. by apply elem_of_nil in Hin'.
  - assert (Hin' : idx' ∈ filter (λ i, Unfiltered.idx_key i = Unfiltered.idx_key idx)
                            (indexes A)) by (rewrite Hf; left).
    apply list_elem_of_filter in Hin' as [Hk Hin'].
    exists idx'. split_and!; [done..|].
    by destruct idx' as [[[[[? ?] ?] ?] ?] ?].
Qed.

Lemma missing_index_lines_section (A B : Snapshot) :
  Forall2 (λ line k, ∃ idx, idx ∈ indexes A ∧ Unfiltered.idx_key idx = k ∧
                            line = index_line idx)
    (missing_index_lines (index_section_log A B)) (sorted (index_diff A B).1).
Proof.
  unfold index_section_log, missing_index_lines. cbv zeta.
  assert (Hall : Forall (λ k, k ∈ Unfiltered.idx_key <$> indexes A)
                   (sorted (index_diff A B).1)).
  { apply Forall_forall. intros k Hk%elem_of_sorted.
    unfold index_diff in Hk. cbn [fst] in Hk.
    apply elem_of_difference in Hk as [Hk _]. by apply elem_of_list_to_set in Hk. }
  assert (Hlines : Forall2 (λ line k, ∃ idx, idx ∈ indexes A ∧
                               Unfiltered.idx_key idx = k ∧ line = index_line idx)
            (omap index_line_of
               (mjoin (missing_index_events A <$> sorted (index_diff A B).1)))
            (sorted (index_diff A B).1)).
  { induction Hall as [|k l Hk _ IH]; [constructor|].
    rewrite fmap_cons. change (mjoin (?x :: ?xs)) with (x ++ mjoin xs).
    destruct (missing_index_events_line A k Hk) as (idx & Hin & Hkey & ->).
    cbn [app omap list_omap index_line_of]. constructor; [|done].
    exists idx. split_and!; [done..|].
    destruct idx as [[[[[s t] n] ty] u] pk]. simpl in Hkey. by subst k. }
  unfold differs.
  destruct (truthy (index_diff A B).1) eqn:H1, (truthy (index_diff A B).2) eqn:H2;
    cbn [orb]; rewrite ?omap_app;
    cbn [omap list_omap index_line_of app];
    rewrite ?(omap_fmap_None index_line_of (λ k, ExtraLine Indexes (index_key k)))
      by done;
    rewrite ?app_nil_r; try done.
  - apply truthy_false in H1. rewrite H1, sorted_empty. constructor.
  - apply truthy_false in H1. rewrite H1, sorted_empty. constructor.
Qed.

(** X12. The unfiltered run prints one line for each index missing in the
    target, in the sorted order of their keys, and none for any other index;
    the line shows the key, the index type and the flags of a row the source
    lists for that index, the primary-key flag before the unique flag. *)
Theorem missing_indexes_printed_once (A B : Snapshot) :
  let log := (Unfiltered.compare_databases (Some (database A))
                (Some (database B))).1 in
  Forall2 (λ line k, ∃ idx, idx ∈ indexes A ∧ Unfiltered.idx_key idx = k ∧
                            line = index_line idx)
    (missing_index_lines log) (sorted (index_diff A B).1) ∧
  (∀ k, k ∈ sorted (index_diff A B).1 ↔
        k ∈ Unfiltered.idx_key <$> indexes A ∧ k ∉ Unfiltered.idx_key <$> indexes B) ∧
  StronglySorted py_le (sorted (index_diff A B).1) ∧
  NoDup (sorted (index_diff A B).1).
Proof.
  intros log. subst log. rewrite unfiltered_run. cbn [fst].
  split_and!.
  - unfold unfiltered_log, missing_index_lines.
    rewrite !omap_app, !omap_section_log by done.
    fold (missing_index_lines (index_section_log A B)).
    assert (omap index_line_of (constraint_section_log A B) = []) as ->.
    { unfold constraint_section_log. cbv zeta.
      assert (Hg : omap index_line_of
                     (mjoin (group_events <$> constraint_groups (constraint_diff A B).1))
                   = []).
      { induction (constraint_groups _) as [|g gs IH]; [done|].
        rewrite fmap_cons. change (mjoin (?x :: ?xs)) with (x ++ mjoin xs).
        rewrite omap_app, IH. unfold group_events. cbn [omap list_omap index_line_of].
        by rewrite (omap_fmap_None index_line_of
                      (λ k, MissingConstraintLine g.1 (index_key k))). }
      destruct (differs _); [|done]. rewrite omap_app.
      destruct (truthy _), (truthy _); cbn [omap list_omap index_line_of app];
        rewrite ?Hg,
          ?(omap_fmap_None index_line_of
              (λ k, ExtraLine Constraints (constraint_key k))); done. }
    assert (index_line_of (unfiltered_summary A B) = None) as Hs
      by (unfold unfiltered_summary; by destruct (unfiltered_found A B)).
    cbn [omap list_omap index_line_of app]. rewrite Hs, ?app_nil_r.
    apply missing_index_lines_section.
  - intros k. rewrite elem_of_sorted. unfold index_diff. cbn [fst].
    by rewrite elem_of_difference, !elem_of_list_to_set.
  - apply sorted_StronglySorted.
  - apply sorted_NoDup.
Qed.

(** ** The counts of the summary *)

Lemma length_sorted `{Countable K, PyOrd K, !RelDecision (py_le (A:=K)),
  !PyTotalOrder K} (s : gset K) : length (sorted s) = size s.
Proof. apply Permutation_length, sorted_Permutation. Qed.

Section counting.
Context (t : option (ObjectCategory * bool)).

Lemma tagged_app (l1 l2 : list Finding) : tagged t (l1 ++ l2) = tagged t l1 + tagged t l2.
Proof. unfold tagged. by rewrite filter_app, length_app. Qed.

Lemma tagged_fmap {K} (g : K → Finding) (t' : option (ObjectCategory * bool))
  (l : list K) :
  (∀ k, finding_tag (g k) = t') →
  tagged t (g <$> l) = if decide (t' = t) then length l else 0.
Proof.
  intros Hg. unfold tagged. induction l as [|k l IH]; [by destruct (decide _)|].
  rewrite fmap_cons, filter_cons, Hg.
  destruct (decide (t' = t)); cbn [length]; by rewrite IH.
Qed.

Lemma tagged_section (c : ObjectCategory) (d : gset Ident * gset Ident) :
  tagged t (section_findings c d) =
  (if decide (Some (c, true) = t) then size d.1 else 0) +
  (if decide (Some (c, false) = t) then size d.2 else 0).
Proof.
  unfold section_findings. rewrite tagged_app.
  rewrite (tagged_fmap _ (Some (c, true))), (tagged_fmap _ (Some (c, false))) by done.
  by rewrite !length_sorted.
Qed.

Lemma tagged_index (d : gset IndexKey * gset IndexKey) :
  tagged t (index_findings d) =
  (if decide (Some (Indexes, true) = t) then size d.1 else 0) +
  (if decide (Some (Indexes, false) = t) then size d.2 else 0).
Proof.
  unfold index_findings. rewrite tagged_app.
  rewrite (tagged_fmap _ (Some (Indexes, true))),
    (tagged_fmap _ (Some (Indexes, false))) by done.
  by rewrite !length_sorted.
Qed.

Lemma tagged_constraint (d : gset ConstraintKey * gset ConstraintKey) :
  tagged t (constraint_findings d) =
  (if decide (Some (Constraints, true) = t) then size d.1 else 0) +
  (if decide (Some (Constraints, false) = t) then size d.2 else 0).
Proof.
  unfold constraint_findings. rewrite tagged_app.
  rewrite (tagged_fmap _ (Some (Constraints, true))),
    (tagged_fmap _ (Some (Constraints, false))) by done.
  destruct (grouped_constraints_sorted d.1) as [_ Hp].
  by rewrite (Permutation_length Hp), length_fmap, length_sorted.
Qed.


End counting.

Lemma missing_count_tagged (c : ObjectCategory) (fs : list Finding) :
  missing_count c fs = tagged (Some (c, true)) fs.
Proof.
  unfold missing_count, tagged, is_missing. f_equal.
  induction fs as [|f fs IH]; [done|]. rewrite !filter_cons, IH.
  destruct (decide (finding_tag f = Some (c, true))) as [Hf|Hf].
  - by rewrite decide_True by (by apply bool_decide_pack).
  - rewrite decide_False; [done|]. by intros ?%bool_decide_unpack.
Qed.

Lemma extra_count_tagged (c : ObjectCategory) (fs : list Finding) :
  extra_count c fs = tagged (Some (c, false)) fs.
Proof.
  unfold extra_count, tagged, is_extra. f_equal.
  induction fs as [|f fs IH]; [done|]. rewrite !filter_cons, IH.
  destruct (decide (finding_tag f = Some (c, false))) as [Hf|Hf].
  - by rewrite decide_True by (by apply bool_decide_pack).
  - rewrite decide_False; [done|]. by intros ?%bool_decide_unpack.
Qed.

Lemma unfiltered_counts (A B : Snapshot) (missing : bool) :
  let fs := findings (Unfiltered.compare_databases (Some (database A))
                        (Some (database B))).1 in
  let pick {K} `{Countable K} (d : gset K * gset K) :=
    if missing then size d.1 else size d.2 in
  tagged (Some (Tables, missing)) fs = pick (table_diff A B) ∧
  tagged (Some (Views, missing)) fs = pick (view_diff A B) ∧
  tagged (Some (Procedures, missing)) fs = pick (procedure_diff A B) ∧
  tagged (Some (Functions, missing)) fs = pick (function_diff A B) ∧
  tagged (Some (Indexes, missing)) fs = pick (index_diff A B) ∧
  tagged (Some (Constraints, missing)) fs = pick (constraint_diff A B).
Proof.
  cbv zeta. rewrite unfiltered_findings.
  rewrite !tagged_app, !tagged_section, !tagged_index, !tagged_constraint.
  destruct missing; split_and!;
    repeat (first [rewrite decide_True by done | rewrite decide_False by done]);
    lia.
Qed.





Lemma header_if_size `{Countable K} (c : ObjectCategory) (missing : bool)
  (s : gset K) (l : list Event) (h : Event) :
  header_of h = Some (c, missing, size s) → omap header_of l = [] →
  omap header_of (if truthy s then h :: l else []) = header_if c missing (size s).
Proof.
  intros Hh Hl. unfold header_if.
  destruct (truthy s) eqn:Hs.
  - cbn [omap list_omap]. rewrite Hh, Hl.
    rewrite decide_False; [done|].
    intros Hz. apply size_empty_inv, leibniz_equiv in Hz.
    apply truthy_false in Hz. congruence.
  - apply truthy_false in Hs. subst s. by rewrite size_empty.
Qed.

Lemma headers_section_log (c : ObjectCategory) (d : gset Ident * gset Ident)
  (e : Event) :
  header_of e = None →
  headers (section_log c d e) =
  header_if c true (size d.1) ++ header_if c false (size d.2).
Proof.
  intros He. unfold section_log, headers, differs.
  destruct (truthy d.1 || truthy d.2) eqn:Hd.
  - rewrite omap_app.
    rewrite (header_if_size c true), (header_if_size c false); try done;
      by apply omap_fmap_None.
  - apply orb_false_iff in Hd as [H1%truthy_false H2%truthy_false].
    rewrite H1, H2, size_empty. cbn [omap list_omap]. by rewrite He.
Qed.

Lemma headers_index_section_log (A B : Snapshot) :
  headers (index_section_log A B) =
  header_if Indexes true (size (index_diff A B).1) ++
  header_if Indexes false (size (index_diff A B).2).
Proof.
  unfold index_section_log, headers, differs. cbv zeta.
  destruct (truthy (index_diff A B).1 || truthy (index_diff A B).2) eqn:Hd.
  - rewrite omap_app.
    rewrite (header_if_size Indexes true), (header_if_size Indexes false);
      try done; [by apply omap_fmap_None|].
    induction (sorted (index_diff A B).1) as [|k l IH]; [done|].
    rewrite fmap_cons. change (mjoin (?x :: ?xs)) with (x ++ mjoin xs).
    rewrite omap_app, IH, app_nil_r.
    unfold missing_index_events, Unfiltered.print_missing_index.
    by destruct (filter _ _) as [|[[[[[? ?] ?] ?] ?] ?] ?].
  - apply orb_false_iff in Hd as [H1%truthy_false H2%truthy_false].
    by rewrite H1, H2, size_empty.
Qed.

Lemma headers_constraint_section_log (A B : Snapshot) :
  headers (constraint_section_log A B) =
  header_if Constraints true (size (constraint_diff A B).1) ++
  header_if Constraints false (size (constraint_diff A B).2).
Proof.
  unfold constraint_section_log, headers, differs. cbv zeta.
  destruct (truthy (constraint_diff A B).1 || truthy (constraint_diff A B).2) eqn:Hd.
  - rewrite omap_app.
    rewrite (header_if_size Constraints true), (header_if_size Constraints false);
      try done; [by apply omap_fmap_None|].
    induction (constraint_groups _) as [|g gs IH]; [done|].
    rewrite fmap_cons. change (mjoin (?x :: ?xs)) with (x ++ mjoin xs).
    rewrite omap_app, IH, app_nil_r. unfold group_events.
    cbn [omap list_omap header_of]. by apply omap_fmap_None.
  - apply orb_false_iff in Hd as [H1%truthy_false H2%truthy_false].
    by rewrite H1, H2, size_empty.
Qed.

(** X14. Every count a header of the unfiltered run announces is the number
    of findings that follow it: for each category in turn the log holds one
    header with the number of missing objects when some object is missing,
    then one with the number of extra objects when some object is extra, and
    no other header. *)
Theorem unfiltered_headers_count_findings (A B : Snapshot) :
  let log := (Unfiltered.compare_databases (Some (database A))
                (Some (database B))).1 in
  headers log = headers_for categories (findings log).
Proof.
  intros log. subst log.
  destruct (unfiltered_counts A B true) as (Ht & Hv & Hp & Hf & Hi & Hc).
  destruct (unfiltered_counts A B false) as (Ht' & Hv' & Hp' & Hf' & Hi' & Hc').
  cbv zeta in *. unfold headers_for, categories.
  cbn [mbind list_bind]. 
  rewrite !missing_count_tagged, !extra_count_tagged,
    Ht, Hv, Hp, Hf, Hi, Hc, Ht', Hv', Hp', Hf', Hi', Hc'.
  rewrite unfiltered_run. cbn [fst]. unfold unfiltered_log.
  change (headers (?l1 ++ ?l2)) with (omap header_of (l1 ++ l2)).
  rewrite !omap_app.
  fold (headers (section_log Tables (table_diff A B)
                   (MatchLine Tables (length (tables A))))).
  fold (headers (section_log Views (view_diff A B)
                   (MatchLine Views (length (views A))))).
  fold (headers (section_log Procedures (procedure_diff A B)
                   (MatchLine Procedures (length (procedures A))))).
  fold (headers (section_log Functions (function_diff A B)
                   (MatchLine Functions (length (functions A))))).
  fold (headers (index_section_log A B)) (headers (constraint_section_log A B)).
  rewrite !headers_section_log, headers_index_section_log,
    headers_constraint_section_log by done.
  assert (header_of (unfiltered_summary A B) = None) as Hs
    by (unfold unfiltered_summary; by destruct (unfiltered_found A B)).
  cbn [omap list_omap header_of app]. rewrite Hs.
  by rewrite <- !app_assoc, ?app_nil_r.
Qed.

(** ** The total of the matching row counts *)

Lemma sum_values_Permutation (l1 l2 : list (option Z)) :
  l1 ≡ₚ l2 → sum_values l1 = sum_values l2.
Proof.
  unfold sum_values.
  induction 1 as [|v l1 l2 _ IH|v1 v2 l|l1 l2 l3 _ IH1 _ IH2]; cbn [foldr];
    [done | by rewrite IH | lia | congruence].
Qed.

Lemma counts_dict_to_list (count : Ident → option Z) (ts : list Ident) :
  map_to_list (counts_dict count ts ∅) ≡ₚ
  (λ k, (k, count k)) <$> elements (list_to_set ts : gset Ident).
Proof.
  apply NoDup_Permutation.
  - apply NoDup_map_to_list.
  - assert (Inj (=) (=) (λ k : Ident, (k, count k))) by (by intros k1 k2 [= ->]).
    apply (NoDup_fmap_2 _), NoDup_elements.
  - intros [k v]. rewrite elem_of_map_to_list, counts_dict_lookup, list_elem_of_fmap.
    split.
    + destruct (decide (k ∈ ts)) as [Hk|Hk]; [|by rewrite lookup_empty].
      intros [= <-]. exists k. split; [done|].
      by rewrite elem_of_elements, elem_of_list_to_set.
    + intros (k' & [= -> ->] & Hk).
      rewrite elem_of_elements, elem_of_list_to_set in Hk.
      by rewrite decide_True.
Qed.

Lemma sum_counts_dict (A : Snapshot) (ts : list Ident) :
  sum_values (map_to_list (counts_dict (row_count A) ts ∅)).*2 = total_rows A ts.
Proof.
  unfold total_rows. apply sum_values_Permutation.
  rewrite counts_dict_to_list, <- list_fmap_compose. done.
Qed.

Lemma counts_agree_iff (A B : Snapshot) (ts : list Ident) :
  counts_agree A B ts ↔ row_count_diffs A B ts = [] ∧ ¬ has_null_count A ts.
Proof.
  unfold counts_agree, row_count_diffs, has_null_count.
  assert (Hn : ∀ l : list Ident,
            (λ k, (k, row_count A k, row_count B k)) <$> l = [] ↔ l = [])
    by (by intros []).
  rewrite Hn, Exists_exists. clear Hn. split.
  - intros Hall. split.
    + induction ts as [|k ts IH]; [done|].
      rewrite filter_cons. destruct (Hall k) as (n & HA & HB); [left|].
      rewrite decide_False by congruence. apply IH. intros k' Hk'. apply Hall. by right.
    + intros (k & Hk & Hnone). destruct (Hall k Hk) as (n & HA & _). congruence.
  - intros [Hnil Hnull] k Hk.
    destruct (decide (row_count A k = row_count B k)) as [Heq|Hne].
    + destruct (row_count A k) as [n|] eqn:HA.
      * by exists n.
      * exfalso. apply Hnull. by exists k.
    + assert (k ∈ filter (λ k, row_count A k ≠ row_count B k) ts) as Hin
        by by apply list_elem_of_filter.
      rewrite Hnil in Hin. by apply elem_of_nil in Hin.
Qed.

Lemma total_rows_agree (A B : Snapshot) (ts tt : list Ident) :
  (list_to_set ts : gset Ident) = list_to_set tt → counts_agree A B ts →
  total_rows A ts = total_rows B tt.
Proof.
  intros Hset Hall. unfold total_rows. rewrite <- Hset. f_equal.
  apply list_fmap_ext. intros i k Hk%list_elem_of_lookup_2.
  rewrite elem_of_elements, elem_of_list_to_set in Hk.
  destruct (Hall k Hk) as (n & -> & ->). done.
Qed.

Lemma row_count_totals_row_counts_run (A B : Snapshot) (ts tt : list Ident) :
  row_count_totals (row_counts_run A B ts tt).1 =
  match row_count_diffs A B ts with
  | [] => if decide (has_null_count A ts) then [] else [total_rows A ts]
  | _ => []
  end.
Proof.
  unfold row_counts_run, row_count_totals, has_null_count.
  destruct (row_count_diffs A B ts) as [|d diffs];
    [destruct (decide _)|]; cbn [fst];
    rewrite !omap_app, !omap_count_events by done;
    cbn [omap list_omap total_of app]; rewrite ?sum_counts_dict; try done.
  by rewrite (omap_fmap_None total_of diff_line).
Qed.

(** X15. The filtered run prints the total of the row counts at most once,
    and exactly when the two table sets agree and every compared table has a
    count on both sides, and the same.  The total is the sum of the source's
    counts over its distinct tables, which is then the target's sum as
    well. *)
Theorem row_count_total (A B : Snapshot) :
  let run := Filtered.compare_databases (Some (database A)) (Some (database B)) in
  let reconciled :=
    differs (filtered_table_diff A B) = false ∧
    counts_agree A B (filtered_tables A) in
  (reconciled →
   row_count_totals run.1 = [total_rows A (filtered_tables A)] ∧
   total_rows A (filtered_tables A) = total_rows B (filtered_tables B)) ∧
  (¬ reconciled → row_count_totals run.1 = []).
Proof.
  intros run reconciled. subst run reconciled. unfold row_count_totals.
  rewrite filtered_run_projection
    by (by intros [? []| | | | | | | | | | | | | | | |]).
  fold (row_count_totals (filtered_row_counts A B).1).
  unfold filtered_row_counts. rewrite counts_agree_iff.
  destruct (differs (filtered_table_diff A B)) eqn:Hd.
  - split; [by intros [? _] | done].
  - rewrite row_count_totals_row_counts_run. split.
    + intros (_ & Hnil & Hnull). rewrite Hnil, decide_False by done.
      split; [done|]. apply total_rows_agree; [|by apply counts_agree_iff].
      apply differs_false in Hd as [H1 H2].
      unfold filtered_table_diff, compare_lists in H1, H2. cbn [fst snd] in H1, H2.
      apply set_eq. intros k.
      assert (Hk1 : k ∉ (list_to_set (filtered_tables A) : gset Ident)
                          ∖ list_to_set (filtered_tables B))
        by (rewrite H1; apply not_elem_of_empty).
      assert (Hk2 : k ∉ (list_to_set (filtered_tables B) : gset Ident)
                          ∖ list_to_set (filtered_tables A))
        by (rewrite H2; apply not_elem_of_empty).
      rewrite elem_of_difference in Hk1, Hk2.
      destruct (decide (k ∈ (list_to_set (filtered_tables A) : gset Ident))),
        (decide (k ∈ (list_to_set (filtered_tables B) : gset Ident))); tauto.
    + intros Hn.
      destruct (row_count_diffs A B (filtered_tables A)) as [|d diffs]; [|done].
      destruct (decide (has_null_count A (filtered_tables A))); [done|].
      exfalso. by apply Hn.
Qed.

(** ** A run with differences in four categories *)

(** The source has a table and a view the target lacks, the target an index
    and a constraint the source lacks: the unfiltered run reports the four
    and lists two categories in its summary; the filtered run reports the
    table and the view only, and prints no total. *)
Example drifted_runs :
  let unfiltered := Unfiltered.compare_databases (Some (database drifted_source))
                      (Some (database drifted_target)) in
  let filtered := Filtered.compare_databases (Some (database drifted_source))
                    (Some (database drifted_target)) in
  findings unfiltered.1 =
    [MissingObject Tables ["dbo"; "Orders"];
     MissingObject Views ["dbo"; "ActiveUsers"];
     ExtraObject Indexes ["dbo"; "Users"; "IX_Users_Name"];
     ExtraObject Constraints ["dbo"; "Users"; "PK_Users"; "PRIMARY KEY"]] ∧
  headers unfiltered.1 =
    [(Tables, true, 1); (Views, true, 1); (Indexes, false, 1);
     (Constraints, false, 1)] ∧
  last unfiltered.1 = Some (SummaryDifferent [(Tables, 1); (Views, 1)]) ∧
  enumerations unfiltered.1 =
    [(Source, SelectTables); (Target, SelectTables);
     (Source, SelectViews); (Target, SelectViews);
     (Source, SelectProcedures); (Target, SelectProcedures);
     (Source, SelectFunctions); (Target, SelectFunctions);
     (Source, SelectIndexes); (Target, SelectIndexes);
     (Source, SelectConstraints); (Target, SelectConstraints)] ∧
  findings filtered.1 =
    [MissingObject Tables ["dbo"; "Orders"];
     MissingObject Views ["dbo"; "ActiveUsers"]] ∧
  row_count_totals filtered.1 = [] ∧
  (Unfiltered.main (Some (database drifted_source))
     (Some (database drifted_target))).2 = Ok 1%Z.
Proof. cbv zeta. split_and!; reflexivity. Qed.

(** Two tables with equal counts: the filtered run prints their total.  An
    index only the source has: the unfiltered run prints its type and its
    flags. *)
Example total_of_two_tables :
  row_count_totals
    (Filtered.compare_databases (Some (database scenario_A_source))
       (Some (database scenario_A_source))).1 = [2%Z] ∧
  missing_index_lines
    (Unfiltered.compare_databases (Some (database denied_target))
       (Some (database denied_source))).1 =
    [(["dbo"; "Users"; "PK_Users"], "CLUSTERED", ["PRIMARY KEY"; "UNIQUE"])].
Proof. split; reflexivity. Qed.

(** ** A failing enumeration query *)

Section raises_only.
Context (Φ : PyExn → list Event → Prop).
Hypothesis after : ∀ e l l', Φ e l' → Φ e (l ++ l').

Lemma raises_only_ok {A} (run : M A) (a : A) : run.2 = Ok a → raises_only Φ run.
Proof. intros Ha e He. congruence. Qed.

Lemma raises_only_bind {A B} (m : M A) (f : A → M B) :
  raises_only Φ m → (∀ a, raises_only Φ (f a)) → raises_only Φ (bind m f).
Proof.
  intros Hm Hf. destruct m as [l [a|e]];
    [|intros e' [= <-]; by apply (Hm e)].
  cbn [bind]. specialize (Hf a). destruct (f a) as [l' r].
  intros e He. apply after. by apply Hf.
Qed.

Lemma raises_only_section `{Countable K} (missing extra : gset K)
  (print_missing print_extra print_match : M unit) :
  print_missing.2 = Ok tt → print_extra.2 = Ok tt → print_match.2 = Ok tt →
  raises_only Φ (report_section missing extra print_missing print_extra print_match).
Proof.
  destruct print_missing as [lm rm], print_extra as [le re], print_match as [lo ro].
  cbn [snd]. intros -> -> ->.
  eapply raises_only_ok. rewrite report_section_run. reflexivity.
Qed.

Lemma raises_only_idents (c : ObjectCategory) (missing extra : gset Ident)
  (print_match : M unit) :
  print_match.2 = Ok tt →
  raises_only Φ (report_section missing extra (print_missing_idents c missing)
                   (print_extra_idents c extra) print_match).
Proof.
  intros Hm. apply raises_only_section; [| |done];
    unfold print_missing_idents, print_extra_idents;
    by rewrite for_each_emit.
Qed.

End raises_only.

Lemma stopped_at_query_after (source target : Catalog) (l l' : list Event) :
  stopped_at_query source target l' → stopped_at_query source target (l ++ l').
Proof.
  intros (side & q & Hlast & Hq). exists side, q. split; [|done].
  by rewrite last_app, Hlast.
Qed.

Lemma raises_only_execute {A} (Φ : PyExn → list Event → Prop) (side : Side)
  (q : Query) (rows : option A) :
  (rows = None → Φ DatabaseError [Execute side q]) →
  raises_only Φ (execute side q rows).
Proof. intros HΦ. destruct rows as [r|]; [done|]. intros e [= <-]. by apply HΦ. Qed.

Lemma compare_row_counts_raises (source target : Catalog)
  (source_tables target_tables : list Ident) (missing extra : gset Ident) :
  raises_only (λ e _, e = TypeError)
    (Filtered.compare_row_counts (Source, source) (Target, target)
       source_tables target_tables missing extra).
Proof.
  unfold Filtered.compare_row_counts, Filtered.get_table_row_counts.
  destruct (negb _ && negb _); [|done].
  rewrite !count_tables_catalog. cbn [bind].
  destruct (Filtered.collect_row_count_diffs _ _ _) as [|d diffs].
  - rewrite py_sum_run. destruct (decide _) as [Hn|Hn]; [|done].
    by intros e [= <-].
  - rewrite for_each_diff_lines. done.
Qed.

(** X16. A failing enumeration query ends the comparison where it is
    issued: when a run of either script raises a database error, the last
    event of its log is an enumeration query that its database fails to
    answer, so that no later step has run and no summary is printed.  The
    unfiltered script raises nothing else, and raises exactly when some
    enumeration query of one of the two databases fails. *)
Theorem run_stops_at_failing_query (source target : Catalog) :
  let unfiltered := Unfiltered.compare_databases (Some source) (Some target) in
  let filtered := Filtered.compare_databases (Some source) (Some target) in
  (∀ e, unfiltered.2 = Raise e →
        e = DatabaseError ∧ stopped_at_query source target unfiltered.1) ∧
  ((∃ e, unfiltered.2 = Raise e) ↔
     unfiltered_enumeration_fails source ∨ unfiltered_enumeration_fails target) ∧
  (filtered.2 = Raise DatabaseError → stopped_at_query source target filtered.1).
Proof.
  intros unfiltered filtered. subst unfiltered filtered.
  set (Φ := λ (e : PyExn) (log : list Event),
              e = DatabaseError ∧ stopped_at_query source target log).
  set (Ψ := λ (e : PyExn) (log : list Event),
              e = DatabaseError → stopped_at_query source target log).
  assert (HΦ : ∀ e l l', Φ e l' → Φ e (l ++ l'))
    by (intros e l l' [-> H]; split; [done | by apply stopped_at_query_after]).
  assert (HΨ : ∀ e l l', Ψ e l' → Ψ e (l ++ l'))
    by (intros e l l' H He; by apply stopped_at_query_after, H).
  assert (Hq : ∀ side q, failing (database_of side source target) q →
                 stopped_at_query source target [Execute side q])
    by (intros side q H; by exists side, q).
  assert (Hu : raises_only Φ (Unfiltered.compare_databases (Some source) (Some target))).
  { unfold Unfiltered.compare_databases, Unfiltered.get_tables, Unfiltered.get_views,
      Unfiltered.get_procedures, Unfiltered.get_functions, Unfiltered.get_indexes,
      Unfiltered.get_constraints.
    cbv zeta. cbn [fst snd].
    repeat first
      [ apply raises_only_execute; intros Hnone; split; [done|];
        first [ by apply (Hq Source) | by apply (Hq Target) ]
      | apply (raises_only_bind Φ HΦ)
      | apply (raises_only_idents Φ); reflexivity
      | apply (raises_only_section Φ)
      | match goal with
        | |- ∀ _, raises_only _ _ => intros ?
        | |- raises_only _ (let '(_, _) := ?d in _) => destruct d
        | |- raises_only _ (if ?b then _ else _) => destruct b; by intros ? [=]
        end ].
    all: first
      [ reflexivity
      | by rewrite print_missing_constraints_run
      | unfold emit; cbn [bind];
        by rewrite ?for_each_emit_pair,
             ?(for_each_ok _ _ (print_missing_index_ok _)) ]. }
  assert (Hf : raises_only Ψ (Filtered.compare_databases (Some source) (Some target))).
  { unfold Filtered.compare_databases, Filtered.get_tables, Filtered.get_views,
      Filtered.get_procedures, Filtered.get_functions.
    cbv zeta. cbn [fst snd].
    repeat first
      [ apply raises_only_execute; intros Hnone _;
        first [ by apply (Hq Source) | by apply (Hq Target) ]
      | apply (raises_only_bind Ψ HΨ)
      | eapply raises_only_ok; reflexivity
      | apply (raises_only_idents Ψ);
        first [ reflexivity | by rewrite print_match_or_none_run ]
      | intros e He ->; by apply compare_row_counts_raises in He
      | match goal with
        | |- ∀ _, raises_only _ _ => intros ?
        | |- raises_only _ (let '(_, _) := ?d in _) => destruct d
        | |- raises_only _ (if ?b then _ else _) => destruct b; by intros ? [=]
        end ]. }
  split_and!.
  - intros e He. by apply Hu.
  - split.
    + intros [e He]. destruct (Hu e He) as [_ (side & [] & _ & Hq')];
        destruct side; cbn in Hq'; unfold unfiltered_enumeration_fails; tauto.
    + intros H. exists DatabaseError.
      by apply unfiltered_enumeration_failure_raises.
  - intros He. by apply (Hf DatabaseError).
Qed.

(** ** The headings of the missing constraints *)

Lemma constraint_groups_kinds (missing : gset ConstraintKey) :
  StronglySorted (strictly py_le) (constraint_groups missing).*1 ∧
  ∀ kind, kind ∈ (constraint_groups missing).*1 ↔ ∃ c, c ∈ missing ∧ c.2 = kind.
Proof.
  unfold constraint_groups, Unfiltered.sorted_items.
  set (L := sorted missing).
  set (bt := foldl Unfiltered.by_type_append ∅ L).
  set (R := λ x y : string * list IndexKey, py_le x.1 y.1).
  set (groups := merge_sort R (map_to_list bt)).
  assert (Hperm : groups ≡ₚ map_to_list bt) by apply merge_sort_Permutation.
  assert (Hsorted : StronglySorted R groups)
    by (apply StronglySorted_merge_sort; apply _).
  assert (Hnd : NoDup groups.*1).
  { rewrite Hperm. apply NoDup_fst_map_to_list. }
  split.
  - apply StronglySorted_strictly; [|done].
    by apply (StronglySorted_fmap fst R).
  - intros kind. rewrite list_elem_of_fmap. split.
    + intros ([ct items] & -> & Hg). rewrite Hperm, elem_of_map_to_list in Hg.
      apply by_type_lookup_sorted in Hg as [-> Hne]. cbn [fst].
      destruct (filter (λ c : ConstraintKey, c.2 = ct) L) as [|c cs] eqn:Hf; [done|].
      assert (Hc : c ∈ filter (λ c : ConstraintKey, c.2 = ct) L)
        by (rewrite Hf; left).
      apply list_elem_of_filter in Hc as [Hkind Hin]. exists c.
      split; [by apply elem_of_sorted in Hin | done].
    + intros (c & Hc & <-).
      exists (c.2, fst <$> filter (λ c' : ConstraintKey, c'.2 = c.2) L).
      split; [done|]. rewrite Hperm, elem_of_map_to_list.
      apply by_type_lookup_sorted. split; [done|].
      intros Hnil%fmap_nil_inv.
      assert (Hin : c ∈ filter (λ c' : ConstraintKey, c'.2 = c.2) L)
        by (apply list_elem_of_filter; split; [done | by apply elem_of_sorted]).
      rewrite Hnil in Hin. by apply elem_of_nil in Hin.
Qed.

Lemma constraint_kinds_section (A B : Snapshot) :
  constraint_kinds (constraint_section_log A B) =
  (constraint_groups (constraint_diff A B).1).*1.
Proof.
  unfold constraint_section_log, constraint_kinds, differs. cbv zeta.
  assert (Hg : omap kind_of
                 (mjoin (group_events <$> constraint_groups (constraint_diff A B).1)) =
               (constraint_groups (constraint_diff A B).1).*1).
  { induction (constraint_groups _) as [|g gs IH]; [done|].
    rewrite !fmap_cons. change (mjoin (?x :: ?xs)) with (x ++ mjoin xs).
    rewrite omap_app, IH. unfold group_events. cbn [omap list_omap kind_of].
    by rewrite (omap_fmap_None kind_of (λ k, MissingConstraintLine g.1 (index_key k))). }
  destruct (truthy (constraint_diff A B).1) eqn:H1,
    (truthy (constraint_diff A B).2) eqn:H2;
    cbn [orb]; rewrite ?omap_app; cbn [omap list_omap kind_of app];
    rewrite ?Hg,
      ?(omap_fmap_None kind_of (λ k, ExtraLine Constraints (constraint_key k)))
      by done;
    rewrite ?app_nil_r; try done.
  - apply truthy_false in H1. by rewrite H1, constraint_groups_empty.
  - apply truthy_false in H1. by rewrite H1, constraint_groups_empty.
Qed.

Lemma constraint_kinds_index_section (A B : Snapshot) :
  constraint_kinds (index_section_log A B) = [].
Proof.
  unfold index_section_log, constraint_kinds. cbv zeta.
  assert (Hm : omap kind_of
                 (mjoin (missing_index_events A <$> sorted (index_diff A B).1)) = []).
  { induction (sorted (index_diff A B).1) as [|k l IH]; [done|].
    rewrite fmap_cons. change (mjoin (?x :: ?xs)) with (x ++ mjoin xs).
    rewrite omap_app, IH, app_nil_r.
    unfold missing_index_events, Unfiltered.print_missing_index.
    by destruct (filter _ _) as [|[[[[[? ?] ?] ?] ?] ?] ?]. }
  destruct (differs _); [|done]. rewrite omap_app.
  destruct (truthy _), (truthy _); cbn [omap list_omap kind_of app];
    rewrite ?Hm,
      ?(omap_fmap_None kind_of (λ k, ExtraLine Indexes (index_key k))); done.
Qed.

(** X17. The unfiltered run prints the missing constraints under one
    heading per constraint type: the headings are in sorted order, none
    twice, and a constraint type has a heading exactly when some constraint
    of that type is in the source and not in the target. *)
Theorem constraint_kinds_printed_once (A B : Snapshot) :
  let kinds := constraint_kinds (Unfiltered.compare_databases (Some (database A))
                                   (Some (database B))).1 in
  StronglySorted (strictly py_le) kinds ∧
  ∀ kind, kind ∈ kinds ↔
          ∃ c, c ∈ constraints A ∧ (c ∉ constraints B) ∧ c.2 = kind.
Proof.
  intros kinds. subst kinds. rewrite unfiltered_run. cbn [fst].
  assert (constraint_kinds (unfiltered_log A B) =
          (constraint_groups (constraint_diff A B).1).*1) as ->.
  { unfold unfiltered_log, constraint_kinds.
    rewrite !omap_app, !omap_section_log by done.
    fold (constraint_kinds (index_section_log A B)).
    fold (constraint_kinds (constraint_section_log A B)).
    rewrite constraint_kinds_index_section, constraint_kinds_section.
    assert (kind_of (unfiltered_summary A B) = None) as Hs
      by (unfold unfiltered_summary; by destruct (unfiltered_found A B)).
    cbn [omap list_omap kind_of app]. by rewrite Hs, app_nil_r. }
  destruct (constraint_groups_kinds (constraint_diff A B).1) as [Hsorted Hin].
  split; [done|]. intros kind. rewrite Hin.
  unfold constraint_diff. cbn [fst].
  split; intros (c & Hc & Hk); exists c.
  - apply elem_of_difference in Hc as [H1 H2].
    by rewrite !elem_of_list_to_set in H1, H2.
  - destruct Hk as [H2 Hk]. split; [|done].
    apply elem_of_difference. by rewrite !elem_of_list_to_set.
Qed.

(** ** The exit status of [main] *)

Lemma differs_compare_lists `{Countable K} (l1 l2 : list K) (item_name : string) :
  differs (compare_lists l1 l2 item_name) = false ↔ ∀ x, x ∈ l1 ↔ x ∈ l2.
Proof.
  rewrite differs_false. unfold compare_lists. cbn [fst snd]. split.
  - intros [H1 H2] x.
    assert (Hx1 : x ∉ (list_to_set l1 : gset K) ∖ list_to_set l2)
      by (rewrite H1; apply not_elem_of_empty).
    assert (Hx2 : x ∉ (list_to_set l2 : gset K) ∖ list_to_set l1)
      by (rewrite H2; apply not_elem_of_empty).
    rewrite elem_of_difference, !elem_of_list_to_set in Hx1, Hx2.
    destruct (decide (x ∈ l1)), (decide (x ∈ l2)); tauto.
  - intros Hx. split; apply leibniz_equiv, elem_of_equiv_empty; intros x;
      rewrite elem_of_difference, !elem_of_list_to_set, (Hx x); tauto.
Qed.

Lemma same_filtered_rows_differs (A B : Snapshot) :
  (∀ c, same_filtered_rows c A B) ↔
  differs (filtered_table_diff A B) = false ∧ differs (view_diff A B) = false ∧
  differs (filtered_procedure_diff A B) = false ∧
  differs (filtered_function_diff A B) = false.
Proof.
  unfold filtered_table_diff, view_diff, filtered_procedure_diff,
    filtered_function_diff.
  rewrite !differs_compare_lists. split.
  - intros Hall. split_and!.
    + apply (Hall Tables).
    + apply (Hall Views).
    + apply (Hall Procedures).
    + apply (Hall Functions).
  - intros (Ht & Hv & Hp & Hf) []; try done.
Qed.

Lemma row_count_diffs_nil (A B : Snapshot) (ts : list Ident) :
  row_count_diffs A B ts = [] ↔ ∀ k, k ∈ ts → row_count A k = row_count B k.
Proof.
  unfold row_count_diffs. split.
  - intros Hnil%fmap_nil_inv k Hk.
    destruct (decide (row_count A k = row_count B k)) as [|Hne]; [done|].
    assert (Hin : k ∈ filter (λ k, row_count A k ≠ row_count B k) ts)
      by by apply list_elem_of_filter.
    rewrite Hnil in Hin. by apply elem_of_nil in Hin.
  - intros Hall. induction ts as [|k ts IH]; [done|].
    rewrite filter_cons, decide_False by (intros Hne; apply Hne, Hall; left).
    apply IH. intros k' Hk'. apply Hall. by right.
Qed.

Lemma filtered_main_result (source_conn target_conn : option Catalog) :
  (Filtered.main source_conn target_conn).2 =
  match (Filtered.compare_databases source_conn target_conn).2 with
  | Ok success => Ok (exit_status success)
  | Raise e => Raise e
  end ∧
  (Filtered.main source_conn target_conn).1 =
  (Filtered.compare_databases source_conn target_conn).1.
Proof.
  unfold Filtered.main.
  destruct (Filtered.compare_databases _ _) as [l [b|e]]; cbn [bind ret fst snd];
    by rewrite ?app_nil_r.
Qed.

Lemma unfiltered_main_result (source_conn target_conn : option Catalog) :
  (Unfiltered.main source_conn target_conn).2 =
  match (Unfiltered.compare_databases source_conn target_conn).2 with
  | Ok success => Ok (exit_status success)
  | Raise e => Raise e
  end ∧
  (Unfiltered.main source_conn target_conn).1 =
  (Unfiltered.compare_databases source_conn target_conn).1.
Proof.
  unfold Unfiltered.main.
  destruct (Unfiltered.compare_databases _ _) as [l [b|e]]; cbn [bind ret fst snd];
    by rewrite ?app_nil_r.
Qed.

(** X10. What [main] hands to [sys.exit], in terms of the two databases.
    The unfiltered script exits with status 0 exactly when the databases
    hold the same keys in each of the six categories, and with status 1
    otherwise.  The filtered script exits with status 0 exactly when, after
    exclusion, the databases list the same tables, views, procedures and
    functions and every table has a count on both sides, and the same; it
    ends with a [TypeError] and no status exactly when the tables agree, no
    two counts differ and some count is null; it exits with status 1
    otherwise.  [main] logs what [compare_databases] logs. *)
Theorem exit_status_of_main (A B : Snapshot) :
  let unfiltered := Unfiltered.main (Some (database A)) (Some (database B)) in
  let filtered := Filtered.main (Some (database A)) (Some (database B)) in
  (unfiltered.2 = Ok 0%Z ↔ ∀ c, same_keys c A B) ∧
  (unfiltered.2 = Ok 1%Z ↔ ¬ ∀ c, same_keys c A B) ∧
  (filtered.2 = Ok 0%Z ↔
     (∀ c, same_filtered_rows c A B) ∧ counts_agree A B (filtered_tables A)) ∧
  (filtered.2 = Raise TypeError ↔
     same_filtered_rows Tables A B ∧
     (∀ k, k ∈ filtered_tables A → row_count A k = row_count B k) ∧
     has_null_count A (filtered_tables A)) ∧
  (filtered.2 = Ok 0%Z ∨ filtered.2 = Ok 1%Z ∨ filtered.2 = Raise TypeError) ∧
  unfiltered.1 =
    (Unfiltered.compare_databases (Some (database A)) (Some (database B))).1 ∧
  filtered.1 =
    (Filtered.compare_databases (Some (database A)) (Some (database B))).1.
Proof.
  intros unfiltered filtered. subst unfiltered filtered.
  destruct (unfiltered_main_result (Some (database A)) (Some (database B)))
    as [-> ->].
  destruct (filtered_main_result (Some (database A)) (Some (database B)))
    as [-> ->].
  rewrite unfiltered_run, filtered_outcome. cbn [snd].
  rewrite <- unfiltered_no_findings_iff, <- unfiltered_found_iff_findings.
  rewrite same_filtered_rows_differs, counts_agree_iff, <- row_count_diffs_nil.
  change (same_filtered_rows Tables A B)
    with (∀ k, k ∈ filtered_tables A ↔ k ∈ filtered_tables B).
  rewrite <- (differs_compare_lists (filtered_tables A) (filtered_tables B) "table").
  fold (filtered_table_diff A B).
  destruct (unfiltered_found A B), (differs (filtered_table_diff A B)),
    (row_count_diffs A B (filtered_tables A)) as [|d diffs],
    (decide (has_null_count A (filtered_tables A))) as [Hnull|Hnull],
    (differs (view_diff A B)), (differs (filtered_procedure_diff A B)),
    (differs (filtered_function_diff A B));
    cbn [negb orb exit_status]; clear -Hnull;
    split_and!; first [ done | by auto | intuition (discriminate || congruence) ].
Qed.
